(** * Manifest transformation and lifecycle of [rerun_job.py] and [sts_resizer.py]

    A shallow embedding of the two scripts: the YAML/JSON trees they receive
    from [kubectl], the Python operations they apply to them, the two
    transforms ([update_job_manifest], [clean_manifest],
    [update_persistent_volume_size]), the status poller and the two [main]
    drivers, followed by the properties of the specification and by
    further properties of the two scripts.

    Modelling conventions.
    - A parsed document is a [value]: [None], booleans, integers, strings,
      lists and dicts with string keys.  Floats, timestamps and non-string
      keys are outside the model.  A string is the UTF-8 encoding of a
      Python [str]; [PyStr.chars] gives its characters.
    - A dict is an association list in insertion order and holds at most one
      binding per key.
    - Python mutates objects in place.  The documents are trees (no YAML
      anchors, hence no sharing), so a mutation of an object reached through
      a path is the functional update [store] of the tree at that path.
    - An exception is the [Raise] outcome of [result]. *)

From Stdlib Require Import List String Ascii ZArith Lia Bool Arith DecimalString.
Import ListNotations.
Set Warnings "-register-all".
Local Open Scope list_scope.
Local Open Scope string_scope.

(* ================================================================== *)
(** * Python strings *)

Module PyStr.

(** [c in s] for a one-character [c]. *)
Fixpoint has_char (c : ascii) (s : string) : bool :=
  match s with
  | EmptyString => false
  | String a r => Ascii.eqb a c || has_char c r
  end.

(** [s.startswith(p)]. *)
Fixpoint starts_with (p s : string) : bool :=
  match p, s with
  | EmptyString, _ => true
  | String a p', String b s' => Ascii.eqb a b && starts_with p' s'
  | String _ _, EmptyString => false
  end.

(** [needle in hay] on two strings. *)
Fixpoint substringb (needle hay : string) : bool :=
  starts_with needle hay ||
  match hay with
  | EmptyString => false
  | String _ r => substringb needle r
  end.

(** The part of [s] before the first [c] (all of [s] without one). *)
Fixpoint before (c : ascii) (s : string) : string :=
  match s with
  | EmptyString => EmptyString
  | String a r => if Ascii.eqb a c then EmptyString else String a (before c r)
  end.

(** The part of [s] after the first [c] ([None] without one). *)
Fixpoint after (c : ascii) (s : string) : option string :=
  match s with
  | EmptyString => None
  | String a r => if Ascii.eqb a c then Some r else after c r
  end.

(** [s.split(c)]: the pieces between the occurrences of [c]; never empty. *)
Fixpoint split (c : ascii) (s : string) : list string :=
  match s with
  | EmptyString => [EmptyString]
  | String a r =>
      if Ascii.eqb a c then EmptyString :: split c r
      else match split c r with
           | [] => [String a EmptyString]
           | p :: ps => String a p :: ps
           end
  end.

(** A text is the UTF-8 encoding of a Python [str].  A byte [10xxxxxx]
    continues the character begun before it. *)
Definition is_continuation (a : ascii) : bool :=
  let n := nat_of_ascii a in
  Nat.leb 128 n && Nat.ltb n 192.

(** The characters of a text: each a byte that is no continuation, with
    the continuation bytes that follow it. *)
Fixpoint chars (s : string) : list string :=
  match s with
  | EmptyString => []
  | String a r =>
      match chars r with
      | String b c :: cs =>
          if is_continuation b then String a (String b c) :: cs
          else String a EmptyString :: String b c :: cs
      | cs => String a EmptyString :: cs
      end
  end.

(** The text of a list of characters. *)
Fixpoint joined (cs : list string) : string :=
  match cs with
  | [] => EmptyString
  | c :: r => c ++ joined r
  end.

Definition of_bytes (l : list nat) : string :=
  string_of_list_ascii (map ascii_of_nat l).

(** The characters [str.isspace] holds of, which [str.split] and
    [str.strip] take for whitespace: U+0009 to U+000D, U+001C to U+0020,
    U+0085, U+00A0, U+1680, U+2000 to U+200A, U+2028, U+2029, U+202F,
    U+205F and U+3000. *)
Definition whitespace : list string :=
  map of_bytes
      [[9]; [10]; [11]; [12]; [13]; [28]; [29]; [30]; [31]; [32];
       [194; 133]; [194; 160]; [225; 154; 128];
       [226; 128; 128]; [226; 128; 129]; [226; 128; 130]; [226; 128; 131];
       [226; 128; 132]; [226; 128; 133]; [226; 128; 134]; [226; 128; 135];
       [226; 128; 136]; [226; 128; 137]; [226; 128; 138];
       [226; 128; 168]; [226; 128; 169]; [226; 128; 175];
       [226; 129; 159]; [227; 128; 128]].

(** [c.isspace()] for one character. *)
Definition isspace (c : string) : bool :=
  existsb (String.eqb c) whitespace.

(** [s.split()]: the maximal runs of characters that are no whitespace.
    [cur] is the run being read. *)
Fixpoint split_ws_aux (cs : list string) (cur : string) : list string :=
  let flush (rest : list string) :=
    if String.eqb cur "" then rest else cur :: rest in
  match cs with
  | [] => flush []
  | c :: r =>
      if isspace c then flush (split_ws_aux r "")
      else split_ws_aux r (cur ++ c)
  end.

Definition split_ws (s : string) : list string := split_ws_aux (chars s) "".

(** The characters from the first that is no whitespace. *)
Fixpoint drop_spaces (cs : list string) : list string :=
  match cs with
  | c :: r => if isspace c then drop_spaces r else cs
  | [] => []
  end.

(** [s.strip()]. *)
Definition strip (s : string) : string :=
  joined (rev (drop_spaces (rev (drop_spaces (chars s))))).

Definition lower_char (a : ascii) : ascii :=
  let n := nat_of_ascii a in
  if Nat.leb 65 n && Nat.leb n 90 then ascii_of_nat (n + 32) else a.

(** [s.lower()] on ASCII letters.  The other characters are left as
    they are: none of them has [y], [e] or [s] in its lower case, so that
    a text has [yes] for its lower case here exactly when it has in
    Python. *)
Fixpoint lower (s : string) : string :=
  match s with
  | EmptyString => EmptyString
  | String a r => String (lower_char a) (lower r)
  end.

(** [sep.join(l)]. *)
Fixpoint join (sep : string) (l : list string) : string :=
  match l with
  | [] => ""
  | [x] => x
  | x :: r => x ++ sep ++ join sep r
  end.

Definition truthy (s : string) : bool :=
  match s with EmptyString => false | _ => true end.

End PyStr.

(* ================================================================== *)
(** * Documents *)

Inductive value : Type :=
| VNone
| VBool (b : bool)
| VInt (n : Z)
| VStr (s : string)
| VList (l : list value)
| VDict (d : list (string * value)).

Definition dict := list (string * value).

Inductive exn : Type :=
| KeyError (k : string)
| IndexError
| TypeError
| AttributeError
| ValueError (msg : string)
| EOFError
| OSError.

Inductive result (A : Type) : Type :=
| Ok (a : A)
| Raise (e : exn).
Arguments Ok {A} a.
Arguments Raise {A} e.

Definition bind {A B} (r : result A) (k : A -> result B) : result B :=
  match r with
  | Ok a => k a
  | Raise e => Raise e
  end.

Declare Scope py_scope.
Delimit Scope py_scope with py.
Notation "x <- e ;; k" := (bind e (fun x => k))
  (at level 61, e at next level, right associativity) : py_scope.
Local Open Scope py_scope.

(** ** Dicts *)

Module Dict.

Fixpoint get (k : string) (d : dict) : option value :=
  match d with
  | [] => None
  | (k', v) :: r => if String.eqb k' k then Some v else get k r
  end.

Definition mem (k : string) (d : dict) : bool :=
  match get k d with Some _ => true | None => false end.

(** [d[k] = x]: overwrite in place, or add at the end. *)
Fixpoint set (k : string) (x : value) (d : dict) : dict :=
  match d with
  | [] => [(k, x)]
  | (k', v) :: r =>
      if String.eqb k' k then (k, x) :: r else (k', v) :: set k x r
  end.

(** [d.pop(k, None)]: the binding of [k] goes, the others keep their
    order. *)
Fixpoint pop (k : string) (d : dict) : dict :=
  match d with
  | [] => []
  | (k', v) :: r =>
      if String.eqb k' k then pop k r else (k', v) :: pop k r
  end.

Definition pops (ks : list string) (d : dict) : dict :=
  fold_left (fun acc k => pop k acc) ks d.

Definition keys (d : dict) : list string := map fst d.

End Dict.

(** ** Lists *)

Fixpoint list_set {A} (i : nat) (x : A) (l : list A) : list A :=
  match l, i with
  | [], _ => []
  | _ :: r, O => x :: r
  | a :: r, S j => a :: list_set j x r
  end.

(** ** Paths *)

Inductive step : Type :=
| Key (k : string)
| Idx (i : nat).

Definition path := list step.

Fixpoint lookup (v : value) (p : path) : option value :=
  match p with
  | [] => Some v
  | Key k :: q =>
      match v with
      | VDict d => match Dict.get k d with
                   | Some c => lookup c q
                   | None => None
                   end
      | _ => None
      end
  | Idx i :: q =>
      match v with
      | VList l => match nth_error l i with
                   | Some c => lookup c q
                   | None => None
                   end
      | _ => None
      end
  end.

(** The object reached by [p] in [v] has become [x]; nothing happens when
    [p] does not lead to an object of [v]. *)
Fixpoint store (v : value) (p : path) (x : value) : value :=
  match p with
  | [] => x
  | Key k :: q =>
      match v with
      | VDict d => match Dict.get k d with
                   | Some c => VDict (Dict.set k (store c q x) d)
                   | None => v
                   end
      | _ => v
      end
  | Idx i :: q =>
      match v with
      | VList l => match nth_error l i with
                   | Some c => VList (list_set i (store c q x) l)
                   | None => v
                   end
      | _ => v
      end
  end.

(* ================================================================== *)
(** * Python operations on documents *)

Module Py.

(** [bool(v)]. *)
Definition truthy (v : value) : bool :=
  match v with
  | VNone => false
  | VBool b => b
  | VInt n => negb (Z.eqb n 0)
  | VStr s => PyStr.truthy s
  | VList l => match l with [] => false | _ => true end
  | VDict d => match d with [] => false | _ => true end
  end.

(** [v == s] for a string [s]. *)
Definition eq_str (v : value) (s : string) : bool :=
  match v with
  | VStr t => String.eqb t s
  | _ => false
  end.

(** [v[k]] for a string key. *)
Definition getitem (v : value) (k : string) : result value :=
  match v with
  | VDict d => match Dict.get k d with
               | Some x => Ok x
               | None => Raise (KeyError k)
               end
  | _ => Raise TypeError
  end.

(** [v[0]]. *)
Definition getitem0 (v : value) : result value :=
  match v with
  | VList (x :: _) => Ok x
  | VList [] => Raise IndexError
  | VStr s => match PyStr.chars s with
              | c :: _ => Ok (VStr c)
              | [] => Raise IndexError
              end
  | VDict _ => Raise (KeyError "0")
  | _ => Raise TypeError
  end.

(** [k in v] for a string [k]: key of a dict, element of a list,
    substring of a string. *)
Definition contains (k : string) (v : value) : result bool :=
  match v with
  | VDict d => Ok (Dict.mem k d)
  | VList l => Ok (existsb (fun x => eq_str x k) l)
  | VStr s => Ok (PyStr.substringb k s)
  | _ => Raise TypeError
  end.

(** [v.get(k, default)]. *)
Definition get (v : value) (k : string) (default : value) : result value :=
  match v with
  | VDict d => match Dict.get k d with
               | Some x => Ok x
               | None => Ok default
               end
  | _ => Raise AttributeError
  end.

(** [v.pop(k, None)], for its effect on [v]. *)
Definition pop (k : string) (v : value) : result value :=
  match v with
  | VDict d => Ok (VDict (Dict.pop k d))
  | VList _ => Raise TypeError
  | _ => Raise AttributeError
  end.

(** [v.pop(k, None)] for each [k] of [ks], in order. *)
Fixpoint pops (ks : list string) (v : value) : result value :=
  match ks with
  | [] => Ok v
  | k :: r => v' <- pop k v ;; pops r v'
  end.

(** [v.pop(k)], without a default. *)
Definition pop_strict (k : string) (v : value) : result value :=
  match v with
  | VDict d => if Dict.mem k d then Ok (VDict (Dict.pop k d))
               else Raise (KeyError k)
  | VList _ => Raise TypeError
  | _ => Raise AttributeError
  end.

(** [v[k] = x], for its effect on [v]. *)
Definition setitem (v : value) (k : string) (x : value) : result value :=
  match v with
  | VDict d => Ok (VDict (Dict.set k x d))
  | _ => Raise TypeError
  end.

(** [v.append(x)], for its effect on [v]. *)
Definition append (v : value) (x : value) : result value :=
  match v with
  | VList l => Ok (VList (l ++ [x])%list)
  | _ => Raise AttributeError
  end.

(** The characters of a string, each a string. *)
Definition chars (s : string) : list value := map VStr (PyStr.chars s).

(** The items [for x in v] runs over. *)
Definition iter (v : value) : result (list value) :=
  match v with
  | VList l => Ok l
  | VDict d => Ok (map VStr (Dict.keys d))
  | VStr s => Ok (chars s)
  | _ => Raise TypeError
  end.

(** [v.split(':')]. *)
Definition split (v : value) (c : ascii) : result (list string) :=
  match v with
  | VStr s => Ok (PyStr.split c s)
  | _ => Raise AttributeError
  end.

(** [v.split()]. *)
Definition split_ws (v : value) : result (list string) :=
  match v with
  | VStr s => Ok (PyStr.split_ws s)
  | _ => Raise AttributeError
  end.

(** ** [repr] and [str], as an f-string formats a value *)

Definition hex_digit (n : nat) : ascii :=
  if Nat.ltb n 10 then ascii_of_nat (48 + n) else ascii_of_nat (87 + n).

Definition repr_char (quote : ascii) (a : ascii) : string :=
  let n := nat_of_ascii a in
  if Ascii.eqb a "\" then "\\"
  else if Ascii.eqb a quote then String "\" (String a EmptyString)
  else if Nat.eqb n 10 then "\n"
  else if Nat.eqb n 13 then "\r"
  else if Nat.eqb n 9 then "\t"
  else if Nat.ltb n 32 || Nat.eqb n 127 then
    String "\" (String "x" (String (hex_digit (n / 16))
                              (String (hex_digit (n mod 16)) EmptyString)))
  else String a EmptyString.

Fixpoint repr_chars (quote : ascii) (s : string) : string :=
  match s with
  | EmptyString => EmptyString
  | String a r => repr_char quote a ++ repr_chars quote r
  end.

Definition dquote : ascii := ascii_of_nat 34.

Definition repr_str (s : string) : string :=
  let quote : ascii :=
    if PyStr.has_char "'" s && negb (PyStr.has_char dquote s)
    then dquote else "'"%char in
  String quote (repr_chars quote s ++ String quote EmptyString).

Fixpoint repr (v : value) : string :=
  match v with
  | VNone => "None"
  | VBool true => "True"
  | VBool false => "False"
  | VInt n => NilZero.string_of_int (Z.to_int n)
  | VStr s => repr_str s
  | VList l => "[" ++ PyStr.join ", " (map repr l) ++ "]"
  | VDict d =>
      "{" ++ PyStr.join ", "
               (map (fun kv => repr_str (fst kv) ++ ": " ++ repr (snd kv)) d)
          ++ "}"
  end.

Definition str (v : value) : string :=
  match v with
  | VStr s => s
  | _ => repr v
  end.

End Py.

(* ================================================================== *)
(** * The process: [kubectl], the clock, the terminal *)

(** A run of [kubectl].  [apply] reads a temporary file; the call records
    the manifest written to it instead of the file's name. *)
Inductive kubectl_call : Type :=
| Kubectl (args : list string)
| KubectlApply (manifest : value) (namespace : string).

(** What a run prints, as far as the properties below read it: the
    manifests dumped, the closing line of a dry run, the line of a
    cancelled run, the line listing the pods, the notes on inline volumes
    and the closing line of the monitor.  The progress and error messages
    are left out. *)
Inductive output : Type :=
| Dump (manifest : value)            (* print(yaml.dump(manifest, ...)) *)
| Say (line : string).

(** What the process finds around it.  The program is deterministic, so
    the environment is given by the outcome of its n-th [kubectl] run,
    the seconds that run takes, and the n-th line typed at it. *)
Record world : Type := {
  kubectl_reply : nat -> option value;   (* parsed stdout; None: non-zero exit *)
  kubectl_seconds : nat -> nat;
  stdin_line : nat -> option string;     (* None: end of input *)
  backup_writable : bool
}.

Record state : Type := {
  calls : list kubectl_call;             (* oldest first *)
  clock : Z;                             (* time.time(), in whole seconds *)
  lines_read : nat;
  backups : list value;                  (* manifests written by create_backup *)
  printed : list output                  (* oldest first *)
}.

Definition initial : state :=
  {| calls := []; clock := 0; lines_read := 0; backups := []; printed := [] |}.

Inductive outcome (A : Type) : Type :=
| Return (a : A)
| Except (e : exn)          (* an Exception travelling up *)
| Exit (code : Z)           (* sys.exit(code) *)
| OutOfFuel.
Arguments Return {A} a.
Arguments Except {A} e.
Arguments Exit {A} code.
Arguments OutOfFuel {A}.

Definition proc (A : Type) : Type := world -> state -> outcome A * state.

Definition ret {A} (a : A) : proc A := fun _ s => (Return a, s).

Definition pbind {A B} (m : proc A) (k : A -> proc B) : proc B :=
  fun w s =>
    match m w s with
    | (Return a, s') => k a w s'
    | (Except e, s') => (Except e, s')
    | (Exit c, s') => (Exit c, s')
    | (OutOfFuel, s') => (OutOfFuel, s')
    end.

Notation "x <== e ;; k" := (pbind e (fun x => k))
  (at level 61, e at next level, right associativity) : py_scope.
Notation "e ;;; k" := (pbind e (fun _ => k))
  (at level 61, right associativity) : py_scope.

(** A pure computation inside the process. *)
Definition lift {A} (r : result A) : proc A :=
  fun _ s => match r with
             | Ok a => (Return a, s)
             | Raise e => (Except e, s)
             end.

Definition sys_exit {A} (code : Z) : proc A := fun _ s => (Exit code, s).

(** The state with one more thing printed. *)
Definition said (o : output) (s : state) : state :=
  {| calls := calls s; clock := clock s; lines_read := lines_read s;
     backups := backups s; printed := (printed s ++ [o])%list |}.

Definition print (o : output) : proc unit :=
  fun _ s => (Return tt, said o s).

(** [time.time()]. *)
Definition time_time : proc Z := fun _ s => (Return (clock s), s).

(** The state [n] seconds later. *)
Definition slept (n : Z) (s : state) : state :=
  {| calls := calls s; clock := clock s + n; lines_read := lines_read s;
     backups := backups s; printed := printed s |}.

(** [time.sleep(n)]. *)
Definition time_sleep (n : Z) : proc unit :=
  fun _ s => (Return tt, slept n s).

(** [input(prompt)]; at the end of input it raises [EOFError], an
    [Exception] like the others. *)
Definition input : proc string :=
  fun w s =>
    let s' := {| calls := calls s; clock := clock s;
                 lines_read := S (lines_read s);
                 backups := backups s; printed := printed s |} in
    match stdin_line w (lines_read s) with
    | Some l => (Return l, s')
    | None => (Except EOFError, s')
    end.

(** [kubectl] is run, the run is recorded, the clock advances; a non-zero
    exit status ends the process with status 1. *)
Definition after_call (w : world) (c : kubectl_call) (s : state) : state :=
  {| calls := (calls s ++ [c])%list;
     clock := clock s + Z.of_nat (kubectl_seconds w (List.length (calls s)));
     lines_read := lines_read s;
     backups := backups s; printed := printed s |}.

Definition kubectl (c : kubectl_call) : proc value :=
  fun w s =>
    match kubectl_reply w (List.length (calls s)) with
    | Some out => (Return out, after_call w c s)
    | None => (Exit 1, after_call w c s)
    end.

(** [run_kubectl_command(args)], the same function in both scripts. *)
Definition run_kubectl_command (args : list string) : proc value :=
  kubectl (Kubectl args).

(** [try: body except Exception: sys.exit(1)], a normal return leaving the
    process with status 0. *)
Definition try_or_exit1 (body : proc unit) : proc unit :=
  fun w s =>
    match body w s with
    | (Except _, s') => (Exit 1, s')
    | r => r
    end.

(** The exit status of a whole run of [main]. *)
Definition exit_status (r : outcome unit) : option Z :=
  match r with
  | Return _ => Some 0%Z
  | Exit c => Some c
  | Except _ => Some 1%Z
  | OutOfFuel => None
  end.

(** A call that changes the cluster. *)
Definition destructive (c : kubectl_call) : bool :=
  match c with
  | Kubectl ("delete" :: _) => true
  | Kubectl _ => false
  | KubectlApply _ _ => true
  end.

(** A command-line option that may be missing: [None] is Python's [None]. *)
Definition opt_truthy (o : option string) : bool :=
  match o with
  | Some s => PyStr.truthy s
  | None => false
  end.

(* ================================================================== *)
(** * rerun_job.py *)

Module RerunJob.

Definition containers_path : path :=
  [Key "spec"; Key "template"; Key "spec"; Key "containers"].

Definition get_job_manifest (job_name namespace : string) : proc value :=
  run_kubectl_command ["get"; "job"; job_name; "-n"; namespace; "-o"; "yaml"].

(** The new value of [container['image']]: the text before the first
    colon, or the whole text, followed by [:latest]. *)
Definition latest_image (current_image : value) : result string :=
  has_colon <- Py.contains ":" current_image ;;
  if has_colon : bool then
    parts <- Py.split current_image ":" ;;
    Ok (hd "" parts ++ ":latest")
  else Ok (Py.str current_image ++ ":latest").

(** [update_job_manifest], "Update image tag to latest". *)
Definition update_image (container : value) : result value :=
  current_image <- Py.getitem container "image" ;;
  new_image <- latest_image current_image ;;
  Py.setitem container "image" (VStr new_image).

(** The [for env_var in env_vars] loop: the first item named
    [env_var_name] and its position. *)
Fixpoint find_env_var (env_vars : list value) (env_var_name : string)
         (i : nat) : result (option (nat * value)) :=
  match env_vars with
  | [] => Ok None
  | env_var :: rest =>
      name <- Py.getitem env_var "name" ;;
      if Py.eq_str name env_var_name then Ok (Some (i, env_var))
      else find_env_var rest env_var_name (S i)
  end.

(** The new value of an existing variable, [None] when it is left as it
    is. *)
Definition merged_value (current_value : value) (env_var_value : string)
  : result (option string) :=
  has_space <- Py.contains " " current_value ;;
  if has_space : bool then
    values_list <- Py.split_ws current_value ;;
    if negb (existsb (String.eqb env_var_value) values_list)
    then Ok (Some (Py.str current_value ++ " " ++ env_var_value))
    else Ok None
  else Ok (Some env_var_value).

(** [update_job_manifest], the body of [if env_var_name and
    env_var_value]. *)
Definition update_env (container : value)
           (env_var_name env_var_value : string) : result value :=
  env_vars <- Py.get container "env" (VList []) ;;
  items <- Py.iter env_vars ;;
  target_env_var <- find_env_var items env_var_name 0 ;;
  let add :=
    let new_env_var :=
      VDict [("name", VStr env_var_name); ("value", VStr env_var_value)] in
    env <- Py.getitem container "env" ;;
    env' <- Py.append env new_env_var ;;
    Ok (store container [Key "env"] env') in
  match target_env_var with
  | Some (i, target) =>
      if Py.truthy target then
        current_value <- Py.getitem target "value" ;;
        new_value <- merged_value current_value env_var_value ;;
        match new_value with
        | Some v =>
            target' <- Py.setitem target "value" (VStr v) ;;
            Ok (store container [Key "env"; Idx i] target')
        | None => Ok container
        end
      else add
  | None => add
  end.

(** [update_job_manifest], from "Clean up metadata for recreation" to the
    end. *)
Definition clean_up (manifest : value) : result value :=
  has_metadata <- Py.contains "metadata" manifest ;;
  manifest <-
    (if has_metadata : bool then
       metadata <- Py.getitem manifest "metadata" ;;
       metadata <- Py.pops ["creationTimestamp"; "resourceVersion"; "uid";
                            "generation"; "labels"] metadata ;;
       let manifest := store manifest [Key "metadata"] metadata in
       spec <- Py.getitem manifest "spec" ;;
       template <- Py.getitem spec "template" ;;
       metadata <- Py.getitem template "metadata" ;;
       metadata <- Py.pop "labels" metadata ;;
       let manifest :=
         store manifest [Key "spec"; Key "template"; Key "metadata"]
               metadata in
       metadata <- Py.getitem manifest "spec" ;;
       metadata <- Py.pop "selector" metadata ;;
       let manifest := store manifest [Key "spec"] metadata in
       metadata <- Py.getitem manifest "metadata" ;;
       has_annotations <- Py.contains "annotations" metadata ;;
       if has_annotations : bool then
         annotations <- Py.getitem metadata "annotations" ;;
         annotations <-
           Py.pop "kubectl.kubernetes.io/last-applied-configuration"
                  annotations ;;
         Ok (store manifest [Key "metadata"; Key "annotations"] annotations)
       else Ok manifest
     else Ok manifest) ;;
  manifest <- Py.pop "status" manifest ;;
  manifest <- Py.pop "matchLabels" manifest ;;
  Py.pop "selector" manifest.

(** The first half of [update_job_manifest]: image and environment of the
    first container. *)
Definition mutate (manifest : value) (env_var_name env_var_value : option string)
  : result value :=
  spec <- Py.getitem manifest "spec" ;;
  template <- Py.getitem spec "template" ;;
  pod_spec <- Py.getitem template "spec" ;;
  containers <- Py.getitem pod_spec "containers" ;;
  if negb (Py.truthy containers) then
    Raise (ValueError "No containers found in job manifest")
  else
    container <- Py.getitem0 containers ;;
    container <- update_image container ;;
    container <-
      (if opt_truthy env_var_name && opt_truthy env_var_value then
         match env_var_name, env_var_value with
         | Some n, Some v => update_env container n v
         | _, _ => Ok container
         end
       else Ok container) ;;
    Ok (store manifest (containers_path ++ [Idx 0])%list container).

Definition update_job_manifest (manifest : value)
           (env_var_name env_var_value : option string) : result value :=
  manifest <- mutate manifest env_var_name env_var_value ;;
  clean_up manifest.

Definition delete_job (job_name namespace : string) : proc unit :=
  run_kubectl_command ["delete"; "job"; job_name; "-n"; namespace] ;;;
  ret tt.

Definition apply_job_manifest (manifest : value) (namespace : string)
  : proc unit :=
  kubectl (KubectlApply manifest namespace) ;;;
  ret tt.

(** ** The poller *)

(** Which of its three closing lines [check_job_status] prints; the
    Python function returns [None] after each. *)
Inductive verdict : Type := Completed | Failed | TimedOut.

(** [v > 0]. *)
Definition positive (v : value) : result bool :=
  match v with
  | VInt n => Ok (Z.ltb 0 n)
  | VBool b => Ok b
  | _ => Raise TypeError
  end.

(** The body of the loop between the read and the sleep: the counts of
    the status and what they say, [None] for "poll again". *)
Definition classify (job_status : value) : result (option verdict) :=
  status <- Py.get job_status "status" (VDict []) ;;
  completions <- Py.get status "succeeded" (VInt 0) ;;
  failed <- Py.get status "failed" (VInt 0) ;;
  active <- Py.get status "active" (VInt 0) ;;
  done <- positive completions ;;
  if done : bool then Ok (Some Completed)
  else
    lost <- positive failed ;;
    if lost : bool then Ok (Some Failed) else Ok None.

(** The [while] loop of [check_job_status]; [fuel] bounds the number of
    iterations. *)
Fixpoint poll (fuel : nat) (job_name namespace : string)
         (start_time timeout_seconds : Z) : proc verdict :=
  now <== time_time ;;
  if Z.ltb (now - start_time) timeout_seconds then
    match fuel with
    | O => fun _ s => (OutOfFuel, s)
    | S fuel' =>
        job_status <== run_kubectl_command
                     ["get"; "job"; job_name; "-n"; namespace; "-o"; "json"] ;;
        seen <== lift (classify job_status) ;;
        match seen with
        | Some v => ret v
        | None =>
            time_sleep 10 ;;;
            poll fuel' job_name namespace start_time timeout_seconds
        end
    end
  else ret TimedOut.

(** The closing lines, without their leading symbol. *)
Definition verdict_line (timeout_minutes : Z) (v : verdict) : string :=
  match v with
  | Completed => "Job completed successfully!"
  | Failed => "Job failed!"
  | TimedOut =>
      "Timeout reached (" ++ Py.repr (VInt timeout_minutes)
        ++ " minutes). Job may still be running."
  end.

Definition check_job_status (job_name namespace : string)
           (timeout_minutes : Z) : proc verdict :=
  start_time <== time_time ;;
  let timeout_seconds := (timeout_minutes * 60)%Z in
  v <== poll (Z.to_nat timeout_seconds) job_name namespace
             start_time timeout_seconds ;;
  print (Say (verdict_line timeout_minutes v)) ;;;
  ret v.

(** ** main *)

Record args : Type := {
  job_name : string;
  namespace : string;
  env_var_name : option string;
  env_var_value : option string;
  monitor : bool;
  timeout : Z;
  dry_run : bool
}.

Definition main (a : args) : proc unit :=
  if opt_truthy (env_var_name a) && negb (opt_truthy (env_var_value a))
  then sys_exit 1
  else if opt_truthy (env_var_value a) && negb (opt_truthy (env_var_name a))
  then sys_exit 1
  else
    try_or_exit1
      (manifest <== get_job_manifest (job_name a) (namespace a) ;;
       updated_manifest <==
         lift (update_job_manifest manifest (env_var_name a)
                                   (env_var_value a)) ;;
       if dry_run a then
         print (Dump updated_manifest) ;;;
         print (Say "Dry run completed. No changes were made.")
       else
         delete_job (job_name a) (namespace a) ;;;
         apply_job_manifest updated_manifest (namespace a) ;;;
         if monitor a then
           check_job_status (job_name a) (namespace a) (timeout a) ;;;
           ret tt
         else ret tt).

End RerunJob.

(* ================================================================== *)
(** * sts_resizer.py *)

Module StsResizer.

Definition get_statefulset_manifest (statefulset_name namespace : string)
  : proc value :=
  run_kubectl_command
    ["get"; "statefulset"; statefulset_name; "-n"; namespace; "-o"; "yaml"].

(** [create_backup]: the manifest is dumped into a file named after the
    StatefulSet, the namespace and the time of day; an unwritable file
    raises [OSError]. *)
Definition create_backup (manifest : value) : proc unit :=
  fun w s =>
    if backup_writable w then
      (Return tt,
       {| calls := calls s; clock := clock s; lines_read := lines_read s;
          backups := (backups s ++ [manifest])%list; printed := printed s |})
    else (Except OSError, s).

(** [yaml.safe_load(yaml.dump(manifest))]: a copy of the tree. *)
Definition deep_copy (manifest : value) : value := manifest.

Definition metadata_fields : list string :=
  ["creationTimestamp"; "resourceVersion"; "uid"; "generation";
   "managedFields"].

Definition annotation_keys : list string :=
  ["kubectl.kubernetes.io/last-applied-configuration";
   "deployment.kubernetes.io/revision";
   "kubernetes.io/change-cause"].

Definition status_fields : list string :=
  ["currentReplicas"; "updatedReplicas"; "readyReplicas";
   "availableReplicas"; "observedGeneration"; "collisionCount";
   "conditions"].

(** The statements [clean_manifest] applies to [metadata] and, spelled out
    a second time, to [template_metadata]. *)
Definition clean_metadata (metadata : value) : result value :=
  metadata <- Py.pops metadata_fields metadata ;;
  has_annotations <- Py.contains "annotations" metadata ;;
  if has_annotations : bool then
    annotations <- Py.getitem metadata "annotations" ;;
    annotations <- Py.pops annotation_keys annotations ;;
    let metadata := store metadata [Key "annotations"] annotations in
    if negb (Py.truthy annotations) then Py.pop_strict "annotations" metadata
    else Ok metadata
  else Ok metadata.

Definition clean_manifest (manifest : value) : result value :=
  let cleaned_manifest := deep_copy manifest in
  has_metadata <- Py.contains "metadata" cleaned_manifest ;;
  cleaned_manifest <-
    (if has_metadata : bool then
       metadata <- Py.getitem cleaned_manifest "metadata" ;;
       metadata <- clean_metadata metadata ;;
       Ok (store cleaned_manifest [Key "metadata"] metadata)
     else Ok cleaned_manifest) ;;
  has_spec <- Py.contains "spec" cleaned_manifest ;;
  has_template <-
    (if has_spec : bool then
       spec <- Py.getitem cleaned_manifest "spec" ;;
       Py.contains "template" spec
     else Ok false) ;;
  cleaned_manifest <-
    (if has_template : bool then
       spec <- Py.getitem cleaned_manifest "spec" ;;
       template <- Py.getitem spec "template" ;;
       template_metadata <- Py.get template "metadata" (VDict []) ;;
       template_metadata <- clean_metadata template_metadata ;;
       Ok (store cleaned_manifest
                 [Key "spec"; Key "template"; Key "metadata"]
                 template_metadata)
     else Ok cleaned_manifest) ;;
  has_spec <- Py.contains "spec" cleaned_manifest ;;
  cleaned_manifest <-
    (if has_spec : bool then
       spec <- Py.getitem cleaned_manifest "spec" ;;
       spec <- Py.pops status_fields spec ;;
       Ok (store cleaned_manifest [Key "spec"] spec)
     else Ok cleaned_manifest) ;;
  Py.pop "status" cleaned_manifest.

Definition storage_path : path :=
  [Key "spec"; Key "resources"; Key "requests"; Key "storage"].

(** The body of [for template in volume_claim_templates]. *)
Definition resize_template (new_size : string) (template : value)
  : result value :=
  has_spec <- Py.contains "spec" template ;;
  has_resources <-
    (if has_spec : bool then
       spec <- Py.getitem template "spec" ;;
       Py.contains "resources" spec
     else Ok false) ;;
  if has_resources : bool then
    spec <- Py.getitem template "spec" ;;
    resources <- Py.getitem spec "resources" ;;
    has_requests <- Py.contains "requests" resources ;;
    has_storage <-
      (if has_requests : bool then
         requests <- Py.getitem resources "requests" ;;
         Py.contains "storage" requests
       else Ok false) ;;
    if has_storage : bool then
      requests <- Py.getitem resources "requests" ;;
      old_size <- Py.getitem requests "storage" ;;
      requests <- Py.setitem requests "storage" (VStr new_size) ;;
      Ok (store template [Key "spec"; Key "resources"; Key "requests"]
                requests)
    else Ok template
  else Ok template.

Fixpoint for_each (f : value -> result value) (items : list value)
  : result (list value) :=
  match items with
  | [] => Ok []
  | x :: r => x' <- f x ;; r' <- for_each f r ;; Ok (x' :: r')
  end.

(** [update_persistent_volume_size], "Find and update PVC templates".
    Only the items of a list are objects the loop can change; the keys of
    a dict and the characters of a string are run over and left alone. *)
Definition resize_templates (manifest : value) (new_size : string)
  : result value :=
  let updated_manifest := deep_copy manifest in
  has_spec <- Py.contains "spec" updated_manifest ;;
  has_templates <-
    (if has_spec : bool then
       spec <- Py.getitem updated_manifest "spec" ;;
       Py.contains "volumeClaimTemplates" spec
     else Ok false) ;;
  if has_templates : bool then
    spec <- Py.getitem updated_manifest "spec" ;;
    volume_claim_templates <- Py.getitem spec "volumeClaimTemplates" ;;
    items <- Py.iter volume_claim_templates ;;
    items' <- for_each (resize_template new_size) items ;;
    match volume_claim_templates with
    | VList _ =>
        Ok (store updated_manifest [Key "spec"; Key "volumeClaimTemplates"]
                  (VList items'))
    | _ => Ok updated_manifest
    end
  else Ok updated_manifest.

(** The body of [for volume in volumes]. *)
Definition note_inline_pvc (volume : value) : proc unit :=
  has_pvc <== lift (Py.contains "persistentVolumeClaim" volume) ;;
  if has_pvc : bool then
    pvc <== lift (Py.getitem volume "persistentVolumeClaim") ;;
    has_name <== lift (Py.contains "claimName" pvc) ;;
    if has_name : bool then
      claim_name <== lift (Py.getitem pvc "claimName") ;;
      print (Say ("Found inline PVC reference: " ++ Py.str claim_name)) ;;;
      print (Say "Note: Inline PVCs need to be updated separately")
    else ret tt
  else ret tt.

Fixpoint for_each_do (f : value -> proc unit) (items : list value)
  : proc unit :=
  match items with
  | [] => ret tt
  | x :: r => f x ;;; for_each_do f r
  end.

(** [update_persistent_volume_size], "Also check for any inline volume
    definitions". *)
Definition note_inline_pvcs (updated_manifest : value) : proc unit :=
  has_spec <== lift (Py.contains "spec" updated_manifest) ;;
  has_template <==
    (if has_spec : bool then
       spec <== lift (Py.getitem updated_manifest "spec") ;;
       lift (Py.contains "template" spec)
     else ret false) ;;
  if has_template : bool then
    spec <== lift (Py.getitem updated_manifest "spec") ;;
    template <== lift (Py.getitem spec "template") ;;
    has_spec <== lift (Py.contains "spec" template) ;;
    has_volumes <==
      (if has_spec : bool then
         pod_spec <== lift (Py.getitem template "spec") ;;
         lift (Py.contains "volumes" pod_spec)
       else ret false) ;;
    if has_volumes : bool then
      pod_spec <== lift (Py.getitem template "spec") ;;
      volumes <== lift (Py.getitem pod_spec "volumes") ;;
      items <== lift (Py.iter volumes) ;;
      for_each_do note_inline_pvc items
    else ret tt
  else ret tt.

Definition update_persistent_volume_size (manifest : value)
           (new_size : string) : proc value :=
  updated_manifest <== lift (resize_templates manifest new_size) ;;
  note_inline_pvcs updated_manifest ;;;
  ret updated_manifest.

Definition delete_statefulset_non_cascading
           (statefulset_name namespace : string) (dry_run : bool)
  : proc unit :=
  if dry_run then
    print (Say "DRY RUN: Would delete StatefulSet with --cascade=false")
  else
    run_kubectl_command ["delete"; "statefulset"; statefulset_name;
                         "-n"; namespace; "--cascade=false"] ;;;
    ret tt.

Definition apply_statefulset_manifest (manifest : value)
           (namespace : string) : proc unit :=
  kubectl (KubectlApply manifest namespace) ;;;
  ret tt.

(** [pod['metadata']['name'] for pod in items]. *)
Fixpoint pod_names_of (items : list value) : result (list value) :=
  match items with
  | [] => Ok []
  | pod :: r =>
      metadata <- Py.getitem pod "metadata" ;;
      name <- Py.getitem metadata "name" ;;
      names <- pod_names_of r ;;
      Ok (name :: names)
  end.

(** The items [', '.join] accepts are strings. *)
Fixpoint joinable (names : list value) : result (list string) :=
  match names with
  | [] => Ok []
  | VStr s :: r => l <- joinable r ;; Ok (s :: l)
  | _ :: _ => Raise TypeError
  end.

Definition get_current_pods (statefulset_name namespace : string)
  : proc (list string) :=
  pods <== run_kubectl_command
         ["get"; "pods"; "-n"; namespace; "-l"; "app=" ++ statefulset_name;
          "-o"; "json"] ;;
  items <== lift (Py.getitem pods "items") ;;
  items <== lift (Py.iter items) ;;
  pod_names <== lift (pod_names_of items) ;;
  names <== lift (joinable pod_names) ;;
  print (Say ("Found " ++ Py.repr (VInt (Z.of_nat (List.length names)))
                       ++ " pods: " ++ PyStr.join ", " names)) ;;;
  ret names.

Record args : Type := {
  statefulset_name : string;
  namespace : string;
  dry_run : bool;
  new_pv_size : option string
}.

Definition main (a : args) : proc unit :=
  try_or_exit1
    (manifest <== get_statefulset_manifest (statefulset_name a) (namespace a) ;;
     create_backup manifest ;;;
     cleaned_manifest <== lift (clean_manifest manifest) ;;
     current_pods <== get_current_pods (statefulset_name a) (namespace a) ;;
     new_pv_size <==
       (if opt_truthy (new_pv_size a) then ret (new_pv_size a)
        else
          line <== input ;;
          let typed := PyStr.strip line in
          if PyStr.truthy typed then ret (Some typed) else ret None) ;;
     cleaned_manifest <==
       (match new_pv_size with
        | Some size =>
            if PyStr.truthy size
            then update_persistent_volume_size cleaned_manifest size
            else ret cleaned_manifest
        | None => ret cleaned_manifest
        end) ;;
     print (Dump cleaned_manifest) ;;;
     if dry_run a then
       print (Say "Dry run completed. No changes were made.")
     else
       confirm <== input ;;
       if negb (String.eqb (PyStr.lower (PyStr.strip confirm)) "yes") then
         print (Say "Operation cancelled by user")
       else
         delete_statefulset_non_cascading
           (statefulset_name a) (namespace a) (dry_run a) ;;;
         apply_statefulset_manifest cleaned_manifest (namespace a) ;;;
         ret tt).

End StsResizer.

(* ================================================================== *)
(** * Vocabulary of the properties *)

Definition step_eqb (a b : step) : bool :=
  match a, b with
  | Key k, Key k' => String.eqb k k'
  | Idx i, Idx j => Nat.eqb i j
  | _, _ => false
  end.

(** Two paths part ways: neither leads into the object the other reaches. *)
Fixpoint apartb (p q : path) : bool :=
  match p, q with
  | a :: p', b :: q' => if step_eqb a b then apartb p' q' else true
  | _, _ => false
  end.

(** [p] is apart from every path of [T]. *)
Definition outside (T : list path) (p : path) : bool :=
  forallb (fun t => apartb t p) T.

(** [m'] is [m] except at and around the paths of [T]: whatever a path
    apart from all of them reaches, or fails to reach, is the same in
    both. *)
Definition same_outside (T : list path) (m m' : value) : Prop :=
  forall p, outside T p = true -> lookup m' p = lookup m p.

Definition absent (m : value) (p : path) : Prop := lookup m p = None.

Definition has (m : value) (p : path) : bool :=
  match lookup m p with Some _ => true | None => false end.

Definition dict_at (m : value) (p : path) : bool :=
  match lookup m p with Some (VDict _) => true | _ => false end.

(** [p] leads nowhere, or to a dict. *)
Definition dict_if_any (m : value) (p : path) : bool :=
  negb (has m p) || dict_at m p.

(** ** Keys to remove *)

(** A key of the object a path leads to. *)
Definition site : Type := (path * string)%type.

Definition site_path (s : site) : path := (fst s ++ [Key (snd s)])%list.

(** The keys [ks] of the object at [l]. *)
Definition under (l : path) (ks : list string) : list site :=
  map (fun k => (l, k)) ks.

(** The key is popped from the object, if the path leads to a dict. *)
Definition prune (s : site) (v : value) : value :=
  match lookup v (fst s) with
  | Some (VDict d) => store v (fst s) (VDict (Dict.pop (snd s) d))
  | _ => v
  end.

Definition prune_all (S : list site) (v : value) : value :=
  fold_left (fun acc s => prune s acc) S v.

(** The key is popped from the object if it holds an empty dict. *)
Definition drop_empty (s : site) (v : value) : value :=
  match lookup v (site_path s) with
  | Some (VDict []) => prune s v
  | _ => v
  end.

(** Each path is apart from the later ones. *)
Fixpoint spread (T : list path) : bool :=
  match T with
  | [] => true
  | t :: r => outside r t && spread r
  end.

(** [t] leads to [p] or above it. *)
Fixpoint prefixb (t p : path) : bool :=
  match t, p with
  | [], _ => true
  | a :: t', b :: p' => step_eqb a b && prefixb t' p'
  | _ :: _, [] => false
  end.

(** No key of [S] is on the way to [p]. *)
Definition clear_of (S : list site) (p : path) : bool :=
  forallb (fun s => negb (prefixb (site_path s) p)) S.

Definition metadata_locations : list path :=
  [[Key "metadata"]; [Key "spec"; Key "template"; Key "metadata"]].

(** ** What each script removes *)

Definition job_metadata_fields : list string :=
  ["creationTimestamp"; "resourceVersion"; "uid"; "generation"; "labels"].

Definition last_applied : string :=
  "kubectl.kubernetes.io/last-applied-configuration".

(** The keys [update_job_manifest] pops whatever the manifest holds. *)
Definition job_top_level_removals : list site :=
  [([], "status"); ([], "matchLabels"); ([], "selector")].

(** The keys [update_job_manifest] pops, in its order, given a top-level
    [metadata]. *)
Definition job_removals : list site :=
  (under [Key "metadata"] job_metadata_fields
   ++ [([Key "spec"; Key "template"; Key "metadata"], "labels");
       ([Key "spec"], "selector");
       ([Key "metadata"; Key "annotations"], last_applied)]
   ++ job_top_level_removals)%list.

Definition job_removals_of (m : value) : list site :=
  if has m [Key "metadata"] then job_removals else job_top_level_removals.

(** The manifests [RerunJob.clean_up] accepts. *)
Definition job_ok (m : value) : bool :=
  dict_at m [] &&
  (negb (has m [Key "metadata"])
   || (dict_at m [Key "metadata"]
       && dict_at m [Key "spec"]
       && dict_at m [Key "spec"; Key "template"]
       && dict_at m [Key "spec"; Key "template"; Key "metadata"]
       && dict_if_any m [Key "metadata"; Key "annotations"])).

(** The keys [clean_manifest] pops from a metadata object at [l]. *)
Definition sts_metadata_removals (l : path) : list site :=
  (under l StsResizer.metadata_fields
   ++ under (l ++ [Key "annotations"]) StsResizer.annotation_keys)%list.

(** The keys [clean_manifest] pops, in its order. *)
Definition sts_removals : list site :=
  (flat_map sts_metadata_removals metadata_locations
   ++ under [Key "spec"] StsResizer.status_fields
   ++ [([], "status")])%list.

(** What [clean_manifest] does to the metadata object at [l]. *)
Definition tidy (l : path) (m : value) : value :=
  drop_empty (l, "annotations") (prune_all (sts_metadata_removals l) m).

(** The site [s] of an object, seen from a tree holding the object at [l]. *)
Definition shift (l : path) (s : site) : site := ((l ++ fst s)%list, snd s).

(** A metadata object [clean_manifest] accepts at [l]. *)
Definition metadata_ok (m : value) (l : path) : bool :=
  negb (has m l)
  || (dict_at m l && dict_if_any m (l ++ [Key "annotations"])%list).

(** The [spec] and [spec.template] [clean_manifest] accepts. *)
Definition template_ok (m : value) : bool :=
  negb (has m [Key "spec"])
  || dict_at m [Key "spec"] &&
     (negb (has m [Key "spec"; Key "template"])
      || dict_at m [Key "spec"; Key "template"] &&
         metadata_ok m [Key "spec"; Key "template"; Key "metadata"]).

(** The manifests [clean_manifest] accepts. *)
Definition sts_ok (m : value) : bool :=
  dict_at m [] && metadata_ok m [Key "metadata"] && template_ok m.

(** What [clean_manifest] returns. *)
Definition sts_cleaned (m : value) : value :=
  prune ([], "status")
    (prune_all (under [Key "spec"] StsResizer.status_fields)
       (tidy [Key "spec"; Key "template"; Key "metadata"]
          (tidy [Key "metadata"] m))).

(** ** What the specification lists (section 4.1), for comparison *)

Inductive kind : Type := JobKind | ReplicaSetKind.

Definition listed_metadata_fields : list string :=
  ["creationTimestamp"; "resourceVersion"; "uid"; "generation";
   "managedFields"; "labels"].

Definition listed_annotations : list string :=
  ["kubectl.kubernetes.io/last-applied-configuration";
   "deployment.kubernetes.io/revision";
   "kubernetes.io/change-cause"].

Definition listed_removals (k : kind) : list site :=
  (flat_map (fun l =>
               under l listed_metadata_fields
               ++ under (l ++ [Key "annotations"]) listed_annotations)
            metadata_locations
   ++ [([], "status"); ([Key "spec"], "selector")]
   ++ match k with
      | JobKind => []
      | ReplicaSetKind => under [Key "spec"] StsResizer.status_fields
      end)%list.

(** The sanitize step of each kind. *)
Definition sanitize (k : kind) (m : value) : result value :=
  match k with
  | JobKind => RerunJob.clean_up m
  | ReplicaSetKind => StsResizer.clean_manifest m
  end.

(** ** What a mutation aims at *)

Definition first_container : path :=
  (RerunJob.containers_path ++ [Idx 0])%list.

Definition image_path : path := (first_container ++ [Key "image"])%list.

Definition env_path : path := (first_container ++ [Key "env"])%list.

Definition named (n : string) (env_var : value) : bool :=
  match lookup env_var [Key "name"] with
  | Some v => Py.eq_str v n
  | None => false
  end.

(** An entry that has a name, and another one than [n]. *)
Definition other_name (n : string) (e : value) : Prop :=
  exists x, Py.getitem e "name" = Ok x /\ Py.eq_str x n = false.

(** The entry [update_env] appends. *)
Definition new_env_var (n v : string) : value :=
  VDict [("name", VStr n); ("value", VStr v)].

(** The position in [env] of the first entry named [n]; the length of [env]
    when there is none, where a new entry is appended. *)
Fixpoint env_slot (n : string) (env : list value) : nat :=
  match env with
  | [] => O
  | e :: r => if named n e then O else S (env_slot n r)
  end.

(** The environment variable asked for, if one is. *)
Definition requested (env_var_name env_var_value : option string)
  : option (string * string) :=
  match env_var_name, env_var_value with
  | Some n, Some v =>
      if PyStr.truthy n && PyStr.truthy v then Some (n, v) else None
  | _, _ => None
  end.

Definition env_target (m : value) (env_var_name env_var_value : option string)
  : list path :=
  match requested env_var_name env_var_value, lookup m env_path with
  | Some (n, _), Some (VList env) => [(env_path ++ [Idx (env_slot n env)])%list]
  | _, _ => []
  end.

(** The environment part of [RerunJob.mutate], on the container with its
    image updated. *)
Definition env_step (c1 : value) (n v : option string) : result value :=
  match requested n v with
  | Some (a, b) => RerunJob.update_env c1 a b
  | None => Ok c1
  end.

Definition templates_path : path := [Key "spec"; Key "volumeClaimTemplates"].

(** A claim template with its storage request, if it has one, set to
    [size]. *)
Definition resized (size : string) (t : value) : value :=
  if has t StsResizer.storage_path
  then store t StsResizer.storage_path (VStr size)
  else t.

Definition storage_targets (m : value) : list path :=
  match lookup m templates_path with
  | Some (VList ts) =>
      map (fun i => (templates_path ++ Idx i :: StsResizer.storage_path)%list)
          (seq 0 (List.length ts))
  | _ => []
  end.

(** The transform [StsResizer.main] applies between the fetch and the dump,
    the diagnostics of [update_persistent_volume_size] left aside. *)
Definition sts_transform (m : value) (new_size : option string) : result value :=
  cleaned <- StsResizer.clean_manifest m ;;
  match new_size with
  | Some size => StsResizer.resize_templates cleaned size
  | None => Ok cleaned
  end.

(** ** Runs *)

(** A computation that runs no [kubectl]. *)
Definition quiet {A} (p : proc A) : Prop :=
  forall w s, calls (snd (p w s)) = calls s.

(** The [kubectl] runs of a computation are, in order, one of the lists of
    [L]. *)
Definition calls_in {A} (p : proc A) (L : list (list kubectl_call)) : Prop :=
  forall w s, exists l, In l L /\ calls (snd (p w s)) = (calls s ++ l)%list.

(** The runs of a first part alone, or followed by those of a second. *)
Definition then_calls (L1 L2 : list (list kubectl_call))
  : list (list kubectl_call) :=
  (L1 ++ flat_map (fun l1 => map (app l1) L2) L1)%list.

Definition fetch_job (a : RerunJob.args) : kubectl_call :=
  Kubectl ["get"; "job"; RerunJob.job_name a; "-n"; RerunJob.namespace a;
           "-o"; "yaml"].

Definition delete_job_call (a : RerunJob.args) : kubectl_call :=
  Kubectl ["delete"; "job"; RerunJob.job_name a; "-n"; RerunJob.namespace a].

(** The two options come together or not at all. *)
Definition args_valid (a : RerunJob.args) : bool :=
  Bool.eqb (opt_truthy (RerunJob.env_var_name a))
           (opt_truthy (RerunJob.env_var_value a)).

Definition fetch_sts (a : StsResizer.args) : kubectl_call :=
  Kubectl ["get"; "statefulset"; StsResizer.statefulset_name a; "-n";
           StsResizer.namespace a; "-o"; "yaml"].

Definition list_pods (a : StsResizer.args) : kubectl_call :=
  Kubectl ["get"; "pods"; "-n"; StsResizer.namespace a; "-l";
           "app=" ++ StsResizer.statefulset_name a; "-o"; "json"].

Definition delete_sts_call (a : StsResizer.args) : kubectl_call :=
  Kubectl ["delete"; "statefulset"; StsResizer.statefulset_name a; "-n";
           StsResizer.namespace a; "--cascade=false"].

Definition dry_run_line : output :=
  Say "Dry run completed. No changes were made.".

(** ** The poller's reads *)

Definition status_call (job_name namespace : string) : kubectl_call :=
  Kubectl ["get"; "job"; job_name; "-n"; namespace; "-o"; "json"].

(** The counts of a status: succeeded, failed, active. *)
Definition counts : Type := (Z * Z * Z)%type.

Definition succeeded (c : counts) : Z := fst (fst c).
Definition failed (c : counts) : Z := snd (fst c).

(** The document of a status read with these counts. *)
Definition status_read (c : counts) : value :=
  VDict [("status",
          VDict [("succeeded", VInt (succeeded c));
                 ("failed", VInt (failed c));
                 ("active", VInt (snd c))])].

(** Neither count says the job is over. *)
Definition running (c : counts) : bool :=
  negb (Z.ltb 0 (succeeded c)) && negb (Z.ltb 0 (failed c)).

(** The seconds from the start of a poll that begins with the [n0]-th
    [kubectl] run to the start of its [k]-th iteration: each earlier
    iteration took its read and slept 10. *)
Fixpoint elapsed (w : world) (n0 k : nat) : Z :=
  match k with
  | O => 0
  | S j => Z.of_nat (kubectl_seconds w n0) + 10 + elapsed w (S n0) j
  end.

(** The state after [k] iterations that read and slept. *)
Fixpoint after_reads (w : world) (c : kubectl_call) (k : nat) (s : state)
  : state :=
  match k with
  | O => s
  | S j => after_reads w c j (slept 10 (after_call w c s))
  end.

(** ** The upsert of section 4.3, for comparison *)

Definition has_whitespace (s : string) : bool :=
  existsb PyStr.isspace (PyStr.chars s).

(** The new value of an existing variable as section 4.3 words it; [None]
    leaves the value unchanged. *)
Definition listed_merge (current new : string) : option string :=
  if has_whitespace current
  then if existsb (String.eqb new) (PyStr.split_ws current)
       then None
       else Some (current ++ " " ++ new)
  else Some new.

(** ** The monitor *)

(** The first [k] reads after [s] are those of a job still running, each
    begun less than [T] seconds after the monitor started in [s]. *)
Definition still_running (w : world) (T : Z) (s : state)
           (reads : nat -> counts) (k : nat) : Prop :=
  forall j, (j < k)%nat ->
    kubectl_reply w (List.length (calls s) + j) = Some (status_read (reads j))
    /\ running (reads j) = true
    /\ (elapsed w (List.length (calls s)) j < T)%Z.

(** What a terminal read says. *)
Definition verdict_of (c : counts) : RerunJob.verdict :=
  if Z.ltb 0 (succeeded c) then RerunJob.Completed else RerunJob.Failed.

(** The text does not begin inside a character, as is the case of the
    UTF-8 of a [str]. *)
Definition starts_char (s : string) : bool :=
  match s with
  | String a _ => negb (PyStr.is_continuation a)
  | EmptyString => true
  end.

(** A non-empty text without whitespace: one item of a space-separated
    value. *)
Definition is_token (s : string) : bool :=
  negb (String.eqb s "") && starts_char s && negb (has_whitespace s).

(** The new value of an existing variable as the code computes it, on
    texts; [None] leaves the value unchanged. *)
Definition space_merge (current new : string) : option string :=
  if PyStr.has_char " " current
  then if existsb (String.eqb new) (PyStr.split_ws current)
       then None
       else Some (current ++ " " ++ new)
  else Some new.

(** The container with the value of one entry of [env] set, or the
    container as it is. *)
Definition with_value (cd ed : dict) (pre post : list value)
           (w : option string) : value :=
  match w with
  | Some w =>
      VDict (Dict.set "env"
               (VList (pre ++ VDict (Dict.set "value" (VStr w) ed) :: post)%list)
               cd)
  | None => VDict cd
  end.

(** ** Claim templates the resize runs over without an error *)

(** A dict whose [spec], [spec.resources] and [spec.resources.requests],
    where present, are dicts. *)
Definition plain_template (t : value) : bool :=
  dict_at t []
  && dict_if_any t [Key "spec"]
  && dict_if_any t [Key "spec"; Key "resources"]
  && dict_if_any t [Key "spec"; Key "resources"; Key "requests"].

(** A manifest whose claim templates, if it has any, are a list of such
    dicts. *)
Definition plain_templates (m : value) : bool :=
  dict_at m []
  && dict_if_any m [Key "spec"]
  && match lookup m templates_path with
     | None => true
     | Some (VList ts) => forallb plain_template ts
     | Some _ => false
     end.

(** ** The notes of the resize *)

Definition volumes_path : path :=
  [Key "spec"; Key "template"; Key "spec"; Key "volumes"].

(** The two lines printed for a volume that names a claim. *)
Definition note_of (volume : value) : list output :=
  match lookup volume [Key "persistentVolumeClaim"; Key "claimName"] with
  | Some name =>
      [Say ("Found inline PVC reference: " ++ Py.str name);
       Say "Note: Inline PVCs need to be updated separately"]
  | None => []
  end.

Definition notes_of (m : value) : list output :=
  match lookup m volumes_path with
  | Some (VList volumes) => flat_map note_of volumes
  | _ => []
  end.

(** A dict whose [persistentVolumeClaim], if it has one, is a dict. *)
Definition plain_volume (v : value) : bool :=
  dict_at v [] && dict_if_any v [Key "persistentVolumeClaim"].

(** A manifest whose pod template, where present, is made of dicts down
    to a list of such volumes. *)
Definition plain_volumes (m : value) : bool :=
  dict_at m []
  && dict_if_any m [Key "spec"]
  && dict_if_any m [Key "spec"; Key "template"]
  && dict_if_any m [Key "spec"; Key "template"; Key "spec"]
  && match lookup m volumes_path with
     | None => true
     | Some (VList volumes) => forallb plain_volume volumes
     | Some _ => false
     end.

(** The state with these things printed, in order. *)
Definition said_all (os : list output) (s : state) : state :=
  fold_left (fun s o => said o s) os s.

(** ** Runs of the StatefulSet script *)

(** The manifest with every claim template resized, when the templates
    are a list. *)
Definition resized_manifest (size : string) (m : value) : value :=
  match lookup m templates_path with
  | Some (VList ts) => store m templates_path (VList (map (resized size) ts))
  | _ => m
  end.

(** The state with one more backup written. *)
Definition backed_up (m : value) (s : state) : state :=
  {| calls := calls s; clock := clock s; lines_read := lines_read s;
     backups := (backups s ++ [m])%list; printed := printed s |}.

(** The state with one more line read. *)
Definition read_line (s : state) : state :=
  {| calls := calls s; clock := clock s; lines_read := S (lines_read s);
     backups := backups s; printed := printed s |}.

(** A pod of the listing, and its name. *)
Definition pod_named (pod : value) (name : string) : Prop :=
  lookup pod [Key "metadata"; Key "name"] = Some (VStr name).

(** The line [get_current_pods] prints. *)
Definition found_line (names : list string) : output :=
  Say ("Found " ++ Py.repr (VInt (Z.of_nat (List.length names)))
                ++ " pods: " ++ PyStr.join ", " names).

(** The answer of the pod listing names these pods. *)
Definition lists_pods (pods : value) (names : list string) : Prop :=
  exists items,
    lookup pods [Key "items"] = Some (VList items)
    /\ Forall2 pod_named items names.

(** The line typed at the confirmation is a yes. *)
Definition says_yes (line : string) : bool :=
  String.eqb (PyStr.lower (PyStr.strip line)) "yes".

(** The run has fetched [m], written the backup, cleaned [m] into [c],
    listed the pods [names], and was given the size on the command line;
    [c] is a manifest the resize runs over without an error. *)
Definition sts_ready (a : StsResizer.args) (w : world) (m c : value)
           (names : list string) (size : string) : Prop :=
  kubectl_reply w 0 = Some m
  /\ backup_writable w = true
  /\ StsResizer.clean_manifest m = Ok c
  /\ (exists pods, kubectl_reply w 1 = Some pods /\ lists_pods pods names)
  /\ StsResizer.new_pv_size a = Some size
  /\ PyStr.truthy size = true
  /\ plain_templates c = true
  /\ plain_volumes c = true.

(** The state of such a run when it has printed the manifest [t]. *)
Definition sts_prepared (a : StsResizer.args) (w : world) (m c t : value)
           (names : list string) : state :=
  said (Dump t)
    (said_all (notes_of c)
       (said (found_line names)
          (after_call w (list_pods a)
             (backed_up m (after_call w (fetch_sts a) initial))))).

(** The size [StsResizer.main] settles on: the one of the command line,
    or else the first line typed with the whitespace around it removed;
    none when that is empty. *)
Definition chosen_size (a : StsResizer.args) (w : world) : option string :=
  if opt_truthy (StsResizer.new_pv_size a) then StsResizer.new_pv_size a
  else match stdin_line w 0 with
       | Some line =>
           let typed := PyStr.strip line in
           if PyStr.truthy typed then Some typed else None
       | None => None
       end.

(** ** What each clean-up keeps of the keys of section 4.1 *)

Definition revision_annotation : string := "deployment.kubernetes.io/revision".

Definition change_cause_annotation : string := "kubernetes.io/change-cause".

(** Keys of section 4.1 that [update_job_manifest] does not pop. *)
Definition job_kept : list path :=
  [[Key "metadata"; Key "managedFields"];
   [Key "metadata"; Key "annotations"; Key revision_annotation];
   [Key "metadata"; Key "annotations"; Key change_cause_annotation];
   [Key "spec"; Key "template"; Key "metadata"; Key "creationTimestamp"];
   [Key "spec"; Key "template"; Key "metadata"; Key "resourceVersion"];
   [Key "spec"; Key "template"; Key "metadata"; Key "uid"];
   [Key "spec"; Key "template"; Key "metadata"; Key "generation"];
   [Key "spec"; Key "template"; Key "metadata"; Key "managedFields"];
   [Key "spec"; Key "template"; Key "metadata"; Key "annotations"]].

(** Keys of section 4.1 that [clean_manifest] does not pop. *)
Definition sts_kept : list path :=
  [[Key "metadata"; Key "labels"];
   [Key "spec"; Key "template"; Key "metadata"; Key "labels"];
   [Key "spec"; Key "selector"]].

(** ** Descriptors as the cluster returns them *)

(** The object of a Job or a StatefulSet has no [matchLabels] and no
    [selector] at its top level. *)
Definition mirrors_schema (m : value) : bool :=
  negb (has m [Key "matchLabels"]) && negb (has m [Key "selector"]).

(* ================================================================== *)
(** * Sample documents and environments *)

Module Sample.

(** A Job as [kubectl get job -o yaml] returns one. *)
Definition job : value :=
  VDict
    [("apiVersion", VStr "batch/v1");
     ("kind", VStr "Job");
     ("metadata",
      VDict [("name", VStr "reindex");
             ("namespace", VStr "default");
             ("uid", VStr "1f0c");
             ("resourceVersion", VStr "5512");
             ("creationTimestamp", VStr "2024-05-01T10:00:00Z");
             ("generation", VInt 1);
             ("labels", VDict [("controller-uid", VStr "1f0c")]);
             ("managedFields", VList [VDict [("manager", VStr "kubectl")]]);
             ("annotations",
              VDict [("kubectl.kubernetes.io/last-applied-configuration",
                      VStr "{}")])]);
     ("spec",
      VDict [("backoffLimit", VInt 3);
             ("selector",
              VDict [("matchLabels",
                      VDict [("controller-uid", VStr "1f0c")])]);
             ("template",
              VDict [("metadata",
                      VDict [("creationTimestamp", VNone);
                             ("labels",
                              VDict [("controller-uid", VStr "1f0c")])]);
                     ("spec",
                      VDict [("restartPolicy", VStr "Never");
                             ("containers",
                              VList
                                [VDict
                                   [("name", VStr "main");
                                    ("image", VStr "img:v1");
                                    ("env",
                                     VList
                                       [VDict [("name", VStr "X");
                                               ("value", VStr "1 2")]])]])])])]);
     ("status", VDict [("succeeded", VInt 1)])].

(** The same Job with a container that declares no environment. *)
Definition job_without_env : value :=
  store job first_container
        (VDict [("name", VStr "main"); ("image", VStr "img:v1")]).

(** The same Job without containers. *)
Definition job_without_containers : value :=
  store job RerunJob.containers_path (VList []).

(** The same Job with the three annotations of section 4.1. *)
Definition job_annotated : value :=
  store job [Key "metadata"; Key "annotations"]
        (VDict [(last_applied, VStr "{}");
                (revision_annotation, VStr "2");
                (change_cause_annotation, VStr "kubectl apply")]).

(** A StatefulSet as [kubectl get statefulset -o yaml] returns one. *)
Definition statefulset : value :=
  VDict
    [("apiVersion", VStr "apps/v1");
     ("kind", VStr "StatefulSet");
     ("metadata",
      VDict [("name", VStr "data");
             ("uid", VStr "77aa");
             ("resourceVersion", VStr "901");
             ("generation", VInt 4);
             ("labels", VDict [("app", VStr "data")]);
             ("annotations",
              VDict [("kubectl.kubernetes.io/last-applied-configuration",
                      VStr "{}")])]);
     ("spec",
      VDict [("replicas", VInt 2);
             ("selector",
              VDict [("matchLabels", VDict [("app", VStr "data")])]);
             ("serviceName", VStr "data");
             ("template",
              VDict [("metadata",
                      VDict [("creationTimestamp", VNone);
                             ("labels", VDict [("app", VStr "data")])]);
                     ("spec",
                      VDict [("containers",
                              VList [VDict [("name", VStr "db");
                                            ("image", VStr "db:14")]]);
                             ("volumes",
                              VList
                                [VDict
                                   [("name", VStr "shared");
                                    ("persistentVolumeClaim",
                                     VDict [("claimName",
                                             VStr "shared-claim")])]])])]);
             ("volumeClaimTemplates",
              VList
                [VDict
                   [("metadata", VDict [("name", VStr "data")]);
                    ("spec",
                     VDict
                       [("accessModes", VList [VStr "ReadWriteOnce"]);
                        ("resources",
                         VDict [("requests",
                                 VDict [("storage", VStr "50Gi")])])])];
                 VDict [("metadata", VDict [("name", VStr "scratch")]);
                        ("spec", VDict [("storageClassName", VStr "fast")])]])]);
     ("status", VDict [("replicas", VInt 2); ("readyReplicas", VInt 2)])].

(** The same StatefulSet without containers. *)
Definition statefulset_without_containers : value :=
  store statefulset RerunJob.containers_path (VList []).

(** The answer of the pod listing. *)
Definition pods : value :=
  VDict [("items",
          VList [VDict [("metadata", VDict [("name", VStr "data-0")])];
                 VDict [("metadata", VDict [("name", VStr "data-1")])]])].

(** An environment that answers the successive [kubectl] runs with
    [replies] (and fails the later ones), each in one second, and has
    [lines] typed. *)
Definition world_of (replies : list value) (lines : list string) : world :=
  {| kubectl_reply := nth_error replies;
     kubectl_seconds := fun _ => 1;
     stdin_line := nth_error lines;
     backup_writable := true |}.

Definition job_args (dry : bool) : RerunJob.args :=
  {| RerunJob.job_name := "reindex";
     RerunJob.namespace := "default";
     RerunJob.env_var_name := Some "X";
     RerunJob.env_var_value := Some "3";
     RerunJob.monitor := false;
     RerunJob.timeout := 10;
     RerunJob.dry_run := dry |}.

Definition sts_args (dry : bool) : StsResizer.args :=
  {| StsResizer.statefulset_name := "data";
     StsResizer.namespace := "default";
     StsResizer.dry_run := dry;
     StsResizer.new_pv_size := Some "100Gi" |}.

(** A run of the StatefulSet script on [statefulset], answered with
    [lines]; every [kubectl] succeeds. *)
Definition sts_world (lines : list string) : world :=
  world_of [statefulset; pods; VNone; VNone] lines.

(** A run of the job script on [job]; every [kubectl] succeeds. *)
Definition job_world : world := world_of [job; VNone; VNone] [].

Definition pod_names : list string := ["data-0"; "data-1"].

Definition tab : string := String (ascii_of_nat 9) EmptyString.

(** The no-break space U+00A0. *)
Definition nbsp : string := PyStr.of_bytes [194; 160].

(** The reads [{0,0,0}] and [{1,0,0}] of section 8, as counts of
    succeeded, failed and active pods. *)
Definition reads (j : nat) : counts :=
  match j with
  | O => (0, 0, 0)%Z
  | S _ => (1, 0, 0)%Z
  end.

Definition monitor_world : world :=
  world_of [status_read (reads 0); status_read (reads 1)] [].

End Sample.

(* ================================================================== *)
(** * Dicts, lists and paths *)

Local Open Scope list_scope.

Section DictFacts.

Lemma get_set (k k' : string) (x : value) (d : dict) :
  Dict.get k (Dict.set k' x d) =
  if String.eqb k' k then Some x else Dict.get k d.
Proof.
  induction d as [|[k0 v0] d IH]; simpl.
  - destruct (String.eqb k' k); reflexivity.
  - destruct (String.eqb k0 k') eqn:E0; simpl.
    + apply String.eqb_eq in E0; subst k0.
      destruct (String.eqb k' k); reflexivity.
    + rewrite IH.
      destruct (String.eqb k0 k) eqn:E1; [|reflexivity].
      apply String.eqb_eq in E1; subst k0. now rewrite String.eqb_sym, E0.
Qed.

Lemma get_pop (k k' : string) (d : dict) :
  Dict.get k (Dict.pop k' d) =
  if String.eqb k' k then None else Dict.get k d.
Proof.
  induction d as [|[k0 v0] d IH]; simpl.
  - destruct (String.eqb k' k); reflexivity.
  - destruct (String.eqb k0 k') eqn:E0; simpl.
    + rewrite IH. apply String.eqb_eq in E0; subst k0.
      destruct (String.eqb k' k); reflexivity.
    + rewrite IH.
      destruct (String.eqb k0 k) eqn:E1; [|reflexivity].
      apply String.eqb_eq in E1; subst k0. now rewrite String.eqb_sym, E0.
Qed.

Lemma pop_absent (k : string) (d : dict) :
  Dict.get k d = None -> Dict.pop k d = d.
Proof.
  induction d as [|[k0 v0] d IH]; simpl; [reflexivity|].
  destruct (String.eqb k0 k); [discriminate|].
  intros H. now rewrite IH.
Qed.

Lemma set_same (k : string) (x : value) (d : dict) :
  Dict.get k d = Some x -> Dict.set k x d = d.
Proof.
  induction d as [|[k0 v0] d IH]; simpl; [discriminate|].
  destruct (String.eqb k0 k) eqn:E.
  - apply String.eqb_eq in E; subst k0. now intros [= ->].
  - intros H. now rewrite IH.
Qed.

Lemma mem_get (k : string) (d : dict) :
  Dict.mem k d = true <-> Dict.get k d <> None.
Proof.
  unfold Dict.mem. destruct (Dict.get k d); split; congruence.
Qed.

Lemma mem_false_get (k : string) (d : dict) :
  Dict.mem k d = false <-> Dict.get k d = None.
Proof.
  unfold Dict.mem. destruct (Dict.get k d); split; congruence.
Qed.

End DictFacts.

Section ListFacts.

Context {A : Type}.

Lemma length_list_set (i : nat) (x : A) (l : list A) :
  List.length (list_set i x l) = List.length l.
Proof.
  revert i; induction l as [|a l IH]; intros [|i]; simpl; auto.
Qed.

Lemma nth_error_list_set_same (i : nat) (x c : A) (l : list A) :
  nth_error l i = Some c -> nth_error (list_set i x l) i = Some x.
Proof.
  revert i; induction l as [|a l IH]; intros [|i]; simpl;
    try discriminate; auto.
Qed.

Lemma nth_error_list_set_other (i j : nat) (x : A) (l : list A) :
  i <> j -> nth_error (list_set i x l) j = nth_error l j.
Proof.
  revert i j; induction l as [|a l IH]; intros [|i] [|j] H; simpl;
    auto; congruence.
Qed.

Lemma list_set_same (i : nat) (x : A) (l : list A) :
  nth_error l i = Some x -> list_set i x l = l.
Proof.
  revert i; induction l as [|a l IH]; intros [|i]; simpl;
    try discriminate.
  - now intros [= ->].
  - intros H. now rewrite IH.
Qed.

End ListFacts.

Section PathFacts.

Lemma step_eqb_eq (a b : step) : step_eqb a b = true <-> a = b.
Proof.
  destruct a, b; simpl; split; try discriminate; intros H.
  - apply String.eqb_eq in H. now subst.
  - injection H as ->. apply String.eqb_refl.
  - apply Nat.eqb_eq in H. now subst.
  - injection H as ->. apply Nat.eqb_refl.
Qed.

Lemma step_eqb_refl (a : step) : step_eqb a a = true.
Proof. now apply step_eqb_eq. Qed.

Lemma apartb_sym (p q : path) : apartb p q = apartb q p.
Proof.
  revert q; induction p as [|a p IH]; intros [|b q]; simpl; auto.
  destruct (step_eqb a b) eqn:E.
  - apply step_eqb_eq in E; subst b. rewrite step_eqb_refl. apply IH.
  - destruct (step_eqb b a) eqn:E'; [|reflexivity].
    apply step_eqb_eq in E'; subst b. now rewrite step_eqb_refl in E.
Qed.

Lemma apartb_app (t p q : path) : apartb (t ++ p) (t ++ q) = apartb p q.
Proof.
  induction t as [|a t IH]; simpl; [reflexivity|].
  now rewrite step_eqb_refl.
Qed.

Lemma apartb_prefix_l (p q : path) : apartb p (p ++ q) = false.
Proof.
  induction p as [|a p IH]; simpl; [reflexivity|].
  now rewrite step_eqb_refl.
Qed.

(** Two paths part ways, or one continues the other. *)
Lemma path_cases (t p : path) :
  apartb t p = true \/ (exists q, p = (t ++ q)%list)
  \/ (exists a q, t = (p ++ a :: q)%list).
Proof.
  revert p; induction t as [|a t IH]; intros p.
  - right; left. now exists p.
  - destruct p as [|b p].
    + right; right. now exists a, t.
    + simpl. destruct (step_eqb a b) eqn:E.
      * apply step_eqb_eq in E; subst b.
        destruct (IH p) as [H|[[q ->]|(c & q & ->)]].
        -- now left.
        -- right; left. now exists q.
        -- right; right. now exists c, q.
      * now left.
Qed.

Lemma lookup_app (v : value) (p q : path) :
  lookup v (p ++ q) =
  match lookup v p with
  | Some c => lookup c q
  | None => None
  end.
Proof.
  revert v; induction p as [|[k|i] p IH]; intros v; simpl; [reflexivity| |].
  - destruct v; try reflexivity. destruct (Dict.get k d); auto.
  - destruct v; try reflexivity. destruct (nth_error l i); auto.
Qed.

Lemma lookup_store_apart (t p : path) (v x : value) :
  apartb t p = true -> lookup (store v t x) p = lookup v p.
Proof.
  revert p v; induction t as [|[k|i] t IH]; intros [|[k'|j] p] v; simpl;
    try discriminate; intros H.
  - destruct v; try reflexivity.
    destruct (Dict.get k d) eqn:G; [|reflexivity].
    simpl. rewrite get_set.
    destruct (String.eqb k k') eqn:E; [|reflexivity].
    apply String.eqb_eq in E; subst k'. rewrite G. now apply IH.
  - destruct v; try reflexivity.
    destruct (Dict.get k d); reflexivity.
  - destruct v; try reflexivity.
    destruct (nth_error l i); reflexivity.
  - destruct v; try reflexivity.
    destruct (nth_error l i) eqn:G; [|reflexivity].
    simpl. destruct (Nat.eqb i j) eqn:E.
    + apply Nat.eqb_eq in E; subst j.
      rewrite (nth_error_list_set_same _ _ _ _ G), G. now apply IH.
    + apply Nat.eqb_neq in E. now rewrite nth_error_list_set_other.
Qed.

Lemma lookup_store_under (t q : path) (v x old : value) :
  lookup v t = Some old -> lookup (store v t x) (t ++ q) = lookup x q.
Proof.
  revert v; induction t as [|[k|i] t IH]; intros v; simpl.
  - reflexivity.
  - destruct v; try discriminate.
    destruct (Dict.get k d) eqn:G; [|discriminate].
    intros H. simpl. rewrite get_set, String.eqb_refl. now apply IH.
  - destruct v; try discriminate.
    destruct (nth_error l i) eqn:G; [|discriminate].
    intros H. simpl. rewrite (nth_error_list_set_same _ _ _ _ G).
    now apply IH.
Qed.

Lemma lookup_store_at (t : path) (v x old : value) :
  lookup v t = Some old -> lookup (store v t x) t = Some x.
Proof.
  intros H. rewrite <- (app_nil_r t) at 2.
  now rewrite (lookup_store_under _ _ _ _ _ H).
Qed.

Lemma store_same (t : path) (v x : value) :
  lookup v t = Some x -> store v t x = v.
Proof.
  revert v; induction t as [|[k|i] t IH]; intros v; simpl.
  - now intros [= ->].
  - destruct v; try discriminate.
    destruct (Dict.get k d) eqn:G; [|discriminate].
    intros H. rewrite (IH _ H). now rewrite set_same.
  - destruct v; try discriminate.
    destruct (nth_error l i) eqn:G; [|discriminate].
    intros H. rewrite (IH _ H). now rewrite list_set_same.
Qed.

Lemma store_missing (t : path) (v x : value) :
  lookup v t = None -> store v t x = v.
Proof.
  revert v; induction t as [|[k|i] t IH]; intros v; simpl.
  - discriminate.
  - destruct v; try reflexivity.
    destruct (Dict.get k d) eqn:G; [|reflexivity].
    intros H. rewrite (IH _ H). now rewrite set_same.
  - destruct v; try reflexivity.
    destruct (nth_error l i) eqn:G; [|reflexivity].
    intros H. rewrite (IH _ H). now rewrite list_set_same.
Qed.

End PathFacts.

Section FrameFacts.

Lemma outside_app (T1 T2 : list path) (p : path) :
  outside (T1 ++ T2) p = outside T1 p && outside T2 p.
Proof. apply forallb_app. Qed.

Lemma outside_incl (T1 T2 : list path) (p : path) :
  incl T1 T2 -> outside T2 p = true -> outside T1 p = true.
Proof.
  unfold outside. rewrite !forallb_forall. intros Hi H t Ht. auto.
Qed.

Lemma outside_map_app (t : path) (T : list path) (q : path) :
  outside (map (app t) T) (t ++ q) = outside T q.
Proof.
  unfold outside. induction T as [|t0 T IH]; simpl; [reflexivity|].
  now rewrite apartb_app, IH.
Qed.

Lemma same_outside_refl (T : list path) (m : value) : same_outside T m m.
Proof. now intros p _. Qed.

Lemma same_outside_trans (T1 T2 : list path) (a b c : value) :
  same_outside T1 a b -> same_outside T2 b c ->
  same_outside (T1 ++ T2) a c.
Proof.
  intros H1 H2 p Hp. rewrite outside_app in Hp.
  apply andb_true_iff in Hp as [Hp1 Hp2].
  now rewrite (H2 p Hp2), (H1 p Hp1).
Qed.

Lemma same_outside_incl (T1 T2 : list path) (a b : value) :
  incl T1 T2 -> same_outside T1 a b -> same_outside T2 a b.
Proof.
  intros Hi H p Hp. apply H. eapply outside_incl; eauto.
Qed.

(** An object changed around [T] inside a tree changes the tree around
    the paths of [T] continued from where the object sits. *)
Lemma same_outside_store (t : path) (T : list path) (v x old : value) :
  lookup v t = Some old -> T <> [] -> same_outside T old x ->
  same_outside (map (app t) T) v (store v t x).
Proof.
  intros Hl Hne Hs p Hp.
  destruct (path_cases t p) as [H|[[q ->]|(a & q & ->)]].
  - now apply lookup_store_apart.
  - rewrite (lookup_store_under _ _ _ _ _ Hl), lookup_app, Hl.
    apply Hs. now rewrite outside_map_app in Hp.
  - destruct T as [|t0 T]; [congruence|]. simpl in Hp.
    apply andb_true_iff in Hp as [Hp _].
    rewrite <- app_assoc, apartb_sym, apartb_prefix_l in Hp. discriminate.
Qed.

Lemma same_outside_store_missing (t : path) (T : list path) (v x : value) :
  lookup v t = None -> same_outside T v (store v t x).
Proof. intros H. rewrite (store_missing _ _ _ H). apply same_outside_refl. Qed.

Lemma get_pops (k : string) (ks : list string) (d : dict) :
  Dict.get k (Dict.pops ks d) =
  if existsb (fun k' => String.eqb k' k) ks then None else Dict.get k d.
Proof.
  unfold Dict.pops. revert d; induction ks as [|k0 ks IH]; intros d; simpl.
  - reflexivity.
  - rewrite IH, get_pop.
    destruct (String.eqb k0 k); simpl; [|reflexivity].
    now destruct (existsb _ ks).
Qed.

Lemma pops_absent (ks : list string) (d : dict) :
  (forall k, In k ks -> Dict.get k d = None) -> Dict.pops ks d = d.
Proof.
  unfold Dict.pops. revert d; induction ks as [|k0 ks IH]; intros d H; simpl.
  - reflexivity.
  - rewrite pop_absent by (apply H; now left). apply IH.
    intros k Hk. apply H. now right.
Qed.

Lemma outside_under_key (ks : list string) (k : string) (q : path) :
  outside (map site_path (under [] ks)) (Key k :: q) = true ->
  existsb (fun k' => String.eqb k' k) ks = false.
Proof.
  unfold outside, under. induction ks as [|k0 ks IH]; simpl; [reflexivity|].
  destruct (String.eqb k0 k); simpl.
  - destruct q; discriminate.
  - exact IH.
Qed.

Lemma outside_under_nil (ks : list string) :
  ks <> [] -> outside (map site_path (under [] ks)) [] = false.
Proof. destruct ks; [congruence|reflexivity]. Qed.

Lemma same_outside_pops (ks : list string) (d : dict) :
  ks <> [] ->
  same_outside (map site_path (under [] ks)) (VDict d) (VDict (Dict.pops ks d)).
Proof.
  intros Hne [|[k|i] q] Hp.
  - now rewrite outside_under_nil in Hp.
  - simpl. now rewrite get_pops, (outside_under_key _ _ _ Hp).
  - reflexivity.
Qed.

Lemma same_outside_pop (k : string) (d : dict) :
  same_outside [[Key k]] (VDict d) (VDict (Dict.pop k d)).
Proof.
  apply (same_outside_pops [k] d). discriminate.
Qed.

Lemma same_outside_set (k : string) (x : value) (d : dict) :
  same_outside [[Key k]] (VDict d) (VDict (Dict.set k x d)).
Proof.
  intros [|[k'|i] q] Hp; try reflexivity; [discriminate|].
  simpl. rewrite get_set.
  apply (outside_under_key [k]) in Hp. simpl in Hp.
  now destruct (String.eqb k k').
Qed.

Lemma same_outside_append (x : value) (l : list value) :
  same_outside [[Idx (List.length l)]] (VList l) (VList (l ++ [x])).
Proof.
  intros [|[k|i] q] Hp; try reflexivity; [discriminate|].
  simpl. unfold outside in Hp. simpl in Hp.
  destruct (Nat.eqb (List.length l) i) eqn:E.
  - destruct q; discriminate.
  - apply Nat.eqb_neq in E.
    destruct (Nat.lt_ge_cases i (List.length l)) as [Hlt|Hge].
    + now rewrite nth_error_app1.
    + assert (H1 : nth_error l i = None) by (apply nth_error_None; lia).
      assert (H2 : nth_error (l ++ [x]) i = None).
      { apply nth_error_None. rewrite length_app. simpl. lia. }
      now rewrite H1, H2.
Qed.


End FrameFacts.

(** ** What a successful operation says about its operands *)

Section Inversion.

Lemma bind_ok {A B} (r : result A) (k : A -> result B) (b : B) :
  bind r k = Ok b -> exists a, r = Ok a /\ k a = Ok b.
Proof. destruct r; simpl; [eauto|discriminate]. Qed.

Lemma getitem_ok (v x : value) (k : string) :
  Py.getitem v k = Ok x ->
  exists d, v = VDict d /\ Dict.get k d = Some x.
Proof.
  destruct v; simpl; try discriminate.
  destruct (Dict.get k d) eqn:G; [|discriminate].
  intros [= ->]. eauto.
Qed.

Lemma getitem_lookup (v x : value) (k : string) :
  Py.getitem v k = Ok x <-> lookup v [Key k] = Some x.
Proof.
  destruct v; simpl; split; try discriminate;
    destruct (Dict.get k d); congruence.
Qed.

Lemma pop_ok (v v' : value) (k : string) :
  Py.pop k v = Ok v' ->
  exists d, v = VDict d /\ v' = VDict (Dict.pop k d).
Proof. destruct v; simpl; try discriminate. intros [= <-]. eauto. Qed.

Lemma pops_ok (ks : list string) (v v' : value) :
  Py.pops ks v = Ok v' -> ks <> [] ->
  exists d, v = VDict d /\ v' = VDict (Dict.pops ks d).
Proof.
  revert v; induction ks as [|k ks IH]; intros v H Hne; [congruence|].
  simpl in H. apply bind_ok in H as (v1 & H1 & H2).
  apply pop_ok in H1 as (d & -> & ->). exists d; split; [reflexivity|].
  destruct ks as [|k1 ks].
  - simpl in H2. now injection H2 as <-.
  - apply IH in H2 as (d' & [= <-] & ->); [reflexivity|discriminate].
Qed.

Lemma pops_dict (ks : list string) (d : dict) :
  Py.pops ks (VDict d) = Ok (VDict (Dict.pops ks d)).
Proof.
  unfold Dict.pops. revert d; induction ks as [|k ks IH]; intros d; simpl;
    [reflexivity|apply IH].
Qed.

Lemma setitem_ok (v v' x : value) (k : string) :
  Py.setitem v k x = Ok v' ->
  exists d, v = VDict d /\ v' = VDict (Dict.set k x d).
Proof. destruct v; simpl; try discriminate. intros [= <-]. eauto. Qed.

Lemma append_ok (v v' x : value) :
  Py.append v x = Ok v' ->
  exists l, v = VList l /\ v' = VList (l ++ [x]).
Proof. destruct v; simpl; try discriminate. intros [= <-]. eauto. Qed.

End Inversion.

Section StoreFacts.

Lemma set_set (k : string) (x y : value) (d : dict) :
  Dict.set k y (Dict.set k x d) = Dict.set k y d.
Proof.
  induction d as [|[k0 v0] d IH]; simpl.
  - now rewrite String.eqb_refl.
  - destruct (String.eqb k0 k) eqn:E; simpl.
    + now rewrite String.eqb_refl.
    + now rewrite E, IH.
Qed.

Lemma list_set_set {A} (i : nat) (x y : A) (l : list A) :
  list_set i y (list_set i x l) = list_set i y l.
Proof.
  revert i; induction l as [|a l IH]; intros [|i]; simpl; auto.
  now rewrite IH.
Qed.

Lemma store_store (t : path) (v x y : value) :
  store (store v t x) t y = store v t y.
Proof.
  revert v; induction t as [|[k|i] t IH]; intros v; simpl.
  - reflexivity.
  - destruct v; try reflexivity.
    destruct (Dict.get k d) eqn:G; simpl; [|now rewrite G].
    now rewrite get_set, String.eqb_refl, IH, set_set.
  - destruct v; try reflexivity.
    destruct (nth_error l i) eqn:G; simpl; [|now rewrite G].
    now rewrite (nth_error_list_set_same _ _ _ _ G), IH, list_set_set.
Qed.

Lemma store_app (l t : path) (v c x : value) :
  lookup v l = Some c -> store v (l ++ t) x = store v l (store c t x).
Proof.
  revert v; induction l as [|[k|i] l IH]; intros v; simpl.
  - now intros [= ->].
  - destruct v; try discriminate.
    destruct (Dict.get k d); [|discriminate].
    intros H. now rewrite (IH _ H).
  - destruct v; try discriminate.
    destruct (nth_error l0 i); [|discriminate].
    intros H. now rewrite (IH _ H).
Qed.

(** Above the place of a store, the object is the old one with the store
    done inside. *)
Lemma lookup_store_above (l t : path) (v x : value) :
  lookup (store v (l ++ t) x) l =
  match lookup v l with
  | Some c => Some (store c t x)
  | None => None
  end.
Proof.
  destruct (lookup v l) as [c|] eqn:H.
  - rewrite (store_app _ _ _ _ _ H). apply (lookup_store_at _ _ _ _ H).
  - rewrite store_missing; [assumption|].
    rewrite lookup_app. now rewrite H.
Qed.

Lemma store_dict (t : path) (d : dict) (x : value) :
  t <> [] -> exists d', store (VDict d) t x = VDict d'.
Proof.
  destruct t as [|[k|i] t]; [congruence| |]; intros _; simpl; eauto.
  destruct (Dict.get k d); eauto.
Qed.

End StoreFacts.

Section PruneFacts.

Lemma prune_frame (s : site) (v : value) :
  same_outside [site_path s] v (prune s v).
Proof.
  destruct s as [t k]. unfold prune, site_path. simpl.
  destruct (lookup v t) as [[| | | | |d]|] eqn:H;
    try apply same_outside_refl.
  apply (same_outside_store t [[Key k]] v _ _ H); [discriminate|].
  apply same_outside_pop.
Qed.

Lemma prune_absent (s : site) (v : value) :
  lookup (prune s v) (site_path s) = None.
Proof.
  destruct s as [t k]. unfold prune, site_path. simpl.
  destruct (lookup v t) as [c|] eqn:H.
  - destruct c; try (rewrite lookup_app, H; reflexivity).
    rewrite (lookup_store_under _ _ _ _ _ H). simpl.
    now rewrite get_pop, String.eqb_refl.
  - now rewrite lookup_app, H.
Qed.

Lemma prune_id (s : site) (v : value) :
  lookup v (site_path s) = None -> prune s v = v.
Proof.
  destruct s as [t k]. unfold prune, site_path. simpl.
  rewrite lookup_app.
  destruct (lookup v t) as [[| | | | |d]|] eqn:H; try reflexivity.
  simpl. destruct (Dict.get k d) eqn:G; [discriminate|]. intros _.
  rewrite (pop_absent _ _ G). now apply store_same.
Qed.

Lemma prune_all_app (S1 S2 : list site) (v : value) :
  prune_all (S1 ++ S2) v = prune_all S2 (prune_all S1 v).
Proof. apply fold_left_app. Qed.

Lemma prune_all_cons (s : site) (S : list site) (v : value) :
  prune_all (s :: S) v = prune_all S (prune s v).
Proof. reflexivity. Qed.

Lemma prune_all_nil (v : value) : prune_all [] v = v.
Proof. reflexivity. Qed.

Lemma prune_all_frame (S : list site) (v : value) :
  same_outside (map site_path S) v (prune_all S v).
Proof.
  revert v; induction S as [|s S IH]; intros v.
  - apply same_outside_refl.
  - change (prune_all (s :: S) v) with (prune_all S (prune s v)).
    apply (same_outside_trans [site_path s] (map site_path S) v (prune s v)).
    + apply prune_frame.
    + apply IH.
Qed.

Lemma prune_all_absent (S : list site) (v : value) :
  spread (map site_path S) = true ->
  Forall (absent (prune_all S v)) (map site_path S).
Proof.
  revert v; induction S as [|s S IH]; intros v H; simpl.
  - constructor.
  - simpl in H. apply andb_true_iff in H as [H1 H2].
    change (prune_all (s :: S) v) with (prune_all S (prune s v)).
    constructor; [|now apply IH].
    unfold absent. rewrite (prune_all_frame S (prune s v) _ H1).
    apply prune_absent.
Qed.

Lemma prune_all_id (S : list site) (v : value) :
  Forall (absent v) (map site_path S) -> prune_all S v = v.
Proof.
  induction S as [|s S IH]; intros H; [reflexivity|].
  inversion H as [|? ? H1 H2]; subst.
  change (prune_all (s :: S) v) with (prune_all S (prune s v)).
  rewrite (prune_id _ _ H1). now apply IH.
Qed.

Lemma prune_all_idem (S : list site) (v : value) :
  spread (map site_path S) = true ->
  prune_all S (prune_all S v) = prune_all S v.
Proof. intros H. apply prune_all_id. now apply prune_all_absent. Qed.

(** Popping keys from the object at [t], then storing it, prunes them. *)
Lemma prune_all_under (t : path) (ks : list string) (v : value) (d : dict) :
  lookup v t = Some (VDict d) ->
  prune_all (under t ks) v = store v t (VDict (Dict.pops ks d)).
Proof.
  revert v d; induction ks as [|k ks IH]; intros v d H.
  - simpl. symmetry. now apply store_same.
  - change (prune_all (under t (k :: ks)) v)
      with (prune_all (under t ks) (prune (t, k) v)).
    unfold prune at 1. simpl fst. simpl snd. rewrite H.
    rewrite (IH _ (Dict.pop k d)).
    + now rewrite store_store.
    + apply (lookup_store_at _ _ _ _ H).
Qed.

Lemma prune_dict (s : site) (d : dict) :
  exists d', prune s (VDict d) = VDict d'.
Proof.
  destruct s as [t k]. unfold prune. simpl fst. simpl snd.
  destruct (lookup (VDict d) t) as [[| | | | |d0]|] eqn:H; eauto.
  destruct t as [|a t]; [simpl; eauto|].
  apply store_dict. discriminate.
Qed.

Lemma prune_all_dict (S : list site) (d : dict) :
  exists d', prune_all S (VDict d) = VDict d'.
Proof.
  revert d; induction S as [|s S IH]; intros d; [simpl; eauto|].
  change (prune_all (s :: S) (VDict d))
    with (prune_all S (prune s (VDict d))).
  destruct (prune_dict s d) as [d' ->]. apply IH.
Qed.

End PruneFacts.

Section KeepFacts.

Lemma prefixb_app (t q : path) : prefixb t (t ++ q) = true.
Proof.
  induction t as [|a t IH]; simpl; [reflexivity|].
  now rewrite step_eqb_refl.
Qed.

Lemma prefixb_app_inv (t p q : path) :
  prefixb (t ++ p) (t ++ q) = prefixb p q.
Proof.
  induction t as [|a t IH]; simpl; [reflexivity|].
  now rewrite step_eqb_refl.
Qed.

(** Pruning a key changes neither what exists nor what is a dict, the
    key's own subtree apart. *)
Lemma prune_keeps (s : site) (v : value) (p : path) :
  prefixb (site_path s) p = false ->
  has (prune s v) p = has v p /\ dict_at (prune s v) p = dict_at v p.
Proof.
  destruct s as [t k]. unfold prune, site_path, has, dict_at.
  simpl fst; simpl snd. intros Hp.
  destruct (lookup v t) as [c|] eqn:H; [|now split].
  destruct c as [| | | | |d]; try now split.
  destruct (path_cases t p) as [Ha|[[q ->]|(a & q & ->)]].
  - now rewrite (lookup_store_apart _ _ _ _ Ha).
  - rewrite (lookup_store_under _ _ _ _ _ H), lookup_app, H.
    rewrite prefixb_app_inv in Hp.
    destruct q as [|[k'|i] q]; simpl; [now split| |now split].
    simpl in Hp. rewrite andb_true_r in Hp.
    now rewrite get_pop, Hp.
  - rewrite lookup_store_above.
    rewrite lookup_app in H.
    destruct (lookup v p) as [c|]; [|discriminate].
    destruct a as [k'|i]; destruct c; simpl in H; try discriminate.
    + simpl. destruct (Dict.get k' d0); [now split|discriminate].
    + simpl. destruct (nth_error l i); [now split|discriminate].
Qed.

Lemma prune_all_keeps (S : list site) (v : value) (p : path) :
  clear_of S p = true ->
  has (prune_all S v) p = has v p
  /\ dict_at (prune_all S v) p = dict_at v p.
Proof.
  revert v; induction S as [|s S IH]; intros v H; [now split|].
  simpl in H. apply andb_true_iff in H as [H1 H2].
  apply negb_true_iff in H1.
  change (prune_all (s :: S) v) with (prune_all S (prune s v)).
  destruct (IH (prune s v) H2) as [-> ->].
  now apply prune_keeps.
Qed.

End KeepFacts.

(** ** Reading a document along a path *)

Section Reading.

Lemma dict_at_inv (m : value) (p : path) :
  dict_at m p = true -> exists d, lookup m p = Some (VDict d).
Proof.
  unfold dict_at. destruct (lookup m p) as [[]|]; try discriminate. eauto.
Qed.

Lemma dict_at_intro (m : value) (p : path) (d : dict) :
  lookup m p = Some (VDict d) -> dict_at m p = true.
Proof. unfold dict_at. now intros ->. Qed.

Lemma has_false (m : value) (p : path) :
  has m p = false -> lookup m p = None.
Proof. unfold has. now destruct (lookup m p). Qed.

Lemma getitem_at (v x : value) (k : string) :
  lookup v [Key k] = Some x -> Py.getitem v k = Ok x.
Proof. apply getitem_lookup. Qed.

Lemma getitem_via (v c x : value) (p : path) (k : string) :
  lookup v p = Some c -> lookup v (p ++ [Key k]) = Some x ->
  Py.getitem c k = Ok x.
Proof.
  intros H1 H2. rewrite lookup_app, H1 in H2. now apply getitem_at.
Qed.

Lemma contains_dict (k : string) (d : dict) :
  Py.contains k (VDict d) = Ok (has (VDict d) [Key k]).
Proof. unfold has. simpl. unfold Dict.mem. now destruct (Dict.get k d). Qed.

Lemma has_via (v c : value) (p q : path) :
  lookup v p = Some c -> has c q = has v (p ++ q).
Proof. intros H. unfold has. now rewrite lookup_app, H. Qed.

Lemma dict_at_via (v c : value) (p q : path) :
  lookup v p = Some c -> dict_at c q = dict_at v (p ++ q).
Proof. intros H. unfold dict_at. now rewrite lookup_app, H. Qed.

(** The in-place pop of a key of the dict at [t]. *)
Lemma pop_in_place (v : value) (t : path) (k : string) (d : dict) :
  lookup v t = Some (VDict d) ->
  store v t (VDict (Dict.pop k d)) = prune (t, k) v.
Proof. intros H. unfold prune. simpl. now rewrite H. Qed.

Lemma prune_missing (v : value) (t : path) (k : string) :
  lookup v t = None -> prune (t, k) v = v.
Proof. intros H. unfold prune. simpl. now rewrite H. Qed.

Lemma pop_top (k : string) (d : dict) :
  Py.pop k (VDict d) = Ok (prune ([], k) (VDict d)).
Proof. reflexivity. Qed.

End Reading.

Section Keeping.

Lemma keep_dict_prune (s : site) (v : value) (p : path) (d : dict) :
  prefixb (site_path s) p = false ->
  lookup v p = Some (VDict d) ->
  exists d', lookup (prune s v) p = Some (VDict d').
Proof.
  intros Hp H. apply dict_at_inv.
  rewrite (proj2 (prune_keeps s v p Hp)). now apply (dict_at_intro _ _ d).
Qed.

Lemma keep_dict_prune_all (S : list site) (v : value) (p : path) (d : dict) :
  clear_of S p = true ->
  lookup v p = Some (VDict d) ->
  exists d', lookup (prune_all S v) p = Some (VDict d').
Proof.
  intros Hp H. apply dict_at_inv.
  rewrite (proj2 (prune_all_keeps S v p Hp)). now apply (dict_at_intro _ _ d).
Qed.

Lemma keep_same_prune_all (S : list site) (v : value) (p : path) :
  outside (map site_path S) p = true ->
  lookup (prune_all S v) p = lookup v p.
Proof. apply prune_all_frame. Qed.

Lemma keep_same_prune (s : site) (v : value) (p : path) :
  apartb (site_path s) p = true ->
  lookup (prune s v) p = lookup v p.
Proof.
  intros H. apply prune_frame. unfold outside. simpl. now rewrite H.
Qed.

End Keeping.

(** ** [RerunJob.clean_up] prunes [job_removals] *)

Section JobCleanUp.

Lemma job_top_pops (v : value) :
  dict_at v [] = true ->
  (manifest <- Py.pop "status" v ;;
   manifest <- Py.pop "matchLabels" manifest ;;
   Py.pop "selector" manifest)
  = Ok (prune_all job_top_level_removals v).
Proof.
  intros H. apply dict_at_inv in H as [d H]. simpl in H.
  injection H as ->. reflexivity.
Qed.

Lemma prune_all_dict_at (S : list site) (v : value) :
  dict_at v [] = true -> dict_at (prune_all S v) [] = true.
Proof.
  intros H. apply dict_at_inv in H as [d H]. simpl in H. injection H as ->.
  destruct (prune_all_dict S d) as [d' ->]. reflexivity.
Qed.

(** On a manifest it accepts, [clean_up] pops the keys of
    [job_removals_of], and nothing else happens. *)
Lemma clean_up_prunes (m : value) :
  job_ok m = true ->
  RerunJob.clean_up m = Ok (prune_all (job_removals_of m) m).
Proof.
  intros H. unfold job_ok in H.
  apply andb_true_iff in H as [Hd H].
  apply dict_at_inv in Hd as [d Hd]. simpl in Hd. injection Hd as ->.
  unfold RerunJob.clean_up, job_removals_of. rewrite contains_dict.
  destruct (has (VDict d) [Key "metadata"]) eqn:Hm; simpl in H.
  2:{ cbn [bind]. now apply job_top_pops. }
  repeat (apply andb_true_iff in H as [H ?]).
  repeat match goal with
         | X : dict_at _ _ = true |- _ => apply dict_at_inv in X as [? X]
         end.
  assert (Hd0 : dict_at (VDict d) [] = true) by reflexivity.
  unfold job_removals. rewrite !prune_all_app.
  match goal with
  | |- context [prune_all [?s1; ?s2; ?s3] ?v] =>
      change (prune_all [s1; s2; s3] v)
        with (prune s3 (prune s2 (prune s1 v)))
  end.
  cbn [bind].
  rewrite (getitem_at _ _ _ H). cbn [bind].
  rewrite pops_dict. cbn [bind].
  rewrite <- (prune_all_under _ _ _ _ H).
  change ["creationTimestamp"; "resourceVersion"; "uid"; "generation";
          "labels"] with job_metadata_fields.
  match goal with
  | |- context [prune_all (under ?t ?ks) ?v] =>
      pose proof (keep_same_prune_all (under t ks) v
                    [Key "spec"] eq_refl) as Hsp1;
      pose proof (keep_same_prune_all (under t ks) v
                    [Key "spec"; Key "template"] eq_refl) as Htp1;
      pose proof (keep_same_prune_all (under t ks) v
                    [Key "spec"; Key "template"; Key "metadata"] eq_refl)
        as Htmd1;
      destruct (keep_dict_prune_all (under t ks) v [Key "metadata"] _
                  eq_refl H) as [md1 Hmd1];
      pose proof (prune_all_keeps (under t ks) v
                    [Key "metadata"; Key "annotations"] eq_refl)
        as [Han1 Han1'];
      pose proof (prune_all_dict_at (under t ks) v Hd0) as Hd1;
      set (m1 := prune_all (under t ks) v) in *
  end.
  match goal with
  | X : lookup _ [Key "spec"] = Some _ |- _ => rewrite X in Hsp1
  end.
  match goal with
  | X : lookup _ [Key "spec"; Key "template"] = Some _ |- _ =>
      rewrite X in Htp1
  end.
  match goal with
  | X : lookup _ [Key "spec"; Key "template"; Key "metadata"] = Some _ |- _ =>
      rewrite X in Htmd1
  end.
  rewrite (getitem_at _ _ _ Hsp1). cbn [bind].
  rewrite (getitem_via m1 _ _ [Key "spec"] "template" Hsp1 Htp1).
  cbn [bind].
  rewrite (getitem_via m1 _ _ [Key "spec"; Key "template"] "metadata"
             Htp1 Htmd1).
  cbn [bind Py.pop]. rewrite (pop_in_place _ _ _ _ Htmd1).
  match goal with
  | |- context [prune ?s m1] =>
      destruct (keep_dict_prune s m1 [Key "spec"] _ eq_refl Hsp1)
        as [sp2 Hsp2];
      destruct (keep_dict_prune s m1 [Key "metadata"] _ eq_refl Hmd1)
        as [md2 Hmd2];
      pose proof (prune_keeps s m1 [Key "metadata"; Key "annotations"]
                    eq_refl) as [Han2 Han2'];
      set (m2 := prune s m1) in *
  end.
  rewrite (getitem_at _ _ _ Hsp2). cbn [bind Py.pop].
  rewrite (pop_in_place _ _ _ _ Hsp2).
  match goal with
  | |- context [prune ?s m2] =>
      destruct (keep_dict_prune s m2 [Key "metadata"] _ eq_refl Hmd2)
        as [md3 Hmd3];
      pose proof (prune_keeps s m2 [Key "metadata"; Key "annotations"]
                    eq_refl) as [Han3 Han3'];
      set (m3 := prune s m2) in *
  end.
  rewrite (getitem_at _ _ _ Hmd3). cbn [bind]. rewrite contains_dict.
  cbn [bind].
  rewrite (has_via m3 _ [Key "metadata"] _ Hmd3). cbn [app].
  rewrite Han3, Han2, Han1.
  match goal with
  | X : dict_if_any _ _ = true |- _ => unfold dict_if_any in X; rename X into Hany
  end.
  match goal with
  | |- ?L = _ =>
      change (L = Ok (prune_all job_top_level_removals
                        (prune ([Key "metadata"; Key "annotations"],
                                last_applied) m3)))
  end.
  assert (Hd3 : dict_at m3 [] = true).
  { subst m3 m2.
    apply (prune_all_dict_at
             [([Key "spec"; Key "template"; Key "metadata"], "labels");
              ([Key "spec"], "selector")] m1 Hd1). }
  destruct (has (VDict d) [Key "metadata"; Key "annotations"]) eqn:Ha;
    simpl in Hany.
  - assert (Hda : dict_at m3 [Key "metadata"; Key "annotations"] = true)
      by congruence.
    apply dict_at_inv in Hda as [ad Had].
    rewrite (getitem_via m3 _ _ [Key "metadata"] "annotations" Hmd3 Had).
    cbn [bind Py.pop]. rewrite (pop_in_place _ _ _ _ Had).
    apply job_top_pops.
    apply (prune_all_dict_at
             [([Key "metadata"; Key "annotations"], last_applied)] m3 Hd3).
  - cbn [bind].
    assert (Hna : lookup m3 [Key "metadata"; Key "annotations"] = None).
    { apply has_false. congruence. }
    assert (E : prune ([Key "metadata"; Key "annotations"], last_applied) m3
                = m3) by (now apply prune_missing).
    rewrite E. now apply job_top_pops.
Qed.

(** [clean_up] returns only on the manifests of [job_ok]. *)
Lemma clean_up_accepts (m m' : value) :
  RerunJob.clean_up m = Ok m' -> job_ok m = true.
Proof.
  intros H. unfold RerunJob.clean_up in H.
  apply bind_ok in H as (b & Hc & H).
  apply bind_ok in H as (m1 & H1 & H).
  destruct m as [| | |s|l|d]; try discriminate.
  1,2: destruct b; [discriminate|]; injection H1 as <-; discriminate.
  rewrite contains_dict in Hc. injection Hc as <-.
  unfold job_ok. rewrite (dict_at_intro _ [] d eq_refl). cbn [andb].
  destruct (has (VDict d) [Key "metadata"]) eqn:Hm; [|reflexivity].
  cbn [negb orb].
  apply bind_ok in H1 as (md & Emd & H1). apply getitem_lookup in Emd.
  apply bind_ok in H1 as (md' & Epop & H1).
  apply pops_ok in Epop as (mdd & -> & ->); [|discriminate].
  apply bind_ok in H1 as (sp & Esp & H1). apply getitem_lookup in Esp.
  rewrite lookup_store_apart in Esp by reflexivity.
  apply bind_ok in H1 as (tp & Etp & H1).
  pose proof Etp as Etp'. apply getitem_ok in Etp' as (spd & -> & _).
  apply bind_ok in H1 as (tmd & Etmd & H1).
  pose proof Etmd as Etmd'. apply getitem_ok in Etmd' as (tpd & -> & _).
  apply bind_ok in H1 as (tmd' & Epl & H1).
  apply pop_ok in Epl as (tmdd & -> & ->).
  apply bind_ok in H1 as (sp3 & Esp3 & H1).
  apply bind_ok in H1 as (sp4 & Esp4 & H1).
  apply bind_ok in H1 as (md5 & Emd5 & H1).
  apply getitem_lookup in Emd5.
  rewrite !lookup_store_apart in Emd5 by reflexivity.
  rewrite (lookup_store_at _ _ _ _ Emd) in Emd5. injection Emd5 as <-.
  apply bind_ok in H1 as (ha & Eha & H1).
  rewrite contains_dict in Eha. injection Eha as <-.
  assert (A1 := dict_at_intro _ _ _ Emd).
  assert (A2 := dict_at_intro _ _ _ Esp).
  assert (A3 : lookup (VDict d) [Key "spec"; Key "template"]
               = Some (VDict tpd)).
  { change [Key "spec"; Key "template"]
      with ([Key "spec"] ++ [Key "template"]).
    rewrite lookup_app, Esp. now apply getitem_lookup. }
  assert (A4 : lookup (VDict d) [Key "spec"; Key "template"; Key "metadata"]
               = Some (VDict tmdd)).
  { change [Key "spec"; Key "template"; Key "metadata"]
      with ([Key "spec"; Key "template"] ++ [Key "metadata"]).
    rewrite lookup_app, A3. now apply getitem_lookup. }
  rewrite A1, A2, (dict_at_intro _ _ _ A3), (dict_at_intro _ _ _ A4).
  cbn [andb]. unfold dict_if_any.
  assert (G : Dict.get "metadata" d = Some (VDict mdd)).
  { apply getitem_lookup in Emd.
    now apply getitem_ok in Emd as (? & [= <-] & ?). }
  assert (Hh : forall dd, has (VDict dd) [Key "annotations"]
                          = Dict.mem "annotations" dd).
  { intros dd. unfold has, Dict.mem. simpl. now destruct (Dict.get _ dd). }
  rewrite Hh in H1. unfold Dict.mem in H1. rewrite ?get_pop in H1.
  cbn [String.eqb Ascii.eqb Bool.eqb] in H1.
  unfold has, dict_at. cbn [lookup]. rewrite G.
  destruct (Dict.get "annotations" mdd) as [ann|] eqn:Ga; [|reflexivity].
  apply bind_ok in H1 as (ann0 & Eann & H1).
  cbn [Py.getitem] in Eann. rewrite ?get_pop in Eann.
  cbn [String.eqb Ascii.eqb Bool.eqb] in Eann. rewrite Ga in Eann.
  injection Eann as <-.
  apply bind_ok in H1 as (ann1 & Eann1 & H1).
  apply pop_ok in Eann1 as (ad & -> & _). reflexivity.
Qed.

Lemma clean_up_spec (m m' : value) :
  RerunJob.clean_up m = Ok m' <->
  job_ok m = true /\ m' = prune_all (job_removals_of m) m.
Proof.
  split.
  - intros H. pose proof (clean_up_accepts _ _ H) as Hok.
    rewrite (clean_up_prunes _ Hok) in H. injection H as <-. now split.
  - intros [Hok ->]. now apply clean_up_prunes.
Qed.

End JobCleanUp.

(** ** Pruning inside an object of a tree *)

Section Lifting.

Lemma lift_prune (l : path) (s : site) (m c : value) :
  lookup m l = Some c ->
  store m l (prune s c) = prune (shift l s) m.
Proof.
  destruct s as [t k]. intros H. unfold prune, shift. simpl fst; simpl snd.
  rewrite lookup_app, H.
  destruct (lookup c t) as [[| | | | |d]|]; try now apply store_same.
  symmetry. now apply store_app.
Qed.

Lemma lift_prune_all (l : path) (S : list site) (m c : value) :
  lookup m l = Some c ->
  store m l (prune_all S c) = prune_all (map (shift l) S) m.
Proof.
  revert m c; induction S as [|s S IH]; intros m c H.
  - simpl. now apply store_same.
  - change (prune_all (s :: S) c) with (prune_all S (prune s c)).
    change (prune_all (map (shift l) (s :: S)) m)
      with (prune_all (map (shift l) S) (prune (shift l s) m)).
    rewrite <- (lift_prune l s m c H).
    rewrite <- (IH (store m l (prune s c)) (prune s c)).
    + now rewrite store_store.
    + apply (lookup_store_at _ _ _ _ H).
Qed.

Lemma site_path_shift (l : path) (s : site) :
  site_path (shift l s) = l ++ site_path s.
Proof. destruct s as [t k]. unfold site_path, shift. simpl. now rewrite app_assoc. Qed.

Lemma lift_drop_empty (l : path) (s : site) (m c : value) :
  lookup m l = Some c ->
  store m l (drop_empty s c) = drop_empty (shift l s) m.
Proof.
  intros H. unfold drop_empty.
  rewrite site_path_shift, lookup_app, H.
  destruct (lookup c (site_path s)) as [[| | | | |[|kv d]]|];
    try now apply store_same.
  now apply lift_prune.
Qed.

End Lifting.

Section NoNew.

(** Pruning creates nothing. *)
Lemma prune_no_new (s : site) (v : value) (p : path) :
  lookup v p = None -> lookup (prune s v) p = None.
Proof.
  intros H. destruct (prefixb (site_path s) p) eqn:E.
  - assert (Hq : exists q, p = site_path s ++ q).
    { clear H. revert p E. generalize (site_path s) as t.
      induction t as [|a t IH]; intros p E; [now exists p|].
      destruct p as [|b p]; [discriminate|]. simpl in E.
      apply andb_true_iff in E as [E1 E2].
      apply step_eqb_eq in E1; subst b.
      destruct (IH _ E2) as [q ->]. now exists q. }
    destruct Hq as [q ->]. now rewrite lookup_app, prune_absent.
  - pose proof (proj1 (prune_keeps s v p E)) as K. unfold has in K.
    rewrite H in K. now destruct (lookup (prune s v) p).
Qed.

Lemma prune_all_no_new (S : list site) (v : value) (p : path) :
  lookup v p = None -> lookup (prune_all S v) p = None.
Proof.
  revert v; induction S as [|s S IH]; intros v H; [assumption|].
  change (prune_all (s :: S) v) with (prune_all S (prune s v)).
  apply IH. now apply prune_no_new.
Qed.

Lemma drop_empty_no_new (s : site) (v : value) (p : path) :
  lookup v p = None -> lookup (drop_empty s v) p = None.
Proof.
  intros H. unfold drop_empty.
  destruct (lookup v (site_path s)) as [[| | | | |[|kv d]]|]; try assumption.
  now apply prune_no_new.
Qed.

(** Each key of [S] is gone after [prune_all S]. *)
Lemma prune_all_gone (S : list site) (v : value) :
  Forall (absent (prune_all S v)) (map site_path S).
Proof.
  revert v; induction S as [|s S IH]; intros v; simpl; constructor.
  - change (prune_all (s :: S) v) with (prune_all S (prune s v)).
    apply prune_all_no_new, prune_absent.
  - apply IH.
Qed.

End NoNew.

Section DropEmpty.

Lemma prefixb_split (t p : path) :
  prefixb t p = true -> exists q, p = t ++ q.
Proof.
  revert p; induction t as [|a t IH]; intros p E; [now exists p|].
  destruct p as [|b p]; [discriminate|]. simpl in E.
  apply andb_true_iff in E as [E1 E2].
  apply step_eqb_eq in E1; subst b.
  destruct (IH _ E2) as [q ->]. now exists q.
Qed.

Lemma apartb_prefix (t p : path) :
  apartb t p = true -> prefixb t p = false.
Proof.
  revert p; induction t as [|a t IH]; intros [|b p]; simpl;
    try discriminate; try reflexivity.
  destruct (step_eqb a b); simpl; auto.
Qed.

Lemma apartb_longer (t q p : path) :
  apartb (t ++ q) p = true -> prefixb t p = false -> apartb t p = true.
Proof.
  revert p; induction t as [|a t IH]; intros [|b p]; simpl;
    try discriminate.
  destruct (step_eqb a b); simpl; auto.
Qed.

Lemma lookup_empty_dict (q : path) :
  q <> [] -> lookup (VDict []) q = None.
Proof. destruct q as [|[k|i] q]; [congruence| |]; reflexivity. Qed.

(** Dropping an empty dict shows only at the key itself. *)
Lemma drop_empty_frame (s : site) (q : path) (v : value) :
  q <> [] -> same_outside [site_path s ++ q] v (drop_empty s v).
Proof.
  intros Hq p Hp. unfold outside in Hp. simpl in Hp.
  rewrite andb_true_r in Hp. unfold drop_empty.
  destruct (lookup v (site_path s)) as [[| | | | |[|kv d]]|] eqn:H;
    try reflexivity.
  destruct (prefixb (site_path s) p) eqn:E.
  - apply prefixb_split in E as [r ->].
    rewrite !lookup_app, prune_absent, H.
    destruct r as [|a r].
    + rewrite app_nil_r, apartb_sym, apartb_prefix_l in Hp. discriminate.
    + now rewrite lookup_empty_dict.
  - apply keep_same_prune. eapply apartb_longer; eauto.
Qed.

Lemma drop_empty_keeps (s : site) (v : value) (p : path) :
  prefixb (site_path s) p = false ->
  has (drop_empty s v) p = has v p
  /\ dict_at (drop_empty s v) p = dict_at v p.
Proof.
  intros E. unfold drop_empty.
  destruct (lookup v (site_path s)) as [[| | | | |[|kv d]]|];
    try (now split).
  now apply prune_keeps.
Qed.

Lemma drop_empty_nonempty (s : site) (v : value) :
  lookup (drop_empty s v) (site_path s) <> Some (VDict []).
Proof.
  unfold drop_empty.
  destruct (lookup v (site_path s)) as [[| | | | |[|kv d]]|] eqn:H;
    try (rewrite H; discriminate).
  rewrite prune_absent. discriminate.
Qed.

Lemma drop_empty_id (s : site) (v : value) :
  lookup v (site_path s) <> Some (VDict []) -> drop_empty s v = v.
Proof.
  unfold drop_empty.
  destruct (lookup v (site_path s)) as [[| | | | |[|kv d]]|];
    congruence.
Qed.

Lemma drop_empty_dict_if_any (s : site) (v : value) :
  dict_if_any v (site_path s) = true ->
  dict_if_any (drop_empty s v) (site_path s) = true.
Proof.
  unfold drop_empty.
  destruct (lookup v (site_path s)) as [[| | | | |[|kv d]]|] eqn:H;
    try (intros; assumption).
  intros _. unfold dict_if_any, has. now rewrite prune_absent.
Qed.

End DropEmpty.

(** ** [StsResizer.clean_metadata] tidies a metadata object *)

Section CleanMetadata.

Lemma clean_metadata_tidy (md : value) :
  dict_at md [] = true -> dict_if_any md [Key "annotations"] = true ->
  StsResizer.clean_metadata md = Ok (tidy [] md).
Proof.
  intros Hd Ha. apply dict_at_inv in Hd as [d Hd]. simpl in Hd.
  injection Hd as ->.
  unfold StsResizer.clean_metadata, tidy, sts_metadata_removals.
  rewrite prune_all_app.
  rewrite pops_dict. cbn [bind].
  rewrite (prune_all_under [] _ (VDict d) d eq_refl). cbn [store].
  rewrite contains_dict.
  set (d1 := Dict.pops StsResizer.metadata_fields d).
  assert (G1 : Dict.get "annotations" d1 = Dict.get "annotations" d).
  { unfold d1. now rewrite get_pops. }
  unfold dict_if_any, has, dict_at in *. cbn [lookup app] in *. rewrite G1.
  destruct (Dict.get "annotations" d) as [ann|] eqn:G; cbn [bind].
  - simpl in Ha. destruct ann as [| | | | |ad]; try discriminate.
    cbn [Py.getitem]. rewrite G1. cbn [bind]. rewrite pops_dict. cbn [bind].
    assert (L1 : lookup (VDict d1) [Key "annotations"] = Some (VDict ad)).
    { simpl. now rewrite G1. }
    rewrite (prune_all_under [Key "annotations"] _ (VDict d1) ad L1).
    cbn [store]. rewrite G1.
    set (X := Dict.pops StsResizer.annotation_keys ad).
    unfold drop_empty, site_path. cbn [fst snd app lookup].
    rewrite get_set, String.eqb_refl. cbn [lookup].
    destruct X as [|kv X]; cbn [Py.truthy negb].
    + unfold Py.pop_strict, Dict.mem. rewrite get_set, String.eqb_refl.
      reflexivity.
    + reflexivity.
  - cbn [Py.getitem].
    rewrite prune_all_id.
    + unfold drop_empty, site_path. cbn [fst snd app lookup]. now rewrite G1.
    + apply Forall_forall. intros p Hp.
      apply in_map_iff in Hp as (s & <- & Hs).
      apply in_map_iff in Hs as (k & <- & _). unfold absent, site_path.
      cbn [fst snd app lookup]. now rewrite G1.
Qed.

Lemma clean_metadata_accepts (md md' : value) :
  StsResizer.clean_metadata md = Ok md' ->
  dict_at md [] = true /\ dict_if_any md [Key "annotations"] = true.
Proof.
  intros H. unfold StsResizer.clean_metadata in H.
  apply bind_ok in H as (md1 & E1 & H).
  apply pops_ok in E1 as (d & -> & ->); [|discriminate].
  split; [reflexivity|].
  apply bind_ok in H as (b & Eb & H). rewrite contains_dict in Eb.
  injection Eb as <-.
  unfold dict_if_any, has, dict_at in *. cbn [lookup] in *.
  rewrite ?get_pops, ?get_pop in H.
  cbn [existsb StsResizer.metadata_fields String.eqb Ascii.eqb Bool.eqb orb]
    in H.
  destruct (Dict.get "annotations" d) as [ann|] eqn:G; [|reflexivity].
  apply bind_ok in H as (a0 & Ea & H).
  cbn [Py.getitem] in Ea. rewrite ?get_pops, ?get_pop in Ea.
  cbn [existsb StsResizer.metadata_fields String.eqb Ascii.eqb Bool.eqb orb]
    in Ea.
  rewrite G in Ea. injection Ea as <-.
  apply bind_ok in H as (a1 & Ea1 & H).
  apply pops_ok in Ea1 as (ad & -> & _); [|discriminate]. reflexivity.
Qed.

Lemma shift_under (l t : path) (ks : list string) :
  map (shift l) (under t ks) = under (l ++ t) ks.
Proof. unfold under, shift. now rewrite map_map. Qed.

Lemma shift_metadata_removals (l : path) :
  map (shift l) (sts_metadata_removals []) = sts_metadata_removals l.
Proof.
  unfold sts_metadata_removals.
  now rewrite map_app, !shift_under, app_nil_r.
Qed.

(** Tidying the metadata object in place tidies the manifest there. *)
Lemma lift_tidy (l : path) (m c : value) :
  lookup m l = Some c -> store m l (tidy [] c) = tidy l m.
Proof.
  intros H. unfold tidy.
  rewrite <- (shift_metadata_removals l).
  rewrite <- (lift_prune_all l _ m c H).
  set (X := prune_all (sts_metadata_removals []) c).
  rewrite <- (store_store l m X).
  rewrite (lift_drop_empty l _ (store m l X) X).
  - unfold shift. simpl. now rewrite app_nil_r.
  - apply (lookup_store_at _ _ _ _ H).
Qed.

Lemma prune_all_missing (S : list site) (v : value) :
  (forall s, In s S -> lookup v (fst s) = None) -> prune_all S v = v.
Proof.
  intros H. apply prune_all_id. apply Forall_forall. intros p Hp.
  apply in_map_iff in Hp as (s & <- & Hs). unfold absent, site_path.
  now rewrite lookup_app, (H s Hs).
Qed.

Lemma tidy_missing (l : path) (m : value) :
  lookup m l = None -> tidy l m = m.
Proof.
  intros H. unfold tidy. rewrite prune_all_missing.
  - unfold drop_empty, site_path. simpl. now rewrite lookup_app, H.
  - intros s Hs. unfold sts_metadata_removals in Hs.
    apply in_app_or in Hs as [Hs|Hs];
      apply in_map_iff in Hs as (k & <- & _); simpl; [assumption|].
    now rewrite lookup_app, H.
Qed.

Lemma tidy_keeps (l : path) (v : value) (p : path) :
  clear_of (sts_metadata_removals l) p = true ->
  prefixb (l ++ [Key "annotations"]) p = false ->
  has (tidy l v) p = has v p /\ dict_at (tidy l v) p = dict_at v p.
Proof.
  intros H1 H2. unfold tidy.
  destruct (drop_empty_keeps (l, "annotations")
              (prune_all (sts_metadata_removals l) v) p H2) as [-> ->].
  now apply prune_all_keeps.
Qed.

Lemma get_dict (d : dict) (k : string) (default : value) :
  Py.get (VDict d) k default =
  Ok match Dict.get k d with Some x => x | None => default end.
Proof. simpl. now destruct (Dict.get k d). Qed.

End CleanMetadata.

(** ** [StsResizer.clean_manifest] computes [sts_cleaned] *)

Section CleanManifest.

Lemma step_metadata (m c : value) (l : path) :
  lookup m l = Some c -> dict_at m l = true ->
  dict_if_any m (l ++ [Key "annotations"]) = true ->
  (x <- StsResizer.clean_metadata c ;; Ok (store m l x)) = Ok (tidy l m).
Proof.
  intros H Hd Ha.
  rewrite clean_metadata_tidy.
  - cbn [bind]. now rewrite (lift_tidy _ _ _ H).
  - now rewrite (dict_at_via _ _ l [] H), app_nil_r.
  - unfold dict_if_any.
    rewrite (has_via _ _ l _ H), (dict_at_via _ _ l _ H). exact Ha.
Qed.

Lemma contains_at (m : value) (k : string) :
  dict_at m [] = true -> Py.contains k m = Ok (has m [Key k]).
Proof.
  intros H. apply dict_at_inv in H as [d H]. simpl in H. injection H as ->.
  apply contains_dict.
Qed.

Lemma contains_via (m c : value) (p : path) (k : string) :
  lookup m p = Some c -> dict_at m p = true ->
  Py.contains k c = Ok (has m (p ++ [Key k])).
Proof.
  intros H Hd. rewrite <- (has_via _ _ _ _ H). apply contains_at.
  now rewrite (dict_at_via _ _ p [] H), app_nil_r.
Qed.

Lemma metadata_step (m : value) :
  dict_at m [] = true -> metadata_ok m [Key "metadata"] = true ->
  (if has m [Key "metadata"]
   then metadata <- Py.getitem m "metadata" ;;
        metadata <- StsResizer.clean_metadata metadata ;;
        Ok (store m [Key "metadata"] metadata)
   else Ok m) = Ok (tidy [Key "metadata"] m).
Proof.
  intros Hd Hm. unfold metadata_ok in Hm.
  destruct (has m [Key "metadata"]) eqn:Hh; simpl in Hm.
  - apply andb_true_iff in Hm as [Hm1 Hm2].
    pose proof Hm1 as Hm1'. apply dict_at_inv in Hm1' as [md Hmd].
    rewrite (getitem_at _ _ _ Hmd). cbn [bind].
    now apply step_metadata.
  - now rewrite tidy_missing by now apply has_false.
Qed.

Lemma template_step (m1 : value) (K : value -> result value) :
  dict_at m1 [] = true -> template_ok m1 = true ->
  (has_spec <- Py.contains "spec" m1 ;;
   has_template <-
     (if has_spec : bool
      then spec <- Py.getitem m1 "spec" ;; Py.contains "template" spec
      else Ok false) ;;
   cleaned_manifest <-
     (if has_template : bool
      then
        spec <- Py.getitem m1 "spec" ;;
        template <- Py.getitem spec "template" ;;
        template_metadata <- Py.get template "metadata" (VDict []) ;;
        template_metadata <- StsResizer.clean_metadata template_metadata ;;
        Ok (store m1 [Key "spec"; Key "template"; Key "metadata"]
                  template_metadata)
      else Ok m1) ;;
   K cleaned_manifest)
  = K (tidy [Key "spec"; Key "template"; Key "metadata"] m1).
Proof.
  intros Hd Hs. unfold template_ok in Hs.
  rewrite (contains_at _ _ Hd). cbn [bind].
  destruct (has m1 [Key "spec"]) eqn:Hsp; simpl in Hs.
  2:{ cbn [bind]. rewrite tidy_missing; [reflexivity|].
      change [Key "spec"; Key "template"; Key "metadata"]
        with ([Key "spec"] ++ [Key "template"; Key "metadata"]).
      now rewrite lookup_app, (has_false _ _ Hsp). }
  apply andb_true_iff in Hs as [Hds Hs].
  pose proof Hds as Hds'. apply dict_at_inv in Hds' as [sp Hsp'].
  rewrite (getitem_at _ _ _ Hsp'). cbn [bind].
  rewrite (contains_via m1 _ [Key "spec"] "template" Hsp' Hds).
  cbn [bind app].
  destruct (has m1 [Key "spec"; Key "template"]) eqn:Htp; simpl in Hs.
  2:{ cbn [bind]. rewrite tidy_missing; [reflexivity|].
      change [Key "spec"; Key "template"; Key "metadata"]
        with ([Key "spec"; Key "template"] ++ [Key "metadata"]).
      now rewrite lookup_app, (has_false _ _ Htp). }
  apply andb_true_iff in Hs as [Hdt Hs].
  pose proof Hdt as Hdt'. apply dict_at_inv in Hdt' as [tp Htp'].
  rewrite (getitem_via m1 _ _ [Key "spec"] "template" Hsp' Htp').
  cbn [bind].
  rewrite get_dict. cbn [bind]. unfold metadata_ok in Hs.
  assert (L : lookup m1 [Key "spec"; Key "template"; Key "metadata"]
              = Dict.get "metadata" tp).
  { change [Key "spec"; Key "template"; Key "metadata"]
      with ([Key "spec"; Key "template"] ++ [Key "metadata"]).
    rewrite lookup_app, Htp'. simpl. now destruct (Dict.get "metadata" tp). }
  destruct (Dict.get "metadata" tp) as [tmd|] eqn:G.
  - assert (Hh : has m1 [Key "spec"; Key "template"; Key "metadata"] = true)
      by (unfold has; now rewrite L).
    rewrite Hh in Hs. simpl in Hs. apply andb_true_iff in Hs as [Hs1 Hs2].
    change (fun x => ?f x) with f.
    rewrite (step_metadata m1 tmd _ L Hs1 Hs2). reflexivity.
  - rewrite (clean_metadata_tidy (VDict []) eq_refl eq_refl). cbn [bind].
    rewrite (store_missing _ _ _ L), (tidy_missing _ _ L). reflexivity.
Qed.

Lemma prune_all_under_missing (t : path) (ks : list string) (v : value) :
  lookup v t = None -> prune_all (under t ks) v = v.
Proof.
  intros H. apply prune_all_missing. intros s Hs.
  apply in_map_iff in Hs as (k & <- & _). exact H.
Qed.

Lemma spec_step (m2 : value) :
  dict_at m2 [] = true -> dict_if_any m2 [Key "spec"] = true ->
  (has_spec <- Py.contains "spec" m2 ;;
   cleaned_manifest <-
     (if has_spec : bool
      then spec <- Py.getitem m2 "spec" ;;
           spec <- Py.pops StsResizer.status_fields spec ;;
           Ok (store m2 [Key "spec"] spec)
      else Ok m2) ;;
   Py.pop "status" cleaned_manifest)
  = Ok (prune ([], "status")
          (prune_all (under [Key "spec"] StsResizer.status_fields) m2)).
Proof.
  intros Hd Hs. rewrite (contains_at _ _ Hd). cbn [bind].
  unfold dict_if_any in Hs.
  set (X := prune_all (under [Key "spec"] StsResizer.status_fields) m2).
  assert (Hd3 : dict_at X [] = true) by now apply prune_all_dict_at.
  apply dict_at_inv in Hd3 as [d3 Hd3].
  change (lookup X []) with (Some X) in Hd3. injection Hd3 as Hd3.
  destruct (has m2 [Key "spec"]) eqn:Hsp; simpl in Hs.
  - apply dict_at_inv in Hs as [sp Hsp'].
    rewrite (getitem_at _ _ _ Hsp'). cbn [bind].
    rewrite pops_dict. cbn [bind].
    rewrite <- (prune_all_under _ _ _ _ Hsp'). fold X.
    rewrite Hd3. reflexivity.
  - cbn [bind].
    assert (E : X = m2).
    { apply prune_all_under_missing. now apply has_false. }
    rewrite <- E, Hd3. reflexivity.
Qed.

(** On a manifest it accepts, [clean_manifest] returns [sts_cleaned]. *)
Lemma clean_manifest_cleans (m : value) :
  sts_ok m = true -> StsResizer.clean_manifest m = Ok (sts_cleaned m).
Proof.
  intros H. unfold sts_ok in H.
  apply andb_true_iff in H as [H Hs]. apply andb_true_iff in H as [Hd Hm].
  unfold StsResizer.clean_manifest, StsResizer.deep_copy, sts_cleaned.
  rewrite (contains_at _ _ Hd). cbn [bind].
  rewrite (metadata_step m Hd Hm). cbn [bind].
  pose proof (fun p => tidy_keeps [Key "metadata"] m p) as K.
  revert K. generalize (tidy [Key "metadata"] m). intros m1 K.
  assert (Hd1 : dict_at m1 [] = true).
  { now rewrite (proj2 (K [] eq_refl eq_refl)). }
  assert (Hs1 : template_ok m1 = true).
  { unfold template_ok, metadata_ok, dict_if_any in *.
    rewrite (proj1 (K [Key "spec"] eq_refl eq_refl)),
      (proj2 (K [Key "spec"] eq_refl eq_refl)),
      (proj1 (K [Key "spec"; Key "template"] eq_refl eq_refl)),
      (proj2 (K [Key "spec"; Key "template"] eq_refl eq_refl)),
      (proj1 (K [Key "spec"; Key "template"; Key "metadata"]
                eq_refl eq_refl)),
      (proj2 (K [Key "spec"; Key "template"; Key "metadata"]
                eq_refl eq_refl)).
    cbn [app] in *.
    rewrite (proj1 (K [Key "spec"; Key "template"; Key "metadata";
                       Key "annotations"] eq_refl eq_refl)),
      (proj2 (K [Key "spec"; Key "template"; Key "metadata";
                 Key "annotations"] eq_refl eq_refl)).
    exact Hs. }
  clear K Hs Hm Hd.
  rewrite (template_step m1 _ Hd1 Hs1).
  pose proof (fun p => tidy_keeps
                         [Key "spec"; Key "template"; Key "metadata"] m1 p)
    as K2.
  revert K2.
  generalize (tidy [Key "spec"; Key "template"; Key "metadata"] m1).
  intros m2 K2.
  apply spec_step.
  - now rewrite (proj2 (K2 [] eq_refl eq_refl)).
  - unfold dict_if_any.
    rewrite (proj1 (K2 [Key "spec"] eq_refl eq_refl)),
      (proj2 (K2 [Key "spec"] eq_refl eq_refl)).
    unfold template_ok in Hs1.
    destruct (has m1 [Key "spec"]); [|reflexivity].
    cbn [negb orb] in Hs1. apply andb_true_iff in Hs1 as [-> _].
    reflexivity.
Qed.

Lemma get_ok (v x default : value) (k : string) :
  Py.get v k default = Ok x -> exists d, v = VDict d.
Proof. destruct v; simpl; try discriminate. eauto. Qed.

Lemma has_true (m : value) (p : path) :
  has m p = true -> exists c, lookup m p = Some c.
Proof. unfold has. destruct (lookup m p); [eauto|discriminate]. Qed.

Lemma metadata_step_inv (m m1 : value) :
  dict_at m [] = true ->
  (if has m [Key "metadata"]
   then metadata <- Py.getitem m "metadata" ;;
        metadata <- StsResizer.clean_metadata metadata ;;
        Ok (store m [Key "metadata"] metadata)
   else Ok m) = Ok m1 ->
  metadata_ok m [Key "metadata"] = true.
Proof.
  intros Hd H. unfold metadata_ok.
  destruct (has m [Key "metadata"]) eqn:Hh; [|reflexivity].
  cbn [negb orb].
  apply bind_ok in H as (md & E & H). apply getitem_lookup in E.
  apply bind_ok in H as (md' & E' & _).
  apply clean_metadata_accepts in E' as [A1 A2].
  rewrite (dict_at_via _ _ _ _ E), app_nil_r in A1.
  unfold dict_if_any in *.
  rewrite (dict_at_via _ _ _ _ E), (has_via _ _ _ _ E) in A2.
  now rewrite A1, A2.
Qed.

Lemma clean_manifest_accepts (m m' : value) :
  StsResizer.clean_manifest m = Ok m' -> sts_ok m = true.
Proof.
  intros H. unfold StsResizer.clean_manifest, StsResizer.deep_copy in H.
  assert (Hd : dict_at m [] = true).
  { destruct m as [| | |s|l|d]; try discriminate; try reflexivity; exfalso.
    all: repeat (cbn [Py.contains bind store Py.getitem Py.pop Py.pops] in H;
                 try discriminate;
                 match type of H with
                 | context [if ?b then _ else _] => destruct b
                 end).
    all: cbn [Py.contains bind store Py.getitem Py.pop Py.pops] in H;
      discriminate. }
  rewrite (contains_at _ _ Hd) in H. cbn [bind] in H.
  apply bind_ok in H as (m1 & H1 & H).
  pose proof (metadata_step_inv _ _ Hd H1) as Hm.
  rewrite (metadata_step m Hd Hm) in H1. injection H1 as <-.
  unfold sts_ok. rewrite Hd, Hm. cbn [andb].
  pose proof (fun p => tidy_keeps [Key "metadata"] m p) as K.
  revert K H. generalize (tidy [Key "metadata"] m). intros m1 K H.
  assert (Hd1 : dict_at m1 [] = true).
  { now rewrite (proj2 (K [] eq_refl eq_refl)). }
  cut (template_ok m1 = true).
  { unfold template_ok, metadata_ok, dict_if_any in *.
    rewrite (proj1 (K [Key "spec"] eq_refl eq_refl)),
      (proj2 (K [Key "spec"] eq_refl eq_refl)),
      (proj1 (K [Key "spec"; Key "template"] eq_refl eq_refl)),
      (proj2 (K [Key "spec"; Key "template"] eq_refl eq_refl)),
      (proj1 (K [Key "spec"; Key "template"; Key "metadata"]
                eq_refl eq_refl)),
      (proj2 (K [Key "spec"; Key "template"; Key "metadata"]
                eq_refl eq_refl)).
    cbn [app] in *.
    rewrite (proj1 (K [Key "spec"; Key "template"; Key "metadata";
                       Key "annotations"] eq_refl eq_refl)),
      (proj2 (K [Key "spec"; Key "template"; Key "metadata";
                 Key "annotations"] eq_refl eq_refl)).
    trivial. }
  clear K Hm Hd m.
  rewrite (contains_at _ _ Hd1) in H. cbn [bind] in H.
  unfold template_ok.
  destruct (has m1 [Key "spec"]) eqn:Hsp; [|reflexivity].
  cbn [negb orb].
  apply has_true in Hsp as [sp Hsp].
  rewrite (getitem_at _ _ _ Hsp) in H. cbn [bind] in H.
  apply bind_ok in H as (b & Eb & H).
  apply bind_ok in H as (m2 & E2 & H).
  destruct b.
  - apply bind_ok in E2 as (tp & Etp & E2).
    pose proof Etp as Etp'. apply getitem_ok in Etp' as (spd & -> & Gtp).
    apply bind_ok in E2 as (tmd & Etmd & E2).
    pose proof Etmd as Etmd'. apply get_ok in Etmd' as (tpd & ->).
    apply bind_ok in E2 as (tmd' & Ecm & _).
    apply clean_metadata_accepts in Ecm as [A1 A2].
    assert (Ltp : lookup m1 [Key "spec"; Key "template"] = Some (VDict tpd)).
    { change [Key "spec"; Key "template"]
        with ([Key "spec"] ++ [Key "template"]).
      rewrite lookup_app, Hsp. simpl. now rewrite Gtp. }
    rewrite (dict_at_intro _ _ _ Hsp), (dict_at_intro _ _ _ Ltp).
    unfold has at 1. rewrite Ltp. cbn [negb orb andb].
    unfold metadata_ok.
    rewrite get_dict in Etmd. injection Etmd as Etmd.
    change [Key "spec"; Key "template"; Key "metadata"]
      with ([Key "spec"; Key "template"] ++ [Key "metadata"]).
    unfold dict_if_any in *.
    rewrite <- !app_assoc.
    rewrite <- !(has_via _ _ _ _ Ltp), <- !(dict_at_via _ _ _ _ Ltp).
    unfold has, dict_at in *. cbn [lookup app] in *.
    destruct (Dict.get "metadata" tpd) as [x|]; [|reflexivity].
    subst x. cbn [negb orb].
    destruct tmd; try discriminate. exact A2.
  - injection E2 as <-.
    rewrite (contains_at _ _ Hd1) in H. cbn [bind] in H.
    unfold has at 1 in H. rewrite Hsp in H.
    rewrite (getitem_at _ _ _ Hsp) in H. cbn [bind] in H.
    apply bind_ok in H as (x & Ex & _).
    apply bind_ok in Ex as (sp' & Esp & _).
    apply pops_ok in Esp as (spd & -> & _); [|discriminate].
    rewrite (dict_at_intro _ _ _ Hsp). cbn [andb].
    rewrite (contains_via m1 _ [Key "spec"] "template" Hsp
               (dict_at_intro _ _ _ Hsp)) in Eb.
    injection Eb as ->. reflexivity.
Qed.

Lemma clean_manifest_spec (m m' : value) :
  StsResizer.clean_manifest m = Ok m' <->
  sts_ok m = true /\ m' = sts_cleaned m.
Proof.
  split.
  - intros H. pose proof (clean_manifest_accepts _ _ H) as Hok.
    rewrite (clean_manifest_cleans _ Hok) in H. injection H as <-.
    now split.
  - intros [Hok ->]. now apply clean_manifest_cleans.
Qed.

End CleanManifest.

(** ** What the two sanitize steps leave behind *)

Section JobSanitize.

Lemma job_gone (m m' : value) :
  RerunJob.clean_up m = Ok m' ->
  Forall (absent m') (map site_path (job_removals_of m)).
Proof.
  intros H. apply clean_up_spec in H as [_ ->]. apply prune_all_gone.
Qed.

Lemma job_frame (m m' : value) :
  RerunJob.clean_up m = Ok m' ->
  same_outside (map site_path (job_removals_of m)) m m'.
Proof.
  intros H. apply clean_up_spec in H as [_ ->]. apply prune_all_frame.
Qed.

Lemma job_ok_kept (S : list site) (m : value) :
  forallb (clear_of S)
          [[]; [Key "metadata"]; [Key "spec"]; [Key "spec"; Key "template"];
           [Key "spec"; Key "template"; Key "metadata"];
           [Key "metadata"; Key "annotations"]] = true ->
  job_ok (prune_all S m) = job_ok m
  /\ has (prune_all S m) [Key "metadata"] = has m [Key "metadata"].
Proof.
  intros H. cbn [forallb] in H.
  repeat (apply andb_true_iff in H as [?H H]).
  unfold job_ok, dict_if_any.
  repeat match goal with
         | X : clear_of S ?p = true |- _ =>
             let A := fresh in
             let B := fresh in
             destruct (prune_all_keeps S m p X) as [A B];
             rewrite ?A, ?B; clear X A B
         end.
  now split.
Qed.

Lemma job_idem (m m' : value) :
  RerunJob.clean_up m = Ok m' -> RerunJob.clean_up m' = Ok m'.
Proof.
  intros H. pose proof (job_gone _ _ H) as Hg.
  apply clean_up_spec in H as [Hok ->].
  assert (K : job_ok (prune_all (job_removals_of m) m) = job_ok m
              /\ has (prune_all (job_removals_of m) m) [Key "metadata"]
                 = has m [Key "metadata"]).
  { apply job_ok_kept. unfold job_removals_of.
    destruct (has m [Key "metadata"]); reflexivity. }
  destruct K as [K1 K2].
  rewrite clean_up_prunes by congruence.
  f_equal. unfold job_removals_of at 1. rewrite K2.
  fold (job_removals_of m). now apply prune_all_id.
Qed.

End JobSanitize.

Section StsSanitize.

Lemma tidy_no_new (l : path) (v : value) (p : path) :
  lookup v p = None -> lookup (tidy l v) p = None.
Proof.
  intros H. unfold tidy. now apply drop_empty_no_new, prune_all_no_new.
Qed.

Lemma tidy_gone (l : path) (v : value) :
  Forall (absent (tidy l v)) (map site_path (sts_metadata_removals l)).
Proof.
  unfold tidy.
  apply (Forall_impl _ (P := absent (prune_all (sts_metadata_removals l) v)));
    [|apply prune_all_gone].
  intros p Hp. now apply drop_empty_no_new.
Qed.

Lemma tidy_frame (l : path) (v : value) :
  same_outside (map site_path (sts_metadata_removals l)) v (tidy l v).
Proof.
  unfold tidy. intros p Hp.
  rewrite (drop_empty_frame (l, "annotations")
             [Key "kubectl.kubernetes.io/last-applied-configuration"]).
  - now apply prune_all_frame.
  - discriminate.
  - eapply outside_incl; [|exact Hp].
    intros t [<-|[]]. unfold sts_metadata_removals.
    rewrite map_app. apply in_or_app. right.
    simpl. left. reflexivity.
Qed.

Lemma tidy_nonempty (l : path) (v : value) :
  lookup (tidy l v) (l ++ [Key "annotations"]) <> Some (VDict []).
Proof. apply (drop_empty_nonempty (l, "annotations")). Qed.

Lemma tidy_id (l : path) (v : value) :
  Forall (absent v) (map site_path (sts_metadata_removals l)) ->
  lookup v (l ++ [Key "annotations"]) <> Some (VDict []) ->
  tidy l v = v.
Proof.
  intros H1 H2. unfold tidy. rewrite (prune_all_id _ _ H1).
  now apply drop_empty_id.
Qed.

Lemma tidy_metadata_ok (l : path) (v : value) :
  clear_of (sts_metadata_removals l) l = true ->
  clear_of (sts_metadata_removals l) (l ++ [Key "annotations"]) = true ->
  prefixb (l ++ [Key "annotations"]) l = false ->
  metadata_ok (tidy l v) l = metadata_ok v l.
Proof.
  intros C1 C2 C3. unfold metadata_ok.
  destruct (tidy_keeps l v l C1 C3) as [-> ->].
  destruct (has v l) eqn:Hh; [|reflexivity]. cbn [negb orb].
  destruct (dict_at v l) eqn:Hd; [|reflexivity]. cbn [andb].
  unfold tidy.
  set (w := prune_all (sts_metadata_removals l) v).
  assert (E : dict_if_any w (l ++ [Key "annotations"])
              = dict_if_any v (l ++ [Key "annotations"])).
  { unfold dict_if_any.
    destruct (prune_all_keeps (sts_metadata_removals l) v _ C2) as [A B].
    fold w in A, B. now rewrite A, B. }
  rewrite <- E. clearbody w.
  unfold drop_empty, site_path. cbn [fst snd].
  destruct (lookup w (l ++ [Key "annotations"])) as [[| | | | |[|kv d]]|] eqn:L;
    try reflexivity.
  pose proof (prune_absent (l, "annotations") w) as A.
  unfold site_path in A. cbn [fst snd] in A.
  unfold dict_if_any, has, dict_at. now rewrite A, L.
Qed.

Local Abbreviation MD := [Key "metadata"].
Local Abbreviation TM := [Key "spec"; Key "template"; Key "metadata"].
Local Abbreviation SF := (under [Key "spec"] StsResizer.status_fields).

Lemma sts_removals_split :
  map site_path sts_removals =
  map site_path (sts_metadata_removals MD)
  ++ map site_path (sts_metadata_removals TM)
  ++ map site_path SF ++ [site_path ([], "status")].
Proof. reflexivity. Qed.

Lemma sts_gone (m : value) :
  Forall (absent (sts_cleaned m)) (map site_path sts_removals).
Proof.
  rewrite sts_removals_split. unfold sts_cleaned.
  repeat (apply Forall_app; split).
  - eapply Forall_impl; [|apply (tidy_gone MD m)].
    intros p Hp. now apply prune_no_new, prune_all_no_new, tidy_no_new.
  - eapply Forall_impl; [|apply (tidy_gone TM (tidy MD m))].
    intros p Hp. now apply prune_no_new, prune_all_no_new.
  - eapply Forall_impl; [|apply (prune_all_gone SF (tidy TM (tidy MD m)))].
    intros p Hp. now apply prune_no_new.
  - constructor; [|constructor]. apply prune_absent.
Qed.

Lemma sts_frame (m : value) :
  same_outside (map site_path sts_removals) m (sts_cleaned m).
Proof.
  rewrite sts_removals_split. unfold sts_cleaned.
  apply (same_outside_trans _ _ m (tidy MD m)); [apply tidy_frame|].
  apply (same_outside_trans _ _ _ (tidy TM (tidy MD m)));
    [apply tidy_frame|].
  apply (same_outside_trans _ _ _ (prune_all SF (tidy TM (tidy MD m))));
    [apply prune_all_frame|].
  apply prune_frame.
Qed.

Lemma sts_annotations_nonempty (m : value) :
  lookup (sts_cleaned m) (MD ++ [Key "annotations"]) <> Some (VDict [])
  /\ lookup (sts_cleaned m) (TM ++ [Key "annotations"]) <> Some (VDict []).
Proof.
  unfold sts_cleaned. split.
  - rewrite (keep_same_prune ([], "status") _
               (MD ++ [Key "annotations"]) eq_refl).
    rewrite (keep_same_prune_all SF _ (MD ++ [Key "annotations"]) eq_refl).
    rewrite (tidy_frame TM _ (MD ++ [Key "annotations"]) eq_refl).
    apply tidy_nonempty.
  - rewrite (keep_same_prune ([], "status") _
               (TM ++ [Key "annotations"]) eq_refl).
    rewrite (keep_same_prune_all SF _ (TM ++ [Key "annotations"]) eq_refl).
    apply tidy_nonempty.
Qed.

Lemma sts_cleaned_fixed (m : value) :
  Forall (absent m) (map site_path sts_removals) ->
  lookup m (MD ++ [Key "annotations"]) <> Some (VDict []) ->
  lookup m (TM ++ [Key "annotations"]) <> Some (VDict []) ->
  sts_cleaned m = m.
Proof.
  rewrite sts_removals_split. intros H N1 N2.
  apply Forall_app in H as [H1 H]. apply Forall_app in H as [H2 H].
  apply Forall_app in H as [H3 H4].
  unfold sts_cleaned.
  rewrite (tidy_id MD m H1 N1), (tidy_id TM m H2 N2).
  rewrite (prune_all_id SF m H3).
  apply prune_id. now inversion H4.
Qed.

Lemma template_ok_kept (v v' : value) :
  (forall p, In p [[Key "spec"]; [Key "spec"; Key "template"]; TM;
                   TM ++ [Key "annotations"]] ->
             has v' p = has v p /\ dict_at v' p = dict_at v p) ->
  template_ok v' = template_ok v.
Proof.
  intros K. unfold template_ok, metadata_ok, dict_if_any.
  destruct (K [Key "spec"]) as [-> ->]; [simpl; tauto|].
  destruct (K [Key "spec"; Key "template"]) as [-> ->]; [simpl; tauto|].
  destruct (K TM) as [-> ->]; [simpl; tauto|].
  destruct (K (TM ++ [Key "annotations"])) as [-> ->]; [simpl; tauto|].
  reflexivity.
Qed.

Lemma metadata_ok_kept (v v' : value) (l : path) :
  (forall p, In p [l; l ++ [Key "annotations"]] ->
             has v' p = has v p /\ dict_at v' p = dict_at v p) ->
  metadata_ok v' l = metadata_ok v l.
Proof.
  intros K. unfold metadata_ok, dict_if_any.
  destruct (K l) as [-> ->]; [simpl; tauto|].
  destruct (K (l ++ [Key "annotations"])) as [-> ->]; [simpl; tauto|].
  reflexivity.
Qed.

Lemma template_ok_tidy (v : value) :
  template_ok (tidy TM v) = template_ok v.
Proof.
  unfold template_ok.
  destruct (tidy_keeps TM v [Key "spec"] eq_refl eq_refl) as [-> ->].
  destruct (tidy_keeps TM v [Key "spec"; Key "template"] eq_refl eq_refl)
    as [-> ->].
  now rewrite (tidy_metadata_ok TM v eq_refl eq_refl eq_refl).
Qed.

Lemma sts_ok_tidy_metadata (v : value) : sts_ok (tidy MD v) = sts_ok v.
Proof.
  unfold sts_ok.
  rewrite (proj2 (tidy_keeps MD v [] eq_refl eq_refl)).
  rewrite (tidy_metadata_ok MD v eq_refl eq_refl eq_refl).
  f_equal. apply template_ok_kept. intros p Hp.
  apply tidy_keeps; cbn [In] in Hp;
    repeat (destruct Hp as [<-|Hp]; [reflexivity|]); destruct Hp.
Qed.

Lemma sts_ok_tidy_template (v : value) : sts_ok (tidy TM v) = sts_ok v.
Proof.
  unfold sts_ok.
  rewrite (proj2 (tidy_keeps TM v [] eq_refl eq_refl)).
  rewrite template_ok_tidy. f_equal. f_equal.
  apply metadata_ok_kept. intros p Hp.
  apply tidy_keeps; cbn [In] in Hp;
    repeat (destruct Hp as [<-|Hp]; [reflexivity|]); destruct Hp.
Qed.

Lemma sts_ok_prune_all (S : list site) (v : value) :
  forallb (clear_of S)
          [[]; MD; MD ++ [Key "annotations"]; [Key "spec"];
           [Key "spec"; Key "template"]; TM; TM ++ [Key "annotations"]]
  = true ->
  sts_ok (prune_all S v) = sts_ok v.
Proof.
  intros H. rewrite forallb_forall in H. unfold sts_ok.
  rewrite (proj2 (prune_all_keeps S v [] (H _ (or_introl eq_refl)))).
  f_equal; [f_equal|].
  - apply metadata_ok_kept. intros p Hp.
    apply prune_all_keeps, H. cbn [In app] in *. tauto.
  - apply template_ok_kept. intros p Hp.
    apply prune_all_keeps, H. cbn [In app] in *. tauto.
Qed.

Lemma sts_ok_cleaned (m : value) :
  sts_ok m = true -> sts_ok (sts_cleaned m) = true.
Proof.
  intros H. rewrite <- H. unfold sts_cleaned.
  rewrite <- (prune_all_nil (prune ([], "status") _)).
  rewrite <- prune_all_cons.
  rewrite (sts_ok_prune_all [([], "status")] _ eq_refl).
  rewrite (sts_ok_prune_all SF _ eq_refl).
  now rewrite sts_ok_tidy_template, sts_ok_tidy_metadata.
Qed.

Lemma sts_idem (m m' : value) :
  StsResizer.clean_manifest m = Ok m' ->
  StsResizer.clean_manifest m' = Ok m'.
Proof.
  intros H. apply clean_manifest_spec in H as [Hok ->].
  rewrite (clean_manifest_cleans _ (sts_ok_cleaned _ Hok)). f_equal.
  apply sts_cleaned_fixed.
  - apply sts_gone.
  - apply sts_annotations_nonempty.
  - apply sts_annotations_nonempty.
Qed.

End StsSanitize.

(** ** Strings *)

Section StringFacts.

Local Open Scope string_scope.

Lemma substringb_char (c : ascii) (s : string) :
  PyStr.substringb (String c EmptyString) s = PyStr.has_char c s.
Proof.
  induction s as [|a s IH]; simpl; [reflexivity|].
  rewrite IH. rewrite (Ascii.eqb_sym c a).
  now rewrite andb_true_r.
Qed.

Lemma hd_split (c : ascii) (s : string) :
  hd EmptyString (PyStr.split c s) = PyStr.before c s.
Proof.
  induction s as [|a s IH]; simpl; [reflexivity|].
  destruct (Ascii.eqb a c); [reflexivity|].
  destruct (PyStr.split c s) as [|p ps]; simpl in *; now rewrite <- IH.
Qed.

Lemma before_no_char (c : ascii) (s : string) :
  PyStr.has_char c s = false -> PyStr.before c s = s.
Proof.
  induction s as [|a s IH]; simpl; [reflexivity|].
  destruct (Ascii.eqb a c); simpl; [discriminate|].
  intros H. now rewrite IH.
Qed.

Lemma before_app (c : ascii) (pre post : string) :
  PyStr.has_char c pre = false ->
  PyStr.before c (pre ++ String c post) = pre.
Proof.
  induction pre as [|a pre IH]; simpl.
  - now rewrite Ascii.eqb_refl.
  - destruct (Ascii.eqb a c); simpl; [discriminate|].
    intros H. now rewrite IH.
Qed.

Lemma has_char_app (c : ascii) (s t : string) :
  PyStr.has_char c (s ++ t) = PyStr.has_char c s || PyStr.has_char c t.
Proof.
  induction s as [|a s IH]; simpl; [reflexivity|].
  now rewrite IH, orb_assoc.
Qed.

Lemma has_char_before (c : ascii) (s : string) :
  PyStr.has_char c (PyStr.before c s) = false.
Proof.
  induction s as [|a s IH]; simpl; [reflexivity|].
  destruct (Ascii.eqb a c) eqn:E; simpl; [reflexivity|].
  now rewrite E.
Qed.

(** A string with a [c] is what precedes the first [c], the [c], and the
    rest. *)
Lemma split_first (c : ascii) (s : string) :
  PyStr.has_char c s = true ->
  exists post, s = PyStr.before c s ++ String c post.
Proof.
  induction s as [|a s IH]; simpl; [discriminate|].
  destruct (Ascii.eqb a c) eqn:E; simpl.
  - apply Ascii.eqb_eq in E; subst a. now exists s.
  - intros H. destruct (IH H) as [post Hp]. exists post. now rewrite <- Hp.
Qed.

Lemma latest_image_str (s : string) :
  RerunJob.latest_image (VStr s) = Ok (PyStr.before ":" s ++ ":latest").
Proof.
  unfold RerunJob.latest_image. cbn [Py.contains bind].
  rewrite substringb_char.
  destruct (PyStr.has_char ":" s) eqn:E.
  - cbn [Py.split bind]. now rewrite hd_split.
  - cbn [Py.str]. now rewrite before_no_char.
Qed.

End StringFacts.

(** ** The first container *)

Section Container.

Lemma update_image_ok (c c1 : value) :
  RerunJob.update_image c = Ok c1 ->
  exists cd img new,
    c = VDict cd /\ Dict.get "image" cd = Some img
    /\ RerunJob.latest_image img = Ok new
    /\ c1 = VDict (Dict.set "image" (VStr new) cd).
Proof.
  unfold RerunJob.update_image. intros H.
  apply bind_ok in H as (img & E & H).
  apply getitem_ok in E as (cd & -> & G).
  apply bind_ok in H as (new & En & H).
  cbn [Py.setitem] in H. injection H as <-.
  now exists cd, img, new.
Qed.

Lemma update_image_frame (c c1 : value) :
  RerunJob.update_image c = Ok c1 -> same_outside [[Key "image"]] c c1.
Proof.
  intros H. apply update_image_ok in H as (cd & img & new & -> & _ & _ & ->).
  apply same_outside_set.
Qed.

Lemma named_getitem (n : string) (e x : value) :
  Py.getitem e "name" = Ok x -> named n e = Py.eq_str x n.
Proof.
  intros H. apply getitem_lookup in H. unfold named. now rewrite H.
Qed.

Lemma find_env_var_some (items : list value) (n : string) (i0 i : nat)
      (e : value) :
  RerunJob.find_env_var items n i0 = Ok (Some (i, e)) ->
  i = i0 + env_slot n items
  /\ nth_error items (env_slot n items) = Some e
  /\ named n e = true.
Proof.
  revert i0; induction items as [|a items IH]; intros i0 H; simpl in H.
  - discriminate.
  - apply bind_ok in H as (x & E & H).
    simpl. rewrite (named_getitem n a x E).
    destruct (Py.eq_str x n) eqn:Q.
    + injection H as <- <-. rewrite (named_getitem n a x E).
      repeat split; auto; lia.
    + apply IH in H as (-> & H2 & H3). repeat split; auto; lia.
Qed.

Lemma find_env_var_none (items : list value) (n : string) (i0 : nat) :
  RerunJob.find_env_var items n i0 = Ok None ->
  env_slot n items = List.length items
  /\ Forall (fun e => named n e = false) items.
Proof.
  revert i0; induction items as [|a items IH]; intros i0 H; simpl in H.
  - split; [reflexivity|constructor].
  - apply bind_ok in H as (x & E & H).
    simpl. rewrite (named_getitem n a x E).
    destruct (Py.eq_str x n) eqn:Q; [discriminate|].
    apply IH in H as [H1 H2]. split; [now rewrite H1|].
    constructor; [|assumption]. now rewrite (named_getitem n a x E).
Qed.

Lemma find_env_var_absent (items : list value) (n : string) (i0 : nat) :
  Forall (other_name n) items ->
  RerunJob.find_env_var items n i0 = Ok None.
Proof.
  revert i0; induction items as [|a items IH]; intros i0 H; simpl.
  - reflexivity.
  - inversion H as [|? ? (x & E & Q) H']; subst.
    rewrite E. cbn [bind]. rewrite Q. now apply IH.
Qed.

Lemma find_env_var_found (pre post : list value) (e x : value)
      (n : string) (i0 : nat) :
  Forall (other_name n) pre ->
  Py.getitem e "name" = Ok x -> Py.eq_str x n = true ->
  RerunJob.find_env_var (pre ++ e :: post) n i0
  = Ok (Some (i0 + List.length pre, e)).
Proof.
  revert i0; induction pre as [|a pre IH]; intros i0 H E Q; simpl.
  - rewrite E. cbn [bind]. rewrite Q. now rewrite Nat.add_0_r.
  - inversion H as [|? ? (y & Ey & Qy) H']; subst.
    rewrite Ey. cbn [bind]. rewrite Qy. rewrite (IH (S i0) H' E Q).
    do 3 f_equal. lia.
Qed.

End Container.

Section UpdateEnv.

Lemma apartb_extend (p q x : path) :
  apartb p x = true -> apartb (p ++ q) x = true.
Proof.
  revert x; induction p as [|a p IH]; intros [|b x]; simpl;
    try discriminate.
  destruct (step_eqb a b); auto.
Qed.

Lemma same_outside_shorten (p q : path) (a b : value) :
  same_outside [p ++ q] a b -> same_outside [p] a b.
Proof.
  intros H x Hx. apply H. unfold outside in *. simpl in *.
  rewrite andb_true_r in *. now apply apartb_extend.
Qed.

Lemma list_set_middle {A} (pre post : list A) (x y : A) :
  list_set (List.length pre) y (pre ++ x :: post) = pre ++ y :: post.
Proof.
  induction pre as [|a pre IH]; simpl; [reflexivity|]. now rewrite IH.
Qed.

Lemma merged_value_str (cur v : string) :
  RerunJob.merged_value (VStr cur) v =
  Ok (if PyStr.has_char " " cur
      then if existsb (String.eqb v) (PyStr.split_ws cur)
           then None
           else Some (cur ++ " " ++ v)%string
      else Some v).
Proof.
  unfold RerunJob.merged_value. cbn [Py.contains bind].
  rewrite substringb_char.
  destruct (PyStr.has_char " " cur); [|reflexivity].
  cbn [Py.split_ws bind Py.str].
  now destruct (existsb (String.eqb v) (PyStr.split_ws cur)).
Qed.

(** No entry named [n]: one is appended to the list. *)
Lemma update_env_appends (cd : dict) (l : list value) (n v : string) :
  Dict.get "env" cd = Some (VList l) ->
  Forall (other_name n) l ->
  RerunJob.update_env (VDict cd) n v
  = Ok (VDict (Dict.set "env" (VList (l ++ [new_env_var n v])) cd)).
Proof.
  intros G H. unfold RerunJob.update_env.
  rewrite get_dict, G. cbn [bind Py.iter].
  rewrite (find_env_var_absent l n 0 H). cbn [bind Py.getitem].
  rewrite G. cbn [bind Py.append store]. now rewrite G.
Qed.

(** No [env] key: the lookup of the list to append to fails. *)
Lemma update_env_no_env (cd : dict) (n v : string) :
  Dict.get "env" cd = None ->
  RerunJob.update_env (VDict cd) n v = Raise (KeyError "env").
Proof.
  intros G. unfold RerunJob.update_env.
  rewrite get_dict, G. cbn [bind Py.iter RerunJob.find_env_var Py.getitem].
  now rewrite G.
Qed.

(** An entry named [n] with a string value: the value is merged. *)
Lemma update_env_merges (cd ed : dict) (pre post : list value)
      (x : value) (n v cur : string) :
  Dict.get "env" cd = Some (VList (pre ++ VDict ed :: post)) ->
  Forall (other_name n) pre ->
  Dict.get "name" ed = Some x -> Py.eq_str x n = true ->
  Dict.get "value" ed = Some (VStr cur) ->
  RerunJob.update_env (VDict cd) n v
  = Ok (match (if PyStr.has_char " " cur
               then if existsb (String.eqb v) (PyStr.split_ws cur)
                    then None
                    else Some (cur ++ " " ++ v)%string
               else Some v) with
        | Some w =>
            VDict (Dict.set "env"
                     (VList (pre ++ VDict (Dict.set "value" (VStr w) ed)
                                 :: post)) cd)
        | None => VDict cd
        end).
Proof.
  intros G H Gn Q Gv. unfold RerunJob.update_env.
  rewrite get_dict, G. cbn [bind Py.iter].
  rewrite (find_env_var_found pre post (VDict ed) x n 0 H);
    [|simpl; now rewrite Gn|assumption].
  cbn [bind Nat.add].
  assert (T : Py.truthy (VDict ed) = true).
  { destruct ed; [discriminate|reflexivity]. }
  rewrite T. cbn [Py.getitem]. rewrite Gv. cbn [bind].
  rewrite merged_value_str.
  cbn [bind].
  destruct (if PyStr.has_char " " cur
            then if existsb (String.eqb v) (PyStr.split_ws cur)
                 then None else Some (cur ++ " " ++ v)%string
            else Some v) as [w|]; [|reflexivity].
  cbn [Py.setitem bind store]. rewrite G.
  assert (N : nth_error (pre ++ VDict ed :: post) (List.length pre)
              = Some (VDict ed)).
  { rewrite nth_error_app2 by lia. now rewrite Nat.sub_diag. }
  rewrite N. now rewrite list_set_middle.
Qed.

Lemma iter_items (env_vars : value) (items : list value) (i : nat) (e : value) (n : string) :
  Py.iter env_vars = Ok items -> nth_error items i = Some e -> named n e = true ->
  env_vars = VList items.
Proof.
  destruct env_vars; simpl; try discriminate; intros [= <-] N Q.
  - exfalso. unfold Py.chars in N.
    apply nth_error_In, in_map_iff in N as (c & <- & _). discriminate.
  - reflexivity.
  - exfalso. unfold Dict.keys in N. rewrite map_map in N.
    apply nth_error_In, in_map_iff in N as (kv & <- & _). discriminate.
Qed.

Lemma update_env_frame (c c2 : value) (n v : string) :
  RerunJob.update_env c n v = Ok c2 ->
  exists cd l,
    c = VDict cd /\ Dict.get "env" cd = Some (VList l)
    /\ same_outside [[Key "env"; Idx (env_slot n l)]] c c2.
Proof.
  unfold RerunJob.update_env. intros H.
  apply bind_ok in H as (env_vars & Eg & H).
  pose proof Eg as Eg'. apply get_ok in Eg' as (cd & ->).
  rewrite get_dict in Eg. injection Eg as Eg.
  apply bind_ok in H as (items & Ei & H).
  apply bind_ok in H as (target & Ef & H).
  exists cd.
  assert (ADD : forall c2,
    (env <- Py.getitem (VDict cd) "env" ;;
     env' <- Py.append env (VDict [("name", VStr n); ("value", VStr v)]) ;;
     Ok (store (VDict cd) [Key "env"] env')) = Ok c2 ->
    target = None ->
    exists l, Dict.get "env" cd = Some (VList l)
      /\ same_outside [[Key "env"; Idx (env_slot n l)]] (VDict cd) c2).
  { clear H c2. intros c2 H ->.
    apply bind_ok in H as (env & E & H).
    apply getitem_ok in E as (cd' & [= <-] & G).
    apply bind_ok in H as (env' & Ea & H).
    apply append_ok in Ea as (l & -> & ->). injection H as <-.
    exists l. split; [assumption|].
    rewrite G in Eg. subst env_vars. injection Ei as <-.
    apply find_env_var_none in Ef as [-> _].
    apply (same_outside_store [Key "env"] [[Idx (List.length l)]]
             (VDict cd) _ (VList l)).
    - simpl. now rewrite G.
    - discriminate.
    - apply same_outside_append. }
  destruct target as [[i target]|]; [|destruct (ADD _ H eq_refl) as (l & ? & ?); eauto].
  clear ADD.
  apply find_env_var_some in Ef as (-> & N & Q). simpl in *.
  pose proof (iter_items _ _ _ _ _ Ei N Q) as ->.
  assert (G : Dict.get "env" cd = Some (VList items)).
  { destruct (Dict.get "env" cd); [now subst|].
    injection Eg as <-. destruct (env_slot n []); discriminate. }
  exists items. split; [reflexivity|]. split; [assumption|].
  assert (T : Py.truthy target = true).
  { unfold named in Q. destruct target; simpl in Q; try discriminate.
    destruct d; [discriminate|reflexivity]. }
  rewrite T in H.
  apply bind_ok in H as (cur & Ec & H).
  apply bind_ok in H as (nv & Em & H).
  destruct nv as [w|]; [|injection H as <-; apply same_outside_refl].
  apply bind_ok in H as (target' & Es & H).
  apply setitem_ok in Es as (ed & -> & ->). injection H as <-.
  apply (same_outside_shorten [Key "env"; Idx (env_slot n items)] [Key "value"]).
  apply (same_outside_store [Key "env"; Idx (env_slot n items)] [[Key "value"]]
           (VDict cd) _ (VDict ed)).
  - simpl. now rewrite G, N.
  - discriminate.
  - apply same_outside_set.
Qed.

End UpdateEnv.

(** ** [RerunJob.mutate] and [RerunJob.update_job_manifest] *)

Section Mutate.

Lemma mutate_ok (m m1 : value) (n v : option string) :
  RerunJob.mutate m n v = Ok m1 ->
  exists c rest c1 c2,
    lookup m RerunJob.containers_path = Some (VList (c :: rest))
    /\ RerunJob.update_image c = Ok c1
    /\ env_step c1 n v = Ok c2
    /\ m1 = store m first_container c2.
Proof.
  unfold RerunJob.mutate. intros H.
  apply bind_ok in H as (sp & E1 & H). apply getitem_lookup in E1.
  apply bind_ok in H as (tp & E2 & H). apply getitem_lookup in E2.
  apply bind_ok in H as (ps & E3 & H). apply getitem_lookup in E3.
  apply bind_ok in H as (cs & E4 & H). apply getitem_lookup in E4.
  assert (L : lookup m RerunJob.containers_path = Some cs).
  { unfold RerunJob.containers_path.
    change [Key "spec"; Key "template"; Key "spec"; Key "containers"]
      with ([Key "spec"] ++ [Key "template"] ++ [Key "spec"] ++ [Key "containers"]).
    now rewrite lookup_app, E1, lookup_app, E2, lookup_app, E3. }
  destruct (Py.truthy cs); [|discriminate]. cbn [negb] in H.
  apply bind_ok in H as (c & E5 & H).
  apply bind_ok in H as (c1 & E6 & H).
  apply bind_ok in H as (c2 & E7 & H). injection H as <-.
  assert (exists rest, cs = VList (c :: rest)) as [rest ->].
  { apply update_image_ok in E6 as (cd & _ & _ & -> & _).
    destruct cs as [| | |s|[|x l]|d]; cbn [Py.getitem0] in E5;
      try discriminate.
    - destruct (PyStr.chars s); discriminate.
    - injection E5 as ->. eauto. }
  exists c, rest, c1, c2. repeat split; auto.
  unfold env_step, requested.
  destruct n as [a|], v as [b|]; simpl in *; rewrite ?andb_false_r in *; auto.
  destruct (PyStr.truthy a && PyStr.truthy b); auto.
Qed.

Lemma env_target_of (m c c1 : value) (rest : list value)
      (n v : option string) (a b : string) (cd1 : dict) (l : list value) :
  lookup m RerunJob.containers_path = Some (VList (c :: rest)) ->
  same_outside [[Key "image"]] c c1 ->
  requested n v = Some (a, b) ->
  c1 = VDict cd1 -> Dict.get "env" cd1 = Some (VList l) ->
  env_target m n v = [env_path ++ [Idx (env_slot a l)]].
Proof.
  intros L F R -> G. unfold env_target. rewrite R.
  assert (E : lookup m env_path = Some (VList l)).
  { unfold env_path, first_container.
    rewrite <- app_assoc, lookup_app, L.
    change (lookup (VList (c :: rest)) ([Idx 0] ++ [Key "env"]))
      with (lookup c [Key "env"]).
    rewrite <- (F [Key "env"] eq_refl). simpl. now rewrite G. }
  now rewrite E.
Qed.

Lemma mutate_frame (m m1 : value) (n v : option string) :
  RerunJob.mutate m n v = Ok m1 ->
  same_outside (image_path :: env_target m n v) m m1.
Proof.
  intros H. apply mutate_ok in H as (c & rest & c1 & c2 & L & Ei & Ee & ->).
  pose proof (update_image_frame _ _ Ei) as Fi.
  assert (Lc : lookup m first_container = Some c).
  { unfold first_container. now rewrite lookup_app, L. }
  unfold env_step in Ee.
  destruct (requested n v) as [[a b]|] eqn:R.
  - apply update_env_frame in Ee as (cd1 & l & E1 & G & Fe).
    rewrite (env_target_of m c c1 rest n v a b cd1 l L Fi R E1 G).
    apply (same_outside_store first_container
             [[Key "image"]; [Key "env"; Idx (env_slot a l)]] m c2 c Lc).
    + discriminate.
    + apply (same_outside_trans [[Key "image"]] _ c c1 c2 Fi Fe).
  - injection Ee as <-. unfold env_target. rewrite R.
    apply (same_outside_store first_container [[Key "image"]] m c1 c Lc).
    + discriminate.
    + exact Fi.
Qed.

Lemma mutate_containers (m m1 : value) (n v : option string) :
  RerunJob.mutate m n v = Ok m1 ->
  exists c c2 rest,
    lookup m RerunJob.containers_path = Some (VList (c :: rest))
    /\ lookup m1 RerunJob.containers_path = Some (VList (c2 :: rest)).
Proof.
  intros H. apply mutate_ok in H as (c & rest & c1 & c2 & L & _ & _ & ->).
  exists c, c2, rest. split; [assumption|].
  unfold first_container.
  rewrite (store_app _ [Idx 0] m (VList (c :: rest)) c2 L).
  now rewrite (lookup_store_at _ _ _ _ L).
Qed.

Lemma mutate_image (m m1 : value) (n v : option string) (s : string) :
  RerunJob.mutate m n v = Ok m1 ->
  lookup m image_path = Some (VStr s) ->
  lookup m1 image_path
  = Some (VStr (PyStr.before ":" s ++ ":latest")%string).
Proof.
  intros H Hs.
  apply mutate_ok in H as (c & rest & c1 & c2 & L & Ei & Ee & ->).
  assert (Lc : lookup m first_container = Some c).
  { unfold first_container. now rewrite lookup_app, L. }
  unfold image_path in *. rewrite lookup_app, Lc in Hs.
  rewrite (lookup_store_under _ _ _ _ _ Lc).
  apply update_image_ok in Ei as (cd & img & new & -> & G & En & ->).
  simpl in Hs. rewrite G in Hs. injection Hs as ->.
  rewrite latest_image_str in En. injection En as <-.
  assert (L1 : lookup (VDict (Dict.set "image"
                (VStr (PyStr.before ":" s ++ ":latest")%string) cd))
                [Key "image"]
               = Some (VStr (PyStr.before ":" s ++ ":latest")%string)).
  { simpl. now rewrite get_set. }
  unfold env_step in Ee. destruct (requested n v) as [[a b]|].
  - apply update_env_frame in Ee as (cd1 & l & _ & _ & Fe).
    now rewrite (Fe [Key "image"] eq_refl).
  - now injection Ee as <-.
Qed.

Lemma update_job_manifest_ok (m m' : value) (n v : option string) :
  RerunJob.update_job_manifest m n v = Ok m' <->
  exists m1, RerunJob.mutate m n v = Ok m1 /\ RerunJob.clean_up m1 = Ok m'.
Proof.
  unfold RerunJob.update_job_manifest. split.
  - apply bind_ok.
  - intros (m1 & -> & H). exact H.
Qed.

Lemma mutate_keeps_metadata (m m1 : value) (n v : option string) :
  RerunJob.mutate m n v = Ok m1 ->
  job_removals_of m1 = job_removals_of m.
Proof.
  intros H. pose proof (mutate_frame _ _ _ _ H) as F.
  unfold job_removals_of, has. rewrite (F [Key "metadata"]); [reflexivity|].
  unfold outside. cbn [forallb]. unfold env_target.
  destruct (requested n v) as [[a b]|]; [|reflexivity].
  destruct (lookup m env_path) as [[| | | | l|]|]; reflexivity.
Qed.

Lemma update_job_manifest_frame (m m' : value) (n v : option string) :
  RerunJob.update_job_manifest m n v = Ok m' ->
  same_outside ((image_path :: env_target m n v)
                ++ map site_path (job_removals_of m)) m m'.
Proof.
  intros H. apply update_job_manifest_ok in H as (m1 & Hm & Hc).
  apply (same_outside_trans _ _ m m1 m').
  - now apply mutate_frame.
  - rewrite <- (mutate_keeps_metadata _ _ _ _ Hm). now apply job_frame.
Qed.

End Mutate.

(** ** [StsResizer.resize_templates] *)

Section Resize.

Lemma contains_false_lookup (v : value) (k : string) (q : path) :
  Py.contains k v = Ok false -> lookup v (Key k :: q) = None.
Proof.
  destruct v; simpl; try discriminate; try reflexivity.
  unfold Dict.mem. destruct (Dict.get k d); [discriminate|reflexivity].
Qed.

Lemma has_step (v c : value) (k : string) (q : path) :
  Py.getitem v k = Ok c -> has v (Key k :: q) = has c q.
Proof.
  intros H. apply getitem_ok in H as (d & -> & G).
  unfold has. simpl. now rewrite G.
Qed.

Lemma has_step_none (v : value) (k : string) (q : path) :
  Py.contains k v = Ok false -> has v (Key k :: q) = false.
Proof. intros H. unfold has. now rewrite (contains_false_lookup _ _ _ H). Qed.

Lemma resize_template_ok (size : string) (t t' : value) :
  StsResizer.resize_template size t = Ok t' -> t' = resized size t.
Proof.
  unfold StsResizer.resize_template, resized, StsResizer.storage_path.
  intros H.
  apply bind_ok in H as (b1 & E1 & H).
  destruct b1.
  2:{ apply bind_ok in H as (b2 & E2 & H). injection E2 as <-.
      injection H as <-. now rewrite (has_step_none _ _ _ E1). }
  apply bind_ok in H as (b2 & E2 & H).
  apply bind_ok in E2 as (sp & Es & E2).
  rewrite (has_step _ _ _ _ Es).
  destruct b2.
  2:{ injection H as <-. now rewrite (has_step_none _ _ _ E2). }
  rewrite Es in H. cbn [bind] in H.
  apply bind_ok in H as (res & Er & H).
  rewrite (has_step _ _ _ _ Er).
  apply bind_ok in H as (b3 & E3 & H).
  destruct b3.
  2:{ apply bind_ok in H as (b4 & E4 & H). injection E4 as <-.
      injection H as <-. now rewrite (has_step_none _ _ _ E3). }
  apply bind_ok in H as (b4 & E4 & H).
  apply bind_ok in E4 as (req & Eq & E4).
  rewrite (has_step _ _ _ _ Eq).
  destruct b4.
  2:{ injection H as <-. now rewrite (has_step_none _ _ _ E4). }
  rewrite Eq in H. cbn [bind] in H.
  apply bind_ok in H as (old & Eo & H).
  rewrite (has_step _ _ _ _ Eo). cbn [has lookup].
  apply bind_ok in H as (req' & Eset & H). injection H as <-.
  apply setitem_ok in Eset as (rd & -> & ->).
  assert (L : lookup t [Key "spec"; Key "resources"; Key "requests"]
              = Some (VDict rd)).
  { apply getitem_lookup in Es, Er, Eq.
    change [Key "spec"; Key "resources"; Key "requests"]
      with ([Key "spec"] ++ [Key "resources"] ++ [Key "requests"]).
    now rewrite lookup_app, Es, lookup_app, Er. }
  change [Key "spec"; Key "resources"; Key "requests"; Key "storage"]
    with ([Key "spec"; Key "resources"; Key "requests"] ++ [Key "storage"]).
  rewrite (store_app _ _ _ _ _ L). f_equal.
  apply getitem_ok in Eo as (? & [= <-] & G). simpl. now rewrite G.
Qed.

Lemma for_each_ok (f : value -> result value) (g : value -> value)
      (l l' : list value) :
  (forall x x', f x = Ok x' -> x' = g x) ->
  StsResizer.for_each f l = Ok l' -> l' = map g l.
Proof.
  intros Hf. revert l'; induction l as [|x l IH]; intros l' H; simpl in H.
  - now injection H as <-.
  - apply bind_ok in H as (x' & Ex & H).
    apply bind_ok in H as (r' & Er & H). injection H as <-.
    simpl. now rewrite (Hf _ _ Ex), (IH _ Er).
Qed.

(** What [resize_templates] returns, when it returns. *)
Lemma resize_templates_ok (m m' : value) (size : string) :
  StsResizer.resize_templates m size = Ok m' ->
  m' = match lookup m templates_path with
       | Some (VList ts) =>
           store m templates_path (VList (map (resized size) ts))
       | _ => m
       end.
Proof.
  unfold StsResizer.resize_templates, StsResizer.deep_copy, templates_path.
  intros H.
  apply bind_ok in H as (b1 & E1 & H).
  destruct b1.
  2:{ apply bind_ok in H as (b2 & E2 & H). injection E2 as <-.
      injection H as <-. now rewrite (contains_false_lookup _ _ _ E1). }
  apply bind_ok in H as (b2 & E2 & H).
  apply bind_ok in E2 as (sp & Es & E2).
  assert (Lsp : lookup m [Key "spec"] = Some sp) by now apply getitem_lookup.
  change [Key "spec"; Key "volumeClaimTemplates"]
    with ([Key "spec"] ++ [Key "volumeClaimTemplates"]).
  rewrite lookup_app, Lsp.
  destruct b2.
  2:{ injection H as <-. now rewrite (contains_false_lookup _ _ _ E2). }
  rewrite Es in H. cbn [bind] in H.
  apply bind_ok in H as (vct & Ev & H).
  apply getitem_lookup in Ev. rewrite Ev.
  apply bind_ok in H as (items & Ei & H).
  apply bind_ok in H as (items' & Ef & H).
  destruct vct; try (now injection H as <-).
  injection H as <-. simpl in Ei. injection Ei as <-.
  now rewrite (for_each_ok _ _ _ _ (resize_template_ok size) Ef).
Qed.

Lemma resized_frame (size : string) (t : value) :
  same_outside [StsResizer.storage_path] t (resized size t).
Proof.
  unfold resized. unfold has.
  destruct (lookup t StsResizer.storage_path) as [old|] eqn:L.
  - intros p Hp. apply lookup_store_apart.
    unfold outside in Hp. simpl in Hp. now rewrite andb_true_r in Hp.
  - apply same_outside_refl.
Qed.

Lemma resized_storage (size : string) (t : value) :
  has t StsResizer.storage_path = true ->
  lookup (resized size t) StsResizer.storage_path = Some (VStr size).
Proof.
  intros H. unfold resized. rewrite H.
  apply has_true in H as [old L]. apply (lookup_store_at _ _ _ _ L).
Qed.

Lemma resized_idle (size : string) (t : value) :
  has t StsResizer.storage_path = false -> resized size t = t.
Proof. intros H. unfold resized. now rewrite H. Qed.

Lemma has_resized (size : string) (t : value) :
  has (resized size t) StsResizer.storage_path
  = has t StsResizer.storage_path.
Proof.
  destruct (has t StsResizer.storage_path) eqn:H.
  - unfold has. now rewrite (resized_storage _ _ H).
  - now rewrite (resized_idle _ _ H).
Qed.

(** A list changed item by item around [t] is changed around the [t] of
    each item. *)
Lemma same_outside_map (g : value -> value) (t : path) (l : list value) :
  t <> [] ->
  (forall x, same_outside [t] x (g x)) ->
  same_outside (map (fun i => Idx i :: t) (seq 0 (List.length l)))
               (VList l) (VList (map g l)).
Proof.
  intros Ht Hg [|[k|i] q] Hp; [|reflexivity|].
  - destruct l as [|x l]; [reflexivity|]. simpl in Hp.
    destruct t; [congruence|discriminate].
  - simpl. rewrite nth_error_map.
    destruct (nth_error l i) as [x|] eqn:N; [|reflexivity]. simpl.
    apply Hg. unfold outside in *. simpl. rewrite andb_true_r.
    rewrite forallb_forall in Hp.
    assert (Hi : In (Idx i :: t)
                    (map (fun i => Idx i :: t) (seq 0 (List.length l)))).
    { apply in_map_iff. exists i. split; [reflexivity|].
      apply in_seq.
      assert (i < List.length l) by (apply nth_error_Some; congruence).
      lia. }
    specialize (Hp _ Hi). simpl in Hp. now rewrite Nat.eqb_refl in Hp.
Qed.

Lemma resize_templates_frame (m m' : value) (size : string) :
  StsResizer.resize_templates m size = Ok m' ->
  same_outside (storage_targets m) m m'.
Proof.
  intros H. apply resize_templates_ok in H. subst m'.
  unfold storage_targets.
  destruct (lookup m templates_path) as [[| | | |ts|]|] eqn:L;
    try apply same_outside_refl.
  destruct ts as [|t0 ts].
  - cbn [map List.length seq]. rewrite store_same by assumption.
    apply same_outside_refl.
  - rewrite <- (map_map (fun i => Idx i :: StsResizer.storage_path)
                        (app templates_path)).
    apply (same_outside_store templates_path _ m _ _ L).
    + discriminate.
    + apply same_outside_map; [discriminate|]. apply resized_frame.
Qed.

End Resize.

(* ================================================================== *)
(** * Runs of the two scripts *)

Section Quiet.

Lemma quiet_ret {A} (a : A) : quiet (ret a).
Proof. now intros w s. Qed.

Lemma quiet_lift {A} (r : result A) : quiet (lift r).
Proof. intros w s. unfold lift. now destruct r. Qed.

Lemma quiet_print (o : output) : quiet (print o).
Proof. now intros w s. Qed.

Lemma quiet_input : quiet input.
Proof.
  intros w s. unfold input. now destruct (stdin_line w (lines_read s)).
Qed.

Lemma quiet_backup (m : value) : quiet (StsResizer.create_backup m).
Proof.
  intros w s. unfold StsResizer.create_backup.
  now destruct (backup_writable w).
Qed.

Lemma quiet_bind {A B} (m : proc A) (k : A -> proc B) :
  quiet m -> (forall a, quiet (k a)) -> quiet (pbind m k).
Proof.
  intros Hm Hk w s. unfold pbind. specialize (Hm w s).
  destruct (m w s) as [[a| | |] s']; simpl in *; try assumption.
  now rewrite Hk.
Qed.

Lemma quiet_try (p : proc unit) : quiet p -> quiet (try_or_exit1 p).
Proof.
  intros H w s. unfold try_or_exit1. specialize (H w s).
  now destruct (p w s) as [[a| | |] s'].
Qed.

Lemma quiet_for_each_do (f : value -> proc unit) (items : list value) :
  (forall x, quiet (f x)) -> quiet (StsResizer.for_each_do f items).
Proof.
  intros Hf. induction items as [|x items IH]; simpl.
  - apply quiet_ret.
  - apply quiet_bind; auto.
Qed.

End Quiet.

Ltac quiet_tac :=
  repeat first
    [ apply quiet_ret | apply quiet_lift | apply quiet_print
    | apply quiet_input | apply quiet_backup
    | apply quiet_for_each_do; intros
    | apply quiet_bind; [|intros]
    | match goal with
      | |- quiet (if ?b then _ else _) => destruct b
      | |- quiet (match ?x with _ => _ end) => destruct x
      end ].

Section QuietSts.

Lemma quiet_note_inline_pvc (volume : value) :
  quiet (StsResizer.note_inline_pvc volume).
Proof. unfold StsResizer.note_inline_pvc. quiet_tac. Qed.

Lemma quiet_note_inline_pvcs (m : value) :
  quiet (StsResizer.note_inline_pvcs m).
Proof.
  unfold StsResizer.note_inline_pvcs. quiet_tac.
Qed.

(** [update_persistent_volume_size] runs no [kubectl]. *)
Lemma quiet_update_persistent_volume_size (m : value) (size : string) :
  quiet (StsResizer.update_persistent_volume_size m size).
Proof.
  unfold StsResizer.update_persistent_volume_size. quiet_tac.
Qed.

End QuietSts.

Section Calls.

Lemma calls_in_quiet {A} (p : proc A) : quiet p -> calls_in p [[]].
Proof.
  intros H w s. exists []. split; [now left|].
  now rewrite app_nil_r.
Qed.

Lemma calls_in_kubectl (c : kubectl_call) : calls_in (kubectl c) [[c]].
Proof.
  intros w s. exists [c]. split; [now left|].
  unfold kubectl. now destruct (kubectl_reply w _).
Qed.

Lemma calls_in_bind {A B} (m : proc A) (k : A -> proc B)
      (L1 L2 : list (list kubectl_call)) :
  calls_in m L1 -> (forall a, calls_in (k a) L2) ->
  calls_in (pbind m k) (then_calls L1 L2).
Proof.
  intros Hm Hk w s. unfold pbind, then_calls.
  destruct (Hm w s) as (l1 & I1 & E1).
  destruct (m w s) as [[a| | |] s1]; simpl in *;
    try (exists l1; split; [apply in_or_app; now left|assumption]).
  destruct (Hk a w s1) as (l2 & I2 & E2).
  exists (l1 ++ l2). split.
  - apply in_or_app. right. apply in_flat_map. exists l1. split; auto.
    now apply in_map.
  - now rewrite E2, E1, app_assoc.
Qed.

Lemma calls_in_try (p : proc unit) (L : list (list kubectl_call)) :
  calls_in p L -> calls_in (try_or_exit1 p) L.
Proof.
  intros H w s. destruct (H w s) as (l & I & E). exists l. split; auto.
  unfold try_or_exit1. now destruct (p w s) as [[a| | |] s'].
Qed.

Lemma calls_in_incl {A} (p : proc A) (L L' : list (list kubectl_call)) :
  incl L L' -> calls_in p L -> calls_in p L'.
Proof.
  intros Hi H w s. destruct (H w s) as (l & I & E). exists l. auto.
Qed.

Lemma pbind_return {A B} (m : proc A) (k : A -> proc B)
      (w : world) (s s' : state) (b : B) :
  pbind m k w s = (Return b, s') ->
  exists a s1, m w s = (Return a, s1) /\ k a w s1 = (Return b, s').
Proof.
  unfold pbind. destruct (m w s) as [[a| | |] s1]; try discriminate. eauto.
Qed.

Lemma try_return (p : proc unit) (w : world) (s s' : state) (b : unit) :
  try_or_exit1 p w s = (Return b, s') -> p w s = (Return b, s').
Proof.
  unfold try_or_exit1.
  destruct (p w s) as [[a| | |] s1]; try discriminate; auto.
Qed.

Lemma lift_return {A} (r : result A) (w : world) (s s' : state) (a : A) :
  lift r w s = (Return a, s') -> r = Ok a /\ s' = s.
Proof. unfold lift. destruct r; [|discriminate]. now intros [= <- <-]. Qed.

Lemma kubectl_return (c : kubectl_call) (w : world) (s s' : state)
      (out : value) :
  kubectl c w s = (Return out, s') ->
  kubectl_reply w (List.length (calls s)) = Some out
  /\ s' = after_call w c s.
Proof.
  unfold kubectl. destruct (kubectl_reply w _); [|discriminate].
  now intros [= <- <-].
Qed.

End Calls.

Section StsRuns.

Lemma calls_in_get_current_pods (a : StsResizer.args) :
  calls_in (StsResizer.get_current_pods (StsResizer.statefulset_name a)
                                        (StsResizer.namespace a))
           [[list_pods a]].
Proof.
  unfold StsResizer.get_current_pods.
  eapply calls_in_incl;
    [|apply (calls_in_bind _ _ [[list_pods a]] [[]]);
      [apply calls_in_kubectl|intros; apply calls_in_quiet; quiet_tac]].
  intros l Hl. simpl in Hl |- *. tauto.
Qed.

(** In a dry run [main] runs the fetch and, having cleaned the manifest,
    the pod listing; nothing else. *)
Lemma sts_dry_run_calls (a : StsResizer.args) :
  StsResizer.dry_run a = true ->
  calls_in (StsResizer.main a) [[fetch_sts a]; [fetch_sts a; list_pods a]].
Proof.
  intros Hd. unfold StsResizer.main. rewrite Hd.
  apply calls_in_try.
  eapply calls_in_incl;
    [|apply (calls_in_bind _ _ [[fetch_sts a]] [[]; [list_pods a]]);
      [apply calls_in_kubectl|]].
  { intros l Hl. simpl in Hl |- *. tauto. }
  intros manifest.
  eapply calls_in_incl;
    [|apply (calls_in_bind _ _ [[]] [[]; [list_pods a]]);
      [apply calls_in_quiet, quiet_backup|]].
  { intros l Hl. simpl in Hl |- *. tauto. }
  intros _.
  eapply calls_in_incl;
    [|apply (calls_in_bind _ _ [[]] [[list_pods a]]);
      [apply calls_in_quiet, quiet_lift|]].
  { intros l Hl. simpl in Hl |- *. tauto. }
  intros cleaned.
  eapply calls_in_incl;
    [|apply (calls_in_bind _ _ [[list_pods a]] [[]]);
      [apply calls_in_get_current_pods|]].
  { intros l Hl. simpl in Hl |- *. tauto. }
  intros pods. apply calls_in_quiet.
  quiet_tac; apply quiet_update_persistent_volume_size.
Qed.

Lemma print_return (o : output) w s u s' :
  print o w s = (Return u, s') -> printed s' = printed s ++ [o].
Proof. unfold print. now intros [= _ <-]. Qed.

Lemma update_pv_return (m : value) (size : string) w s m' s' :
  StsResizer.update_persistent_volume_size m size w s = (Return m', s') ->
  StsResizer.resize_templates m size = Ok m'.
Proof.
  unfold StsResizer.update_persistent_volume_size. intros H.
  apply pbind_return in H as (x & s1 & H1 & H).
  apply lift_return in H1 as [-> ->].
  apply pbind_return in H as (u & s2 & _ & H).
  now injection H as <- _.
Qed.

End StsRuns.

Section JobRuns.

(** One option without the other: the run ends before anything is
    fetched. *)
Lemma job_main_invalid (a : RerunJob.args) (w : world) (s : state) :
  args_valid a = false -> RerunJob.main a w s = (Exit 1, s).
Proof.
  unfold args_valid, RerunJob.main.
  destruct (opt_truthy (RerunJob.env_var_name a)),
    (opt_truthy (RerunJob.env_var_value a)); simpl; try discriminate;
    reflexivity.
Qed.

Lemma job_main_valid (a : RerunJob.args) :
  args_valid a = true ->
  RerunJob.main a =
  try_or_exit1
    (manifest <== RerunJob.get_job_manifest (RerunJob.job_name a)
                                            (RerunJob.namespace a) ;;
     updated_manifest <==
       lift (RerunJob.update_job_manifest manifest (RerunJob.env_var_name a)
                                          (RerunJob.env_var_value a)) ;;
     if RerunJob.dry_run a then
       print (Dump updated_manifest) ;;;
       print (Say "Dry run completed. No changes were made.")
     else
       RerunJob.delete_job (RerunJob.job_name a) (RerunJob.namespace a) ;;;
       RerunJob.apply_job_manifest updated_manifest (RerunJob.namespace a) ;;;
       if RerunJob.monitor a then
         RerunJob.check_job_status (RerunJob.job_name a)
                                   (RerunJob.namespace a)
                                   (RerunJob.timeout a) ;;;
         ret tt
       else ret tt).
Proof.
  unfold args_valid, RerunJob.main.
  destruct (opt_truthy (RerunJob.env_var_name a)),
    (opt_truthy (RerunJob.env_var_value a)); simpl; try discriminate;
    reflexivity.
Qed.

(** Whatever the cluster answers, a dry run of [main] runs the fetch at
    most. *)
Lemma job_dry_run_calls (a : RerunJob.args) :
  RerunJob.dry_run a = true ->
  calls_in (RerunJob.main a) [[]; [fetch_job a]].
Proof.
  intros Hd. destruct (args_valid a) eqn:V.
  - rewrite (job_main_valid a V), Hd. apply calls_in_try.
    eapply calls_in_incl;
      [|apply (calls_in_bind _ _ [[fetch_job a]] [[]]);
        [apply calls_in_kubectl|intros; apply calls_in_quiet; quiet_tac]].
    intros l Hl. simpl in Hl |- *. tauto.
  - intros w s. rewrite (job_main_invalid a w s V). exists []. split.
    + now left.
    + simpl. now rewrite app_nil_r.
Qed.

(** A dry run whose fetch and transform succeed prints the transformed
    manifest and returns. *)
Lemma job_dry_run_result (a : RerunJob.args) (w : world) (m m' : value) :
  RerunJob.dry_run a = true -> args_valid a = true ->
  kubectl_reply w 0 = Some m ->
  RerunJob.update_job_manifest m (RerunJob.env_var_name a)
                               (RerunJob.env_var_value a) = Ok m' ->
  RerunJob.main a w initial
  = (Return tt,
     {| calls := [fetch_job a];
        clock := Z.of_nat (kubectl_seconds w 0);
        lines_read := 0; backups := [];
        printed := [Dump m'; dry_run_line] |}).
Proof.
  intros Hd V Hm Hu. rewrite (job_main_valid a V), Hd.
  unfold try_or_exit1, pbind, RerunJob.get_job_manifest,
    run_kubectl_command, kubectl. simpl. rewrite Hm, Hu. reflexivity.
Qed.

(** A transform that raises ends the run with status 1 after the fetch. *)
Lemma job_main_transform_fails (a : RerunJob.args) (w : world) (m : value)
      (e : exn) :
  args_valid a = true -> kubectl_reply w 0 = Some m ->
  RerunJob.update_job_manifest m (RerunJob.env_var_name a)
                               (RerunJob.env_var_value a) = Raise e ->
  RerunJob.main a w initial
  = (Exit 1, after_call w (fetch_job a) initial).
Proof.
  intros V Hm Hu. rewrite (job_main_valid a V).
  unfold try_or_exit1, pbind, RerunJob.get_job_manifest,
    run_kubectl_command, kubectl. simpl. rewrite Hm, Hu. reflexivity.
Qed.

End JobRuns.

(* ================================================================== *)
(** * The poller *)

Section Poll.

Variables (w : world) (job ns : string) (start T : Z).

Local Open Scope Z_scope.

Local Abbreviation poll fuel := (RerunJob.poll fuel job ns start T w).
Local Abbreviation call := (status_call job ns).

(** One iteration of the loop. *)
Lemma poll_unfold (fuel : nat) (s : state) :
  poll (S fuel) s =
  if Z.ltb (clock s - start) T then
    match kubectl_reply w (List.length (calls s)) with
    | None => (Exit 1, after_call w call s)
    | Some reply =>
        match RerunJob.classify reply with
        | Raise e => (Except e, after_call w call s)
        | Ok (Some v) => (Return v, after_call w call s)
        | Ok None => poll fuel (slept 10 (after_call w call s))
        end
    end
  else (Return RerunJob.TimedOut, s).
Proof.
  cbn [RerunJob.poll]. unfold pbind at 1. unfold time_time at 1.
  destruct (Z.ltb (clock s - start) T); [|reflexivity].
  unfold pbind at 1. unfold run_kubectl_command, kubectl at 1.
  fold call.
  destruct (kubectl_reply w (List.length (calls s))) as [reply|];
    [|reflexivity].
  unfold pbind at 1. unfold lift at 1.
  destruct (RerunJob.classify reply) as [[v|]|e]; reflexivity.
Qed.

Lemma poll_timed_out (fuel : nat) (s : state) :
  T <= clock s - start -> poll fuel s = (Return RerunJob.TimedOut, s).
Proof.
  intros H. assert (E : Z.ltb (clock s - start) T = false)
    by (apply Z.ltb_ge; lia).
  destruct fuel; [|now rewrite poll_unfold, E].
  cbn [RerunJob.poll]. unfold pbind, time_time. now rewrite E.
Qed.

(** With a unit of fuel for each second still to go, the loop never runs
    out of fuel. *)
Lemma poll_total (fuel : nat) (s : state) :
  T - (clock s - start) <= Z.of_nat fuel ->
  fst (poll fuel s) <> OutOfFuel.
Proof.
  revert s; induction fuel as [|fuel IH]; intros s H.
  - rewrite poll_timed_out by lia. discriminate.
  - rewrite poll_unfold.
    destruct (Z.ltb (clock s - start) T); [|discriminate].
    destruct (kubectl_reply w _) as [reply|]; [|discriminate].
    destruct (RerunJob.classify reply) as [[v|]|e]; try discriminate.
    apply IH. simpl. lia.
Qed.

Lemma classify_read (c : counts) :
  RerunJob.classify (status_read c) =
  Ok (if Z.ltb 0 (succeeded c) then Some RerunJob.Completed
      else if Z.ltb 0 (failed c) then Some RerunJob.Failed
           else None).
Proof.
  unfold RerunJob.classify, status_read. simpl.
  destruct (Z.ltb 0 (succeeded c)); [reflexivity|]. simpl.
  now destruct (Z.ltb 0 (failed c)).
Qed.

Lemma classify_running (c : counts) :
  running c = true -> RerunJob.classify (status_read c) = Ok None.
Proof.
  unfold running. rewrite classify_read.
  destruct (Z.ltb 0 (succeeded c)); [discriminate|].
  now destruct (Z.ltb 0 (failed c)).
Qed.

(** [k] reads of a running job, each begun before the ceiling, are [k]
    iterations. *)
Lemma poll_reads (k : nat) :
  forall (reads : nat -> counts) (fuel : nat) (s : state),
    (forall j, (j < k)%nat ->
               kubectl_reply w (List.length (calls s) + j)%nat
               = Some (status_read (reads j))
               /\ running (reads j) = true
               /\ clock s - start + elapsed w (List.length (calls s)) j < T) ->
    poll (k + fuel)%nat s = poll fuel (after_reads w call k s).
Proof.
  induction k as [|k IH]; intros reads fuel s H; [reflexivity|].
  cbn [Nat.add after_reads]. rewrite poll_unfold.
  destruct (H 0%nat ltac:(lia)) as (R0 & C0 & T0).
  rewrite Nat.add_0_r in R0. cbn [elapsed] in T0.
  assert (E : Z.ltb (clock s - start) T = true) by (apply Z.ltb_lt; lia).
  rewrite E, R0, (classify_running _ C0).
  apply (IH (fun j => reads (S j))). intros j Hj.
  destruct (H (S j) ltac:(lia)) as (R & C & Tj).
  cbn [slept after_call calls clock]. rewrite length_app.
  cbn [List.length]. repeat split.
  - rewrite <- R. f_equal. lia.
  - exact C.
  - cbn [elapsed] in Tj. rewrite Nat.add_1_r. lia.
Qed.

Lemma calls_after_reads (k : nat) (s : state) :
  calls (after_reads w call k s) = calls s ++ repeat call k.
Proof.
  revert s; induction k as [|k IH]; intros s; simpl.
  - now rewrite app_nil_r.
  - rewrite IH. simpl. now rewrite <- app_assoc.
Qed.

Lemma clock_after_reads (k : nat) (s : state) :
  clock (after_reads w call k s)
  = clock s + elapsed w (List.length (calls s)) k.
Proof.
  revert s; induction k as [|k IH]; intros s; simpl.
  - lia.
  - rewrite IH. simpl. rewrite length_app. simpl.
    rewrite Nat.add_1_r. lia.
Qed.

Lemma printed_after_reads (k : nat) (s : state) :
  printed (after_reads w call k s) = printed s.
Proof.
  revert s; induction k as [|k IH]; intros s; simpl; [reflexivity|].
  now rewrite IH.
Qed.

Lemma elapsed_lower (n0 k : nat) : 10 * Z.of_nat k <= elapsed w n0 k.
Proof.
  revert n0; induction k as [|k IH]; intros n0; simpl elapsed; [lia|].
  specialize (IH (S n0)). lia.
Qed.

Lemma elapsed_mono (n0 j k : nat) :
  (j <= k)%nat -> elapsed w n0 j <= elapsed w n0 k.
Proof.
  revert n0 j; induction k as [|k IH]; intros n0 [|j] H; simpl elapsed;
    try lia.
  - pose proof (elapsed_lower (S n0) k). lia.
  - specialize (IH (S n0) j). lia.
Qed.

End Poll.

(* ================================================================== *)
(** * The monitor as a whole *)

Section Monitor.

Variables (w : world) (job ns : string) (minutes : Z).

Local Abbreviation T := (minutes * 60)%Z.
Local Abbreviation call := (status_call job ns).

Lemma check_job_status_unfold (s : state) :
  RerunJob.check_job_status job ns minutes w s
  = match RerunJob.poll (Z.to_nat T) job ns (clock s) T w s with
    | (Return v, s') =>
        (Return v, said (Say (RerunJob.verdict_line minutes v)) s')
    | (Except e, s') => (Except e, s')
    | (Exit c, s') => (Exit c, s')
    | (OutOfFuel, s') => (OutOfFuel, s')
    end.
Proof.
  unfold RerunJob.check_job_status, pbind, time_time, print, ret.
  destruct (RerunJob.poll _ _ _ _ _ w s) as [[v|e|c|] s']; reflexivity.
Qed.

Lemma enough_fuel (s : state) (reads : nat -> counts) (k : nat) :
  still_running w T s reads k -> exists f, Z.to_nat T = (k + f)%nat.
Proof.
  intros H. exists (Z.to_nat T - k)%nat.
  destruct k as [|j]; [lia|].
  destruct (H j (Nat.lt_succ_diag_r j)) as (_ & _ & L).
  pose proof (elapsed_lower w (List.length (calls s)) j). lia.
Qed.

Lemma poll_gives_up (s : state) (reads : nat -> counts) (k : nat) :
  still_running w T s reads k ->
  (T <= elapsed w (List.length (calls s)) k)%Z ->
  RerunJob.poll (Z.to_nat T) job ns (clock s) T w s
  = (Return RerunJob.TimedOut, after_reads w call k s).
Proof.
  intros H Hk. destruct (enough_fuel s reads k H) as [f ->].
  rewrite (poll_reads w job ns (clock s) T k reads f s).
  - apply poll_timed_out. rewrite clock_after_reads. lia.
  - intros j Hj. destruct (H j Hj) as (A & B & C). repeat split; trivial. lia.
Qed.

Lemma poll_verdict (s : state) (reads : nat -> counts) (k : nat) :
  still_running w T s reads k ->
  (elapsed w (List.length (calls s)) k < T)%Z ->
  kubectl_reply w (List.length (calls s) + k) = Some (status_read (reads k)) ->
  running (reads k) = false ->
  RerunJob.poll (Z.to_nat T) job ns (clock s) T w s
  = (Return (verdict_of (reads k)),
     after_call w call (after_reads w call k s)).
Proof.
  intros H Hk Rk Nk.
  assert (F : exists f, Z.to_nat T = (k + S f)%nat).
  { exists (Z.to_nat T - S k)%nat.
    pose proof (elapsed_lower w (List.length (calls s)) k). lia. }
  destruct F as [f ->].
  rewrite (poll_reads w job ns (clock s) T k reads (S f) s).
  - rewrite poll_unfold, clock_after_reads.
    replace (clock s + elapsed w (List.length (calls s)) k - clock s)%Z
      with (elapsed w (List.length (calls s)) k) by lia.
    apply Z.ltb_lt in Hk. rewrite Hk.
    rewrite calls_after_reads, length_app, repeat_length, Rk, classify_read.
    unfold running in Nk. unfold verdict_of.
    destruct (Z.ltb 0 (succeeded (reads k))); [reflexivity|].
    destruct (Z.ltb 0 (failed (reads k))); [reflexivity|discriminate].
  - intros j Hj. destruct (H j Hj) as (A & B & C). repeat split; trivial. lia.
Qed.

Lemma check_job_status_total (s : state) :
  fst (RerunJob.check_job_status job ns minutes w s) <> OutOfFuel.
Proof.
  rewrite check_job_status_unfold.
  pose proof (poll_total w job ns (clock s) T (Z.to_nat T) s) as P.
  destruct (RerunJob.poll _ _ _ _ _ w s) as [[v|e|c|] s']; simpl in *;
    try discriminate.
  apply P. lia.
Qed.

End Monitor.

(* ================================================================== *)
(** * Manifests the job transform rejects *)

Lemma lookup_key_inv (m x : value) (k : string) (p : path) :
  lookup m (Key k :: p) = Some x ->
  exists c, Py.getitem m k = Ok c /\ lookup c p = Some x.
Proof.
  change (Key k :: p) with ([Key k] ++ p). rewrite lookup_app.
  destruct (lookup m [Key k]) as [c|] eqn:E; [|discriminate].
  intros H. exists c. split; [now apply getitem_at|assumption].
Qed.

Lemma mutate_no_containers (m cs : value) (n v : option string) :
  lookup m RerunJob.containers_path = Some cs ->
  Py.truthy cs = false ->
  RerunJob.mutate m n v
  = Raise (ValueError "No containers found in job manifest").
Proof.
  unfold RerunJob.containers_path, RerunJob.mutate. intros H Hc.
  apply lookup_key_inv in H as (c1 & -> & H).
  apply lookup_key_inv in H as (c2 & E2 & H).
  apply lookup_key_inv in H as (c3 & E3 & H).
  apply lookup_key_inv in H as (c4 & E4 & H).
  cbn [bind]. rewrite E2. cbn [bind]. rewrite E3. cbn [bind].
  rewrite E4. cbn [bind]. cbn [lookup] in H. injection H as ->.
  now rewrite Hc.
Qed.

Lemma update_job_manifest_no_containers (m cs : value)
      (n v : option string) :
  lookup m RerunJob.containers_path = Some cs ->
  Py.truthy cs = false ->
  RerunJob.update_job_manifest m n v
  = Raise (ValueError "No containers found in job manifest").
Proof.
  intros H Hc. unfold RerunJob.update_job_manifest.
  now rewrite (mutate_no_containers m cs n v H Hc).
Qed.

(* ================================================================== *)
(** * The environment upsert *)

Lemma getitem0_cons (c : value) (rest : list value) :
  Py.getitem0 (VList (c :: rest)) = Ok c.
Proof. reflexivity. Qed.

Lemma mutate_no_env (m : value) (cd : dict) (img n v : string) :
  lookup m first_container = Some (VDict cd) ->
  Dict.get "image" cd = Some (VStr img) ->
  Dict.get "env" cd = None ->
  PyStr.truthy n = true -> PyStr.truthy v = true ->
  RerunJob.mutate m (Some n) (Some v) = Raise (KeyError "env").
Proof.
  unfold first_container, RerunJob.containers_path, RerunJob.mutate.
  intros H Gi Ge Tn Tv.
  apply lookup_key_inv in H as (c1 & -> & H).
  apply lookup_key_inv in H as (c2 & E2 & H).
  apply lookup_key_inv in H as (c3 & E3 & H).
  apply lookup_key_inv in H as (c4 & E4 & H).
  cbn [bind]. rewrite E2. cbn [bind]. rewrite E3. cbn [bind].
  rewrite E4. cbn [bind].
  destruct c4 as [| | | |l|]; try discriminate.
  destruct l as [|c rest]; [discriminate|].
  cbn [lookup nth_error] in H. injection H as ->.
  cbn [Py.truthy negb Py.getitem0 nth_error bind].
  unfold RerunJob.update_image. cbn [Py.getitem bind]. rewrite Gi.
  cbn [bind]. rewrite latest_image_str. cbn [bind Py.setitem opt_truthy].
  rewrite Tn, Tv. cbn [andb].
  rewrite update_env_no_env; [reflexivity|].
  rewrite get_set. exact Ge.
Qed.

(** ** Characters and items *)

Lemma append_nil_r (s : string) : (s ++ "")%string = s.
Proof. induction s as [|a s IH]; cbn; [reflexivity|now rewrite IH]. Qed.

Lemma append_assoc (s t u : string) :
  ((s ++ t) ++ u)%string = (s ++ t ++ u)%string.
Proof. induction s as [|a s IH]; cbn; [reflexivity|now rewrite IH]. Qed.

(** The first character of a text begins with its first byte. *)
Lemma chars_head (a : ascii) (r : string) :
  exists c cs, PyStr.chars (String a r) = String a c :: cs.
Proof.
  cbn [PyStr.chars]. destruct (PyStr.chars r) as [|[|b c] cs]; eauto.
  destruct (PyStr.is_continuation b); eauto.
Qed.

Lemma joined_chars (s : string) : PyStr.joined (PyStr.chars s) = s.
Proof.
  induction s as [|a s IH]; [reflexivity|]. cbn [PyStr.chars].
  destruct (PyStr.chars s) as [|[|b c] cs]; cbn [PyStr.joined] in *;
    try (now rewrite <- IH).
  destruct (PyStr.is_continuation b); cbn [PyStr.joined String.append];
    now rewrite <- IH.
Qed.

(** The characters of two texts put together, the second beginning with
    a character. *)
Lemma chars_app (s t : string) :
  starts_char t = true ->
  PyStr.chars (s ++ t) = PyStr.chars s ++ PyStr.chars t.
Proof.
  intros Ht. induction s as [|a s IH]; [reflexivity|].
  cbn [String.append]. cbn [PyStr.chars]. rewrite IH.
  destruct s as [|a' s'].
  - cbn [PyStr.chars app]. destruct t as [|b r]; [reflexivity|].
    destruct (chars_head b r) as (c & cs & ->).
    cbn [starts_char] in Ht. apply negb_true_iff in Ht. now rewrite Ht.
  - destruct (chars_head a' s') as (c & cs & ->). cbn [app].
    now destruct (PyStr.is_continuation a').
Qed.

Lemma split_ws_aux_plain (cs : list string) (cur : string) :
  existsb PyStr.isspace cs = false ->
  PyStr.split_ws_aux cs cur
  = if String.eqb (cur ++ PyStr.joined cs) "" then []
    else [(cur ++ PyStr.joined cs)%string].
Proof.
  revert cur. induction cs as [|c cs IH]; intros cur H;
    cbn [PyStr.split_ws_aux PyStr.joined].
  - now rewrite append_nil_r.
  - cbn [existsb] in H. apply orb_false_iff in H as [Hc Hcs]. rewrite Hc.
    now rewrite (IH _ Hcs), append_assoc.
Qed.

Lemma split_ws_token (v : string) :
  is_token v = true -> PyStr.split_ws v = [v].
Proof.
  unfold is_token, PyStr.split_ws, has_whitespace. intros H.
  apply andb_true_iff in H as [H Hw]. apply andb_true_iff in H as [Hn _].
  apply negb_true_iff in Hn, Hw.
  rewrite (split_ws_aux_plain _ _ Hw). cbn [String.append].
  now rewrite joined_chars, Hn.
Qed.

Lemma split_ws_aux_last (cs : list string) (v cur : string) :
  is_token v = true ->
  In v (PyStr.split_ws_aux (cs ++ " "%string :: PyStr.chars v) cur).
Proof.
  intros Hv. revert cur.
  induction cs as [|c cs IH]; intros cur; cbn [app PyStr.split_ws_aux].
  - change (PyStr.isspace " ") with true. cbn iota.
    change (PyStr.split_ws_aux (PyStr.chars v) "") with (PyStr.split_ws v).
    rewrite (split_ws_token v Hv).
    destruct (String.eqb cur ""); cbn; auto.
  - destruct (PyStr.isspace c); [|apply IH].
    destruct (String.eqb cur ""); [apply IH|right; apply IH].
Qed.

Lemma split_ws_last (s v : string) :
  is_token v = true -> In v (PyStr.split_ws (s ++ String " " v)%string).
Proof.
  intros Hv. unfold PyStr.split_ws.
  assert (Sv : starts_char v = true).
  { unfold is_token in Hv. apply andb_true_iff in Hv as [Hv _].
    now apply andb_true_iff in Hv as [_ Hv]. }
  rewrite (chars_app s (String " " v) eq_refl).
  change (String " " v) with (" " ++ v)%string.
  rewrite (chars_app " " v Sv).
  now apply split_ws_aux_last.
Qed.

Lemma space_merge_again (cur v w : string) :
  is_token v = true ->
  PyStr.has_char " " cur = true ->
  space_merge cur v = Some w -> space_merge w v = None.
Proof.
  intros Hv Hc. unfold space_merge at 1. rewrite Hc.
  destruct (existsb _ _) eqn:E; [discriminate|]. intros [= <-].
  unfold space_merge.
  rewrite has_char_app. cbn [PyStr.has_char String.append].
  change (Ascii.eqb " " " ") with true. rewrite orb_true_r. cbn [orb].
  assert (X : existsb (String.eqb v) (PyStr.split_ws (cur ++ " " ++ v)%string)
              = true).
  { apply existsb_exists. exists v. split; [|apply String.eqb_refl].
    apply split_ws_last, Hv. }
  change (" " ++ v)%string with (String " " v) in X. now rewrite X.
Qed.

Lemma update_env_existing (cd ed : dict) (pre post : list value)
      (x : value) (n v cur : string) :
  Dict.get "env" cd = Some (VList (pre ++ VDict ed :: post)) ->
  Forall (other_name n) pre ->
  Dict.get "name" ed = Some x -> Py.eq_str x n = true ->
  Dict.get "value" ed = Some (VStr cur) ->
  RerunJob.update_env (VDict cd) n v
  = Ok (with_value cd ed pre post (space_merge cur v)).
Proof.
  intros. unfold with_value, space_merge.
  now rewrite (update_env_merges cd ed pre post x n v cur).
Qed.

Lemma update_env_again (cd ed : dict) (pre post : list value)
      (x : value) (n v cur : string) (c' : value) :
  Dict.get "env" cd = Some (VList (pre ++ VDict ed :: post)) ->
  Forall (other_name n) pre ->
  Dict.get "name" ed = Some x -> Py.eq_str x n = true ->
  Dict.get "value" ed = Some (VStr cur) ->
  PyStr.has_char " " cur = true -> is_token v = true ->
  RerunJob.update_env (VDict cd) n v = Ok c' ->
  RerunJob.update_env c' n v = Ok c'.
Proof.
  intros He Hp Hn Hx Hv Hs Ht H.
  rewrite (update_env_existing cd ed pre post x n v cur He Hp Hn Hx Hv) in H.
  injection H as <-.
  destruct (space_merge cur v) as [w|] eqn:E; cbn [with_value].
  - rewrite (update_env_existing _ (Dict.set "value" (VStr w) ed) pre post
               x n v w).
    + rewrite (space_merge_again cur v w Ht Hs E). reflexivity.
    + now rewrite get_set.
    + assumption.
    + now rewrite get_set.
    + assumption.
    + now rewrite get_set.
  - rewrite (update_env_existing cd ed pre post x n v cur He Hp Hn Hx Hv).
    now rewrite E.
Qed.

(** The whitespace [str.split] and [str.strip] know is that of Unicode:
    a no-break space separates items and is stripped, as U+3000 is. *)
Lemma unicode_whitespace :
  PyStr.split_ws ("a b" ++ Sample.nbsp ++ "c") = ["a"; "b"; "c"]%string
  /\ PyStr.strip ("yes" ++ Sample.nbsp) = "yes"%string
  /\ PyStr.strip (" 80Gi" ++ Sample.nbsp) = "80Gi"%string
  /\ PyStr.truthy (PyStr.strip Sample.nbsp) = false
  /\ PyStr.strip (PyStr.of_bytes [227; 128; 128; 121; 194; 133]) = "y"%string
  /\ says_yes (" Yes" ++ Sample.nbsp) = true
  /\ is_token ("c" ++ Sample.nbsp ++ "d") = false
  /\ space_merge ("a b" ++ Sample.nbsp ++ "c") "c" = None.
Proof. vm_compute. repeat split. Qed.

(* ================================================================== *)
(** * The two pipelines *)

Ltac in_list := repeat first [ left; reflexivity | right ].

Lemma job_removals_listed (m : value) :
  incl (map site_path (job_removals_of m))
       (map site_path (listed_removals JobKind)
        ++ [[Key "matchLabels"]; [Key "selector"]]).
Proof.
  intros p H. unfold job_removals_of in H.
  destruct (has m [Key "metadata"]);
    cbv [job_removals job_top_level_removals job_metadata_fields under map
         app site_path fst snd last_applied] in H;
    repeat (destruct H as [<-|H]; [cbv; in_list|]); contradiction.
Qed.

Lemma sts_removals_listed :
  incl (map site_path sts_removals)
       (map site_path (listed_removals ReplicaSetKind)).
Proof.
  intros p H.
  cbv in H.
  repeat (destruct H as [<-|H]; [cbv; in_list|]); contradiction.
Qed.

Lemma storage_targets_apart (m : value) (k : string) (p : path) :
  String.eqb "volumeClaimTemplates" k = false ->
  outside (storage_targets m) (Key "spec" :: Key k :: p) = true.
Proof.
  intros Hk. unfold storage_targets, outside.
  destruct (lookup m templates_path) as [[| | | |ts|]|]; try reflexivity.
  apply forallb_forall. intros t Ht. apply in_map_iff in Ht as (i & <- & _).
  unfold templates_path. cbn [app apartb step_eqb].
  change (String.eqb "spec" "spec") with true. cbn iota.
  now rewrite Hk.
Qed.

Lemma storage_targets_cleaned (m : value) :
  storage_targets (sts_cleaned m) = storage_targets m.
Proof.
  unfold storage_targets.
  now rewrite (sts_frame m templates_path eq_refl).
Qed.

Lemma sts_transform_frame (m m' : value) (size : option string) :
  sts_transform m size = Ok m' ->
  same_outside (map site_path sts_removals
                ++ match size with
                   | Some _ => storage_targets m
                   | None => []
                   end) m m'.
Proof.
  unfold sts_transform. intros H.
  apply bind_ok in H as (c & Hc & H).
  apply clean_manifest_spec in Hc as [_ ->].
  destruct size as [sz|].
  - apply (same_outside_trans _ _ m (sts_cleaned m) m'); [apply sts_frame|].
    rewrite <- storage_targets_cleaned.
    exact (resize_templates_frame _ _ _ H).
  - injection H as <-. rewrite app_nil_r. apply sts_frame.
Qed.

Lemma sts_transform_containers (m m' : value) (size : option string) :
  sts_transform m size = Ok m' ->
  lookup m' RerunJob.containers_path = lookup m RerunJob.containers_path.
Proof.
  intros H. apply (sts_transform_frame _ _ _ H).
  unfold outside. rewrite forallb_app. apply andb_true_iff. split.
  - reflexivity.
  - destruct size; [|reflexivity].
    now apply storage_targets_apart.
Qed.

(** ** The resize on plain templates *)

Lemma dict_if_any_key (d : dict) (k : string) (q : path) :
  dict_if_any (VDict d) (Key k :: q) =
  match Dict.get k d with
  | Some c => dict_if_any c q
  | None => true
  end.
Proof.
  unfold dict_if_any, has, dict_at. cbn [lookup].
  destruct (Dict.get k d); reflexivity.
Qed.

Lemma contains_key (k : string) (d : dict) :
  Py.contains k (VDict d)
  = Ok (match Dict.get k d with Some _ => true | None => false end).
Proof. reflexivity. Qed.

Lemma resize_template_returns (size : string) (t : value) :
  plain_template t = true ->
  exists t', StsResizer.resize_template size t = Ok t'.
Proof.
  unfold plain_template. intros H.
  apply andb_true_iff in H as [H H3]. apply andb_true_iff in H as [H H2].
  apply andb_true_iff in H as [H0 H1].
  apply dict_at_inv in H0 as [d H0]. cbn [lookup] in H0. injection H0 as ->.
  rewrite dict_if_any_key in H1, H2, H3.
  unfold StsResizer.resize_template.
  rewrite contains_key. cbn [bind Py.getitem].
  destruct (Dict.get "spec" d) as [sp|] eqn:Es; cbn [bind]; [|eauto].
  unfold dict_if_any in H1. cbn [has dict_at lookup negb orb] in H1.
  destruct sp as [| | | | |sd]; try discriminate.
  rewrite dict_if_any_key in H2, H3.
  rewrite contains_key. cbn [bind Py.getitem].
  destruct (Dict.get "resources" sd) as [rs|] eqn:Er; cbn [bind]; [|eauto].
  unfold dict_if_any in H2. cbn [has dict_at lookup negb orb] in H2.
  destruct rs as [| | | | |rd]; try discriminate.
  rewrite dict_if_any_key in H3.
  rewrite contains_key. cbn [bind Py.getitem].
  destruct (Dict.get "requests" rd) as [rq|] eqn:Eq; cbn [bind]; [|eauto].
  unfold dict_if_any in H3. cbn [has dict_at lookup negb orb] in H3.
  destruct rq as [| | | | |qd]; try discriminate.
  rewrite contains_key. cbn [bind Py.getitem].
  destruct (Dict.get "storage" qd) as [st|] eqn:Et; cbn [bind Py.setitem];
    eauto.
Qed.

Lemma resize_template_plain (size : string) (t : value) :
  plain_template t = true ->
  StsResizer.resize_template size t = Ok (resized size t).
Proof.
  intros H. destruct (resize_template_returns size t H) as [t' E].
  now rewrite E, (resize_template_ok _ _ _ E).
Qed.

Lemma for_each_map (f : value -> result value) (g : value -> value)
      (l : list value) :
  Forall (fun x => f x = Ok (g x)) l ->
  StsResizer.for_each f l = Ok (map g l).
Proof.
  induction 1 as [|x l Hx _ IH]; cbn [StsResizer.for_each map];
    [reflexivity|].
  now rewrite Hx, IH.
Qed.

Lemma resize_templates_plain (m : value) (size : string) :
  plain_templates m = true ->
  StsResizer.resize_templates m size
  = Ok match lookup m templates_path with
       | Some (VList ts) =>
           store m templates_path (VList (map (resized size) ts))
       | _ => m
       end.
Proof.
  unfold plain_templates. intros H.
  apply andb_true_iff in H as [H H2]. apply andb_true_iff in H as [H0 H1].
  apply dict_at_inv in H0 as [d H0]. cbn [lookup] in H0. injection H0 as ->.
  rewrite dict_if_any_key in H1.
  unfold StsResizer.resize_templates, StsResizer.deep_copy, templates_path
    in *.
  rewrite contains_key. cbn [bind Py.getitem lookup] in *.
  destruct (Dict.get "spec" d) as [sp|] eqn:Es; cbn [bind]; [|reflexivity].
  unfold dict_if_any in H1. cbn [has dict_at lookup negb orb] in H1.
  destruct sp as [| | | | |sd]; try discriminate.
  rewrite contains_key. cbn [bind Py.getitem lookup] in *.
  destruct (Dict.get "volumeClaimTemplates" sd) as [ts|] eqn:Et;
    cbn [bind]; [|reflexivity].
  destruct ts as [| | | |ts|]; try discriminate.
  cbn [Py.iter bind].
  rewrite (for_each_map _ (resized size)); [reflexivity|].
  apply Forall_forall. intros t Ht. apply resize_template_plain.
  rewrite forallb_forall in H2. now apply H2.
Qed.

(* ================================================================== *)
(** * Runs, step by step *)

Lemma pbind_step {A B} (m : proc A) (k : A -> proc B) (w : world)
      (s s1 : state) (a : A) :
  m w s = (Return a, s1) -> pbind m k w s = k a w s1.
Proof. intros H. unfold pbind. now rewrite H. Qed.

Lemma pbind_exit {A B} (m : proc A) (k : A -> proc B) (w : world)
      (s s1 : state) (c : Z) :
  m w s = (Exit c, s1) -> pbind m k w s = (Exit c, s1).
Proof. intros H. unfold pbind. now rewrite H. Qed.

Lemma pbind_except {A B} (m : proc A) (k : A -> proc B) (w : world)
      (s s1 : state) (e : exn) :
  m w s = (Except e, s1) -> pbind m k w s = (Except e, s1).
Proof. intros H. unfold pbind. now rewrite H. Qed.

Lemma said_all_cons (o : output) (l : list output) (s : state) :
  said_all (o :: l) s = said_all l (said o s).
Proof. reflexivity. Qed.

Lemma said_all_app (l1 l2 : list output) (s : state) :
  said_all (l1 ++ l2) s = said_all l2 (said_all l1 s).
Proof. apply fold_left_app. Qed.

Lemma calls_said_all (l : list output) (s : state) :
  calls (said_all l s) = calls s.
Proof.
  revert s; induction l as [|o l IH]; intros s; [reflexivity|].
  rewrite said_all_cons. now rewrite (IH (said o s)).
Qed.

Lemma lines_read_said_all (l : list output) (s : state) :
  lines_read (said_all l s) = lines_read s.
Proof.
  revert s; induction l as [|o l IH]; intros s; [reflexivity|].
  rewrite said_all_cons. now rewrite (IH (said o s)).
Qed.

Lemma printed_said_all (l : list output) (s : state) :
  printed (said_all l s) = printed s ++ l.
Proof.
  revert s; induction l as [|o l IH]; intros s.
  - cbn. now rewrite app_nil_r.
  - rewrite said_all_cons, (IH (said o s)). cbn [said printed].
    now rewrite <- app_assoc.
Qed.

(** ** The notes on inline volumes *)

Lemma note_inline_pvc_plain (v : value) (w : world) (s : state) :
  plain_volume v = true ->
  StsResizer.note_inline_pvc v w s = (Return tt, said_all (note_of v) s).
Proof.
  unfold plain_volume. intros H. apply andb_true_iff in H as [H0 H1].
  apply dict_at_inv in H0 as [d H0]. cbn [lookup] in H0. injection H0 as ->.
  rewrite dict_if_any_key in H1.
  unfold StsResizer.note_inline_pvc, note_of. rewrite contains_key.
  cbn [lookup Py.getitem].
  destruct (Dict.get "persistentVolumeClaim" d) as [pvc|] eqn:Ep;
    [|reflexivity].
  unfold dict_if_any in H1. cbn [has dict_at lookup negb orb] in H1.
  destruct pvc as [| | | | |pd]; try discriminate.
  unfold pbind at 1. cbn [lift]. unfold pbind at 1. cbn [lift].
  rewrite contains_key. unfold pbind at 1. cbn [lift lookup Py.getitem].
  destruct (Dict.get "claimName" pd) as [name|] eqn:En; reflexivity.
Qed.

Lemma for_each_do_notes (vs : list value) (w : world) (s : state) :
  forallb plain_volume vs = true ->
  StsResizer.for_each_do StsResizer.note_inline_pvc vs w s
  = (Return tt, said_all (flat_map note_of vs) s).
Proof.
  revert s; induction vs as [|v vs IH]; intros s H; [reflexivity|].
  cbn [forallb] in H. apply andb_true_iff in H as [Hv H].
  cbn [StsResizer.for_each_do flat_map].
  rewrite (pbind_step _ _ w s _ tt (note_inline_pvc_plain v w s Hv)).
  now rewrite (IH _ H), said_all_app.
Qed.

Lemma note_inline_pvcs_plain (m : value) (w : world) (s : state) :
  plain_volumes m = true ->
  StsResizer.note_inline_pvcs m w s = (Return tt, said_all (notes_of m) s).
Proof.
  unfold plain_volumes. intros H.
  apply andb_true_iff in H as [H H4]. apply andb_true_iff in H as [H H3].
  apply andb_true_iff in H as [H H2]. apply andb_true_iff in H as [H0 H1].
  apply dict_at_inv in H0 as [d H0]. cbn [lookup] in H0. injection H0 as ->.
  rewrite dict_if_any_key in H1, H2, H3.
  unfold notes_of, volumes_path in *. cbn [lookup] in *.
  unfold StsResizer.note_inline_pvcs, pbind, lift, ret.
  cbn [Py.contains Py.getitem]. unfold Dict.mem.
  destruct (Dict.get "spec" d) as [sp|] eqn:Es; [|reflexivity].
  unfold dict_if_any in H1. cbn [has dict_at lookup negb orb] in H1.
  destruct sp as [| | | | |sd]; try discriminate.
  rewrite dict_if_any_key in H2, H3.
  cbn [Py.contains Py.getitem]. unfold Dict.mem.
  destruct (Dict.get "template" sd) as [tp|] eqn:Et; [|reflexivity].
  unfold dict_if_any in H2. cbn [has dict_at lookup negb orb] in H2.
  destruct tp as [| | | | |td]; try discriminate.
  rewrite dict_if_any_key in H3.
  cbn [Py.contains Py.getitem]. unfold Dict.mem.
  destruct (Dict.get "spec" td) as [ps|] eqn:Ep; [|reflexivity].
  unfold dict_if_any in H3. cbn [has dict_at lookup negb orb] in H3.
  destruct ps as [| | | | |pd]; try discriminate.
  cbn [Py.contains Py.getitem]. unfold Dict.mem.
  destruct (Dict.get "volumes" pd) as [vs|] eqn:Ev; [|reflexivity].
  destruct vs as [| | | |vs|]; try discriminate.
  cbn [Py.iter].
  now apply for_each_do_notes.
Qed.

(** ** The resize as a whole *)

Lemma store_templates_volumes (m old x : value) :
  lookup m templates_path = Some old ->
  plain_volumes (store m templates_path x) = plain_volumes m
  /\ notes_of (store m templates_path x) = notes_of m.
Proof.
  intros L.
  assert (A : forall p, apartb templates_path p = true ->
                        lookup (store m templates_path x) p = lookup m p).
  { intros p Hp. now apply lookup_store_apart. }
  assert (B : dict_at (store m templates_path x) [] = dict_at m []
              /\ dict_if_any (store m templates_path x) [Key "spec"]
                 = dict_if_any m [Key "spec"]).
  { unfold templates_path in *.
    apply lookup_key_inv in L as (sp & E1 & L).
    apply lookup_key_inv in L as (ts & E2 & _).
    apply getitem_ok in E1 as (d & -> & G1).
    apply getitem_ok in E2 as (sd & -> & G2).
    unfold dict_if_any, has, dict_at. cbn [store lookup].
    rewrite G1, G2. cbn [lookup]. now rewrite get_set, String.eqb_refl. }
  destruct B as [B0 B1].
  unfold plain_volumes, notes_of. rewrite B0, B1.
  unfold dict_if_any, has, dict_at, volumes_path.
  now rewrite !A by reflexivity.
Qed.

Lemma update_persistent_volume_size_plain (m : value) (size : string)
      (w : world) (s : state) :
  plain_templates m = true -> plain_volumes m = true ->
  StsResizer.update_persistent_volume_size m size w s
  = (Return match lookup m templates_path with
            | Some (VList ts) =>
                store m templates_path (VList (map (resized size) ts))
            | _ => m
            end,
     said_all (notes_of m) s).
Proof.
  intros Ht Hv. unfold StsResizer.update_persistent_volume_size.
  rewrite (resize_templates_plain m size Ht).
  unfold pbind at 1. cbn [lift].
  destruct (lookup m templates_path) as [[| | | |ts|]|] eqn:L;
    try (now rewrite (pbind_step _ _ w s _ tt
                        (note_inline_pvcs_plain m w s Hv))).
  destruct (store_templates_volumes m (VList ts)
              (VList (map (resized size) ts)) L) as [P N].
  rewrite <- P in Hv.
  rewrite (pbind_step _ _ w s _ tt (note_inline_pvcs_plain _ w s Hv)).
  now rewrite N.
Qed.

(** ** The steps of the StatefulSet script *)

Lemma kubectl_ok (c : kubectl_call) (w : world) (s : state) (out : value) :
  kubectl_reply w (List.length (calls s)) = Some out ->
  kubectl c w s = (Return out, after_call w c s).
Proof. intros H. unfold kubectl. now rewrite H. Qed.


Lemma create_backup_ok (m : value) (w : world) (s : state) :
  backup_writable w = true ->
  StsResizer.create_backup m w s = (Return tt, backed_up m s).
Proof. intros H. unfold StsResizer.create_backup. now rewrite H. Qed.

Lemma input_ok (w : world) (s : state) (l : string) :
  stdin_line w (lines_read s) = Some l ->
  input w s = (Return l, read_line s).
Proof. intros H. unfold input. now rewrite H. Qed.

Lemma pod_names_of_named (items : list value) (names : list string) :
  Forall2 pod_named items names ->
  StsResizer.pod_names_of items = Ok (map VStr names).
Proof.
  induction 1 as [|pod n items names Hp _ IH];
    cbn [StsResizer.pod_names_of map]; [reflexivity|].
  unfold pod_named in Hp.
  apply lookup_key_inv in Hp as (md & -> & Hp).
  apply getitem_at in Hp.
  cbn [bind]. rewrite Hp. cbn [bind]. now rewrite IH.
Qed.

Lemma joinable_strings (names : list string) :
  StsResizer.joinable (map VStr names) = Ok names.
Proof.
  induction names as [|n names IH]; cbn [StsResizer.joinable map];
    [reflexivity|].
  now rewrite IH.
Qed.

Lemma get_current_pods_ok (name ns : string) (w : world) (s : state)
      (pods : value) (names : list string) :
  kubectl_reply w (List.length (calls s)) = Some pods ->
  lists_pods pods names ->
  StsResizer.get_current_pods name ns w s
  = (Return names,
     said (found_line names)
          (after_call w
             (Kubectl ["get"; "pods"; "-n"; ns; "-l"; "app=" ++ name;
                       "-o"; "json"]%string) s)).
Proof.
  intros Hr (items & Hi & Hn). unfold StsResizer.get_current_pods.
  unfold run_kubectl_command.
  rewrite (pbind_step _ _ w s _ _ (kubectl_ok _ w s pods Hr)).
  apply getitem_at in Hi.
  unfold pbind, lift, ret, print.
  rewrite Hi. cbn [Py.iter]. rewrite (pod_names_of_named _ _ Hn).
  now rewrite joinable_strings.
Qed.

(** ** The StatefulSet script up to the printed manifest *)

Lemma calls_sts_prepared (a : StsResizer.args) (w : world) (m c t : value)
      (names : list string) :
  calls (sts_prepared a w m c t names) = [fetch_sts a; list_pods a].
Proof.
  unfold sts_prepared. cbn [said calls]. now rewrite calls_said_all.
Qed.

Lemma lines_read_sts_prepared (a : StsResizer.args) (w : world)
      (m c t : value) (names : list string) :
  lines_read (sts_prepared a w m c t names) = 0.
Proof.
  unfold sts_prepared. cbn [said lines_read].
  now rewrite lines_read_said_all.
Qed.

Lemma sts_main_prepared (a : StsResizer.args) (w : world) (m c : value)
      (names : list string) (size : string) :
  sts_ready a w m c names size ->
  StsResizer.main a w initial
  = try_or_exit1
      (if StsResizer.dry_run a then
         print (Say "Dry run completed. No changes were made.")
       else
         confirm <== input ;;
         if negb (String.eqb (PyStr.lower (PyStr.strip confirm)) "yes") then
           print (Say "Operation cancelled by user")
         else
           StsResizer.delete_statefulset_non_cascading
             (StsResizer.statefulset_name a) (StsResizer.namespace a)
             (StsResizer.dry_run a) ;;;
           StsResizer.apply_statefulset_manifest
             (resized_manifest size c) (StsResizer.namespace a) ;;;
           ret tt)
      w (sts_prepared a w m c (resized_manifest size c) names).
Proof.
  intros (Hm & Hb & Hc & (pods & Hp & Hn) & Hs & Ts & Pt & Pv).
  unfold StsResizer.main, try_or_exit1.
  match goal with
  | |- (let (_, _) := ?x in _) = (let (_, _) := ?y in _) =>
      assert (E : x = y); [|now rewrite E]
  end.
  unfold StsResizer.get_statefulset_manifest, run_kubectl_command.
  rewrite (pbind_step _ _ w initial _ _ (kubectl_ok _ w initial m Hm)).
  rewrite (pbind_step _ _ w _ _ _ (create_backup_ok m w _ Hb)).
  rewrite Hc. unfold pbind at 1. cbn [lift].
  rewrite (pbind_step _ _ w _ _ _
             (get_current_pods_ok
                _ _ w (backed_up m (after_call w (fetch_sts a) initial))
                pods names Hp Hn)).
  rewrite Hs. cbn [opt_truthy]. rewrite Ts.
  unfold pbind at 1. cbn [ret]. rewrite Ts.
  rewrite (pbind_step _ _ w _ _ _
             (update_persistent_volume_size_plain c size w _ Pt Pv)).
  unfold pbind at 1. cbn [print]. reflexivity.
Qed.

(** ** The StatefulSet script after the printed manifest *)

Lemma backups_sts_prepared (a : StsResizer.args) (w : world)
      (m c t : value) (names : list string) :
  backups (sts_prepared a w m c t names) = [m].
Proof.
  unfold sts_prepared. cbn [said backups].
  assert (B : forall l s, backups (said_all l s) = backups s).
  { induction l as [|o l IH]; intros s; [reflexivity|].
    now rewrite said_all_cons, IH. }
  now rewrite B.
Qed.

Lemma sts_reads_confirmation (a : StsResizer.args) (w : world)
      (m c : value) (names : list string) (size line : string) :
  sts_ready a w m c names size ->
  StsResizer.dry_run a = false ->
  stdin_line w 0 = Some line ->
  StsResizer.main a w initial
  = try_or_exit1
      (if negb (says_yes line) then
         print (Say "Operation cancelled by user")
       else
         StsResizer.delete_statefulset_non_cascading
           (StsResizer.statefulset_name a) (StsResizer.namespace a) false ;;;
         StsResizer.apply_statefulset_manifest
           (resized_manifest size c) (StsResizer.namespace a) ;;;
         ret tt)
      w (read_line (sts_prepared a w m c (resized_manifest size c) names)).
Proof.
  intros R Hd Hl.
  rewrite (sts_main_prepared a w m c names size R), Hd.
  rewrite <- (lines_read_sts_prepared a w m c (resized_manifest size c) names)
    in Hl.
  unfold try_or_exit1.
  now rewrite (pbind_step _ _ w _ _ _ (input_ok w _ line Hl)).
Qed.

Lemma sts_confirmed_state (a : StsResizer.args) (w : world) (m c : value)
      (names : list string) (size line : string) (r2 r3 : value) :
  sts_ready a w m c names size ->
  StsResizer.dry_run a = false ->
  stdin_line w 0 = Some line -> says_yes line = true ->
  kubectl_reply w 2 = Some r2 -> kubectl_reply w 3 = Some r3 ->
  StsResizer.main a w initial
  = (Return tt,
     after_call w
       (KubectlApply (resized_manifest size c) (StsResizer.namespace a))
       (after_call w (delete_sts_call a)
          (read_line
             (sts_prepared a w m c (resized_manifest size c) names)))).
Proof.
  intros R Hd Hl Hy H2 H3.
  rewrite (sts_reads_confirmation a w m c names size line R Hd Hl), Hy.
  cbn [negb].
  pose proof (calls_sts_prepared a w m c (resized_manifest size c) names)
    as C.
  set (s := sts_prepared a w m c (resized_manifest size c) names) in *.
  unfold StsResizer.delete_statefulset_non_cascading,
    StsResizer.apply_statefulset_manifest, run_kubectl_command,
    try_or_exit1, pbind, ret.
  assert (K2 : kubectl_reply w (List.length (calls (read_line s))) = Some r2).
  { cbn [read_line calls]. now rewrite C. }
  rewrite (kubectl_ok _ w (read_line s) r2 K2).
  assert (K3 : kubectl_reply w
                 (List.length
                    (calls (after_call w (delete_sts_call a) (read_line s))))
               = Some r3).
  { cbn [after_call read_line calls]. now rewrite C. }
  unfold delete_sts_call in K3.
  now rewrite (kubectl_ok _ w _ r3 K3).
Qed.




Lemma sts_backup_fails_state (a : StsResizer.args) (w : world) (m : value) :
  kubectl_reply w 0 = Some m -> backup_writable w = false ->
  StsResizer.main a w initial
  = (Exit 1, after_call w (fetch_sts a) initial).
Proof.
  intros Hm Hb. unfold StsResizer.main, try_or_exit1.
  unfold StsResizer.get_statefulset_manifest, run_kubectl_command.
  rewrite (pbind_step _ _ w initial _ _ (kubectl_ok _ w initial m Hm)).
  unfold pbind at 1. unfold StsResizer.create_backup. now rewrite Hb.
Qed.

(** ** The job script after the transform *)

Lemma job_run_state (a : RerunJob.args) (w : world) (m m' r1 r2 : value) :
  args_valid a = true -> RerunJob.dry_run a = false ->
  RerunJob.monitor a = false ->
  kubectl_reply w 0 = Some m ->
  RerunJob.update_job_manifest m (RerunJob.env_var_name a)
                               (RerunJob.env_var_value a) = Ok m' ->
  kubectl_reply w 1 = Some r1 -> kubectl_reply w 2 = Some r2 ->
  RerunJob.main a w initial
  = (Return tt,
     after_call w (KubectlApply m' (RerunJob.namespace a))
       (after_call w (delete_job_call a)
          (after_call w (fetch_job a) initial))).
Proof.
  intros V Hd Hmon Hm Hu H1 H2. rewrite (job_main_valid a V), Hd, Hmon.
  unfold RerunJob.get_job_manifest, RerunJob.delete_job,
    RerunJob.apply_job_manifest, run_kubectl_command, try_or_exit1, kubectl,
    lift, ret, pbind.
  simpl. rewrite Hm, Hu. simpl. rewrite H1. simpl. now rewrite H2.
Qed.

Lemma job_delete_fails_state (a : RerunJob.args) (w : world) (m m' : value) :
  args_valid a = true -> RerunJob.dry_run a = false ->
  kubectl_reply w 0 = Some m ->
  RerunJob.update_job_manifest m (RerunJob.env_var_name a)
                               (RerunJob.env_var_value a) = Ok m' ->
  kubectl_reply w 1 = None ->
  RerunJob.main a w initial
  = (Exit 1,
     after_call w (delete_job_call a) (after_call w (fetch_job a) initial)).
Proof.
  intros V Hd Hm Hu H1. rewrite (job_main_valid a V), Hd.
  unfold RerunJob.get_job_manifest, RerunJob.delete_job,
    RerunJob.apply_job_manifest, run_kubectl_command, try_or_exit1, kubectl,
    lift, ret, pbind.
  simpl. rewrite Hm, Hu. simpl. now rewrite H1.
Qed.

Lemma job_fetch_fails_state (a : RerunJob.args) (w : world) :
  args_valid a = true -> kubectl_reply w 0 = None ->
  RerunJob.main a w initial = (Exit 1, after_call w (fetch_job a) initial).
Proof.
  intros V Hm. rewrite (job_main_valid a V).
  unfold try_or_exit1, pbind, RerunJob.get_job_manifest,
    run_kubectl_command, kubectl.
  simpl. now rewrite Hm.
Qed.

(** ** The job script ends *)

Lemma job_main_ends (a : RerunJob.args) (w : world) (s : state) :
  fst (RerunJob.main a w s) <> OutOfFuel.
Proof.
  destruct (args_valid a) eqn:V;
    [|now rewrite (job_main_invalid a w s V)].
  rewrite (job_main_valid a V).
  unfold try_or_exit1, pbind at 1, RerunJob.get_job_manifest,
    run_kubectl_command, kubectl.
  destruct (kubectl_reply w (List.length (calls s))) as [m|];
    [|discriminate].
  unfold pbind at 1, lift.
  destruct (RerunJob.update_job_manifest m _ _) as [m'|e]; [|discriminate].
  destruct (RerunJob.dry_run a); [discriminate|].
  unfold RerunJob.delete_job, RerunJob.apply_job_manifest,
    run_kubectl_command, kubectl.
  unfold pbind at 1. unfold pbind at 1.
  destruct (kubectl_reply w _) as [r1|]; [|discriminate].
  cbn [ret]. unfold pbind at 1. unfold pbind at 1.
  destruct (kubectl_reply w _) as [r2|]; [|discriminate].
  cbn [ret]. destruct (RerunJob.monitor a); [|discriminate].
  unfold pbind at 1.
  match goal with
  | |- context [RerunJob.check_job_status ?j ?n ?t w ?s1] =>
      pose proof (check_job_status_total w j n t s1) as Tot;
      destruct (RerunJob.check_job_status j n t w s1) as [[v|e|c|] s2]
  end; cbn [fst] in *; try discriminate. congruence.
Qed.

(** ** How often the monitor reads *)

Section MonitorBound.

Variables (w : world) (job ns : string).

Local Open Scope Z_scope.

(** The reads of a poll that starts [x] seconds before its deadline are
    at most [x / 10], rounded up. *)
Lemma poll_reads_bound (start T : Z) (fuel : nat) (s : state) :
  Z.of_nat (List.length (calls (snd (RerunJob.poll fuel job ns start T w s))))
  <= Z.of_nat (List.length (calls s))
     + Z.max 0 ((T - (clock s - start) + 9) / 10).
Proof.
  revert s. induction fuel as [|fuel IH]; intros s.
  - destruct (Z.ltb (clock s - start) T) eqn:E.
    + unfold RerunJob.poll, pbind, time_time. rewrite E. cbn [snd]. lia.
    + apply Z.ltb_ge in E. rewrite (poll_timed_out w job ns start T 0 s E).
      cbn [snd]. lia.
  - rewrite poll_unfold.
    destruct (Z.ltb (clock s - start) T) eqn:E; [|cbn [snd]; lia].
    apply Z.ltb_lt in E.
    assert (One : 1 <= (T - (clock s - start) + 9) / 10).
    { apply Z.div_le_lower_bound; lia. }
    assert (L1 : Z.of_nat (List.length (calls (after_call w (status_call job ns) s)))
                 = Z.of_nat (List.length (calls s)) + 1).
    { cbn [after_call calls]. rewrite length_app. cbn [List.length]. lia. }
    destruct (kubectl_reply w _) as [reply|]; [|cbn [snd]; lia].
    destruct (RerunJob.classify reply) as [[v|]|e]; try (cbn [snd]; lia).
    specialize (IH (slept 10 (after_call w (status_call job ns) s))).
    cbn [slept calls clock] in IH. cbn [after_call calls clock] in IH, L1.
    set (d := Z.of_nat (kubectl_seconds w (List.length (calls s)))) in *.
    assert (Hd : 0 <= d) by (unfold d; lia).
    assert (Step : Z.max 0 ((T - (clock s + d + 10 - start) + 9) / 10) + 1
                   <= Z.max 0 ((T - (clock s - start) + 9) / 10)).
    { replace (T - (clock s - start) + 9)
        with ((T - (clock s + d - start) - 1) + 1 * 10 + d) by lia.
      destruct (Z.max_spec 0 ((T - (clock s + d + 10 - start) + 9) / 10))
        as [[_ ->]|[_ ->]].
      - replace (T - (clock s + d + 10 - start) + 9)
          with (T - (clock s + d - start) - 1) by lia.
        rewrite Z.max_r.
        + rewrite <- (Z.div_add (T - (clock s + d - start) - 1) 1 10) by lia.
          apply Z.div_le_mono; lia.
        + replace (T - (clock s + d - start) - 1 + 1 * 10 + d)
            with (T - (clock s - start) + 9) by lia. lia.
      - replace (T - (clock s + d - start) - 1 + 1 * 10 + d)
          with (T - (clock s - start) + 9) by lia. lia. }
    lia.
Qed.

Lemma check_job_status_reads_bound (minutes : Z) (s : state) :
  Z.of_nat (List.length
              (calls (snd (RerunJob.check_job_status job ns minutes w s))))
  <= Z.of_nat (List.length (calls s)) + Z.max 0 (6 * minutes).
Proof.
  rewrite check_job_status_unfold.
  pose proof (poll_reads_bound (clock s) (minutes * 60)
                               (Z.to_nat (minutes * 60)) s) as B.
  replace ((minutes * 60 - (clock s - clock s) + 9) / 10)
    with (6 * minutes) in B.
  - destruct (RerunJob.poll _ _ _ _ _ w s) as [[v|e|c|] s']; cbn [snd] in *;
      exact B.
  - replace (minutes * 60 - (clock s - clock s) + 9)
      with (9 + 6 * minutes * 10) by lia.
    now rewrite Z.div_add by lia.
Qed.

(** A read that fails ends the monitor, and the process, with status 1. *)
Lemma check_job_status_read_fails (minutes : Z) (s : state)
      (reads : nat -> counts) (k : nat) :
  still_running w (minutes * 60) s reads k ->
  elapsed w (List.length (calls s)) k < minutes * 60 ->
  kubectl_reply w (List.length (calls s) + k) = None ->
  RerunJob.check_job_status job ns minutes w s
  = (Exit 1,
     after_call w (status_call job ns)
                (after_reads w (status_call job ns) k s)).
Proof.
  intros H Hk Rk. rewrite check_job_status_unfold.
  assert (F : exists f, Z.to_nat (minutes * 60) = (k + S f)%nat).
  { exists (Z.to_nat (minutes * 60) - S k)%nat.
    pose proof (elapsed_lower w (List.length (calls s)) k). lia. }
  destruct F as [f ->].
  rewrite (poll_reads w job ns (clock s) (minutes * 60) k reads (S f) s).
  - rewrite poll_unfold, clock_after_reads.
    replace (clock s + elapsed w (List.length (calls s)) k - clock s)
      with (elapsed w (List.length (calls s)) k) by lia.
    apply Z.ltb_lt in Hk. rewrite Hk.
    now rewrite calls_after_reads, length_app, repeat_length, Rk.
  - intros j Hj. destruct (H j Hj) as (A & B & C). repeat split; trivial. lia.
Qed.

End MonitorBound.

Lemma classify_without_status (d : dict) :
  Dict.get "status" d = None -> RerunJob.classify (VDict d) = Ok None.
Proof.
  intros H. unfold RerunJob.classify. rewrite get_dict, H. reflexivity.
Qed.

(** ** The size typed at the prompt *)

Lemma sts_prompt_dry_run_state (a : StsResizer.args) (w : world)
      (m c : value) (names : list string) (line : string) :
  kubectl_reply w 0 = Some m -> backup_writable w = true ->
  StsResizer.clean_manifest m = Ok c ->
  (exists pods, kubectl_reply w 1 = Some pods /\ lists_pods pods names) ->
  opt_truthy (StsResizer.new_pv_size a) = false ->
  stdin_line w 0 = Some line ->
  plain_templates c = true -> plain_volumes c = true ->
  StsResizer.dry_run a = true ->
  let size := PyStr.strip line in
  let listed :=
    read_line
      (said (found_line names)
         (after_call w (list_pods a)
            (backed_up m (after_call w (fetch_sts a) initial)))) in
  StsResizer.main a w initial
  = (Return tt,
     if PyStr.truthy size
     then said dry_run_line
            (said (Dump (resized_manifest size c))
               (said_all (notes_of c) listed))
     else said dry_run_line (said (Dump c) listed)).
Proof.
  intros Hm Hb Hc (pods & Hp & Hn) Hs Hl Pt Pv Hd size listed.
  unfold StsResizer.main, try_or_exit1.
  unfold StsResizer.get_statefulset_manifest, run_kubectl_command.
  rewrite (pbind_step _ _ w initial _ _ (kubectl_ok _ w initial m Hm)).
  rewrite (pbind_step _ _ w _ _ _ (create_backup_ok m w _ Hb)).
  rewrite Hc. unfold pbind at 1. cbn [lift].
  rewrite (pbind_step _ _ w _ _ _
             (get_current_pods_ok
                _ _ w (backed_up m (after_call w (fetch_sts a) initial))
                pods names Hp Hn)).
  rewrite Hs, Hd.
  unfold pbind at 1. unfold pbind at 1.
  match goal with
  | |- context [input w ?s0] => rewrite (input_ok w s0 line Hl)
  end.
  fold size.
  destruct (PyStr.truthy size) eqn:Ts; cbn [ret].
  - rewrite Ts.
    rewrite (pbind_step _ _ w _ _ _
               (update_persistent_volume_size_plain c size w _ Pt Pv)).
    reflexivity.
  - reflexivity.
Qed.

(** ** Sizes applied one after the other *)

Lemma resized_resized (a b : string) (t : value) :
  resized b (resized a t) = resized b t.
Proof.
  unfold resized at 1 3. rewrite has_resized.
  destruct (has t StsResizer.storage_path) eqn:H.
  - unfold resized. rewrite H. apply store_store.
  - now rewrite (resized_idle a t H).
Qed.

Lemma resized_manifest_twice (a b : string) (m : value) :
  resized_manifest b (resized_manifest a m) = resized_manifest b m.
Proof.
  unfold resized_manifest.
  destruct (lookup m templates_path) as [[| | | |ts|]|] eqn:L;
    rewrite ?L; try reflexivity.
  rewrite (lookup_store_at _ _ _ _ L), store_store, map_map.
  do 2 f_equal. apply map_ext. intros t. apply resized_resized.
Qed.

(** ** A first container without an image *)

Lemma mutate_no_image (m : value) (cd : dict) (n v : option string) :
  lookup m first_container = Some (VDict cd) ->
  Dict.get "image" cd = None ->
  RerunJob.mutate m n v = Raise (KeyError "image").
Proof.
  unfold first_container, RerunJob.containers_path, RerunJob.mutate.
  intros H Gi.
  apply lookup_key_inv in H as (c1 & -> & H).
  apply lookup_key_inv in H as (c2 & E2 & H).
  apply lookup_key_inv in H as (c3 & E3 & H).
  apply lookup_key_inv in H as (c4 & E4 & H).
  cbn [bind]. rewrite E2. cbn [bind]. rewrite E3. cbn [bind].
  rewrite E4. cbn [bind].
  destruct c4 as [| | | |l|]; try discriminate.
  destruct l as [|c rest]; [discriminate|].
  cbn [lookup nth_error] in H. injection H as ->.
  cbn [Py.truthy negb Py.getitem0 nth_error bind].
  unfold RerunJob.update_image. cbn [Py.getitem bind]. now rewrite Gi.
Qed.

(** ** The job script with the monitor *)

Lemma job_monitored_state (a : RerunJob.args) (w : world)
      (m m' r1 r2 : value) :
  args_valid a = true -> RerunJob.dry_run a = false ->
  RerunJob.monitor a = true ->
  kubectl_reply w 0 = Some m ->
  RerunJob.update_job_manifest m (RerunJob.env_var_name a)
                               (RerunJob.env_var_value a) = Ok m' ->
  kubectl_reply w 1 = Some r1 -> kubectl_reply w 2 = Some r2 ->
  RerunJob.main a w initial
  = match RerunJob.check_job_status
            (RerunJob.job_name a) (RerunJob.namespace a) (RerunJob.timeout a)
            w (after_call w (KubectlApply m' (RerunJob.namespace a))
                 (after_call w (delete_job_call a)
                    (after_call w (fetch_job a) initial))) with
    | (Return _, s') => (Return tt, s')
    | (Except _, s') => (Exit 1, s')
    | (Exit c, s') => (Exit c, s')
    | (OutOfFuel, s') => (OutOfFuel, s')
    end.
Proof.
  intros V Hd Hmon Hm Hu H1 H2. rewrite (job_main_valid a V), Hd, Hmon.
  unfold RerunJob.get_job_manifest, RerunJob.delete_job,
    RerunJob.apply_job_manifest, run_kubectl_command, try_or_exit1, kubectl,
    lift, ret, pbind.
  simpl. rewrite Hm, Hu. simpl. rewrite H1. simpl. rewrite H2.
  match goal with
  | |- context [RerunJob.check_job_status ?j ?n ?t w ?s1] =>
      change s1 with (after_call w (KubectlApply m' (RerunJob.namespace a))
                        (after_call w (delete_job_call a)
                           (after_call w (fetch_job a) initial)));
      destruct (RerunJob.check_job_status j n t w
                  (after_call w (KubectlApply m' (RerunJob.namespace a))
                     (after_call w (delete_job_call a)
                        (after_call w (fetch_job a) initial))))
        as [[v|e|c|] s2]
  end; reflexivity.
Qed.

(** ** The manifest the StatefulSet script applies *)

Lemma storage_targets_outside (m : value) (p : path) :
  apartb templates_path p = true -> outside (storage_targets m) p = true.
Proof.
  intros H. unfold storage_targets, outside.
  destruct (lookup m templates_path) as [[| | | |ts|]|]; try reflexivity.
  apply forallb_forall. intros t Ht. apply in_map_iff in Ht as (i & <- & _).
  now apply apartb_extend.
Qed.

Lemma resized_manifest_frame (size : string) (m : value) (p : path) :
  apartb templates_path p = true ->
  lookup (resized_manifest size m) p = lookup m p.
Proof.
  intros H. unfold resized_manifest.
  destruct (lookup m templates_path) as [[| | | |ts|]|]; try reflexivity.
  now apply lookup_store_apart.
Qed.

Lemma resized_manifest_top (size : string) (m : value) :
  (has (resized_manifest size m) [] = has m []
   /\ dict_at (resized_manifest size m) [] = dict_at m [])
  /\ (has (resized_manifest size m) [Key "spec"] = has m [Key "spec"]
      /\ dict_at (resized_manifest size m) [Key "spec"]
         = dict_at m [Key "spec"]).
Proof.
  unfold resized_manifest.
  destruct (lookup m templates_path) as [[| | | |ts|]|] eqn:L; try tauto.
  unfold templates_path in *.
  apply lookup_key_inv in L as (sp & E1 & L).
  apply lookup_key_inv in L as (x & E2 & _).
  apply getitem_ok in E1 as (d & -> & G1).
  apply getitem_ok in E2 as (sd & -> & G2).
  unfold has, dict_at. cbn [store lookup].
  rewrite G1, G2. cbn [lookup]. now rewrite get_set, String.eqb_refl.
Qed.

Lemma sts_ok_resized (size : string) (m : value) :
  sts_ok (resized_manifest size m) = sts_ok m.
Proof.
  destruct (resized_manifest_top size m) as [[_ D0] [H1 D1]].
  assert (F : forall p, apartb templates_path p = true ->
                        has (resized_manifest size m) p = has m p
                        /\ dict_at (resized_manifest size m) p
                           = dict_at m p).
  { intros p Hp. unfold has, dict_at.
    now rewrite (resized_manifest_frame size m p Hp). }
  unfold sts_ok. rewrite D0.
  rewrite (metadata_ok_kept m (resized_manifest size m) [Key "metadata"]).
  - rewrite (template_ok_kept m (resized_manifest size m)); [reflexivity|].
    intros p [<-|[<-|[<-|[<-|[]]]]]; try (now apply F). now split.
  - intros p [<-|[<-|[]]]; now apply F.
Qed.

Lemma sts_transform_clean (m t : value) (size : option string) :
  sts_transform m size = Ok t -> StsResizer.clean_manifest t = Ok t.
Proof.
  unfold sts_transform. intros H.
  apply bind_ok in H as (c & Hc & H).
  destruct size as [sz|]; [|injection H as <-; now apply (sts_idem m)].
  apply resize_templates_ok in H. fold (resized_manifest sz c) in H.
  subst t. apply clean_manifest_spec in Hc as [Hok ->].
  apply clean_manifest_spec. split.
  - rewrite sts_ok_resized. now apply sts_ok_cleaned.
  - symmetry. apply sts_cleaned_fixed.
    + pose proof (sts_gone m) as G. rewrite Forall_forall in G |- *.
      intros p Hp. unfold absent. rewrite resized_manifest_frame.
      * now apply G.
      * revert p Hp. apply Forall_forall. cbv. repeat constructor.
    + rewrite resized_manifest_frame by reflexivity.
      apply sts_annotations_nonempty.
    + rewrite resized_manifest_frame by reflexivity.
      apply sts_annotations_nonempty.
Qed.

(** ** What a dry run of the StatefulSet script shows *)

Lemma print_state (o : output) (w : world) (s s' : state) (u : unit) :
  print o w s = (Return u, s') -> s' = said o s.
Proof. unfold print. now intros [= _ <-]. Qed.

Lemma create_backup_return (m : value) (w : world) (s s' : state)
      (u : unit) :
  StsResizer.create_backup m w s = (Return u, s') -> s' = backed_up m s.
Proof.
  unfold StsResizer.create_backup.
  destruct (backup_writable w); [|discriminate]. now intros [= _ <-].
Qed.

Lemma get_current_pods_return (name ns : string) (w : world)
      (s s' : state) (names : list string) :
  StsResizer.get_current_pods name ns w s = (Return names, s') ->
  lines_read s' = lines_read s.
Proof.
  unfold StsResizer.get_current_pods, run_kubectl_command. intros H.
  apply pbind_return in H as (pods & s1 & H1 & H).
  apply kubectl_return in H1 as [_ ->].
  apply pbind_return in H as (x1 & s2 & H2 & H).
  apply lift_return in H2 as [_ ->].
  apply pbind_return in H as (x2 & s3 & H3 & H).
  apply lift_return in H3 as [_ ->].
  apply pbind_return in H as (x3 & s4 & H4 & H).
  apply lift_return in H4 as [_ ->].
  apply pbind_return in H as (x4 & s5 & H5 & H).
  apply lift_return in H5 as [_ ->].
  apply pbind_return in H as (u & s6 & H6 & H).
  apply print_state in H6. subst s6.
  unfold ret in H. now injection H as _ <-.
Qed.

Lemma input_return (w : world) (s s' : state) (line : string) :
  input w s = (Return line, s') -> stdin_line w (lines_read s) = Some line.
Proof.
  unfold input. destruct (stdin_line w (lines_read s)); [|discriminate].
  now intros [= -> _].
Qed.

(** The manifest a dry run has printed when it returns is the fetched
    one, cleaned and resized to the size the run settled on. *)
Lemma sts_dry_run_shows (a : StsResizer.args) (w : world) (s' : state) :
  StsResizer.dry_run a = true ->
  StsResizer.main a w initial = (Return tt, s') ->
  exists m t pre,
    kubectl_reply w 0 = Some m
    /\ sts_transform m (chosen_size a w) = Ok t
    /\ printed s' = pre ++ [Dump t; dry_run_line].
Proof.
  intros Hd H. unfold StsResizer.main in H. rewrite Hd in H.
  apply try_return in H.
  apply pbind_return in H as (m & s1 & H1 & H).
  apply kubectl_return in H1 as [Hm ->]. simpl in Hm.
  apply pbind_return in H as (u & s2 & H2 & H).
  apply create_backup_return in H2. subst s2.
  apply pbind_return in H as (cleaned & s3 & H3 & H).
  apply lift_return in H3 as [Hc ->].
  apply pbind_return in H as (pods & s4 & H4 & H).
  apply get_current_pods_return in H4. cbn [backed_up after_call lines_read
                                             initial] in H4.
  apply pbind_return in H as (size & s5 & H5 & H).
  apply pbind_return in H as (t & s6 & H6 & H).
  apply pbind_return in H as (u' & s7 & H7 & H).
  apply print_return in H7. apply print_return in H.
  exists m, t, (printed s6). split; [exact Hm|].
  split; [|rewrite H, H7; now rewrite <- app_assoc].
  unfold sts_transform, chosen_size. rewrite Hc. cbn [bind].
  destruct (opt_truthy (StsResizer.new_pv_size a)) eqn:O.
  - unfold ret in H5. injection H5 as <- <-.
    destruct (StsResizer.new_pv_size a) as [sz|]; [|discriminate].
    cbn [opt_truthy] in O. rewrite O in H6.
    now apply update_pv_return in H6.
  - apply pbind_return in H5 as (line & s8 & Hi & H5).
    apply input_return in Hi. rewrite H4 in Hi. rewrite Hi. cbv zeta in *.
    destruct (PyStr.truthy (PyStr.strip line)) eqn:Tt;
      unfold ret in H5; injection H5 as <- <-.
    + rewrite Tt in H6. now apply update_pv_return in H6.
    + unfold ret in H6. now injection H6 as <- _.
Qed.

(** ** The notes a resize prints when it returns *)

Lemma note_inline_pvc_return (v : value) (w : world) (s s' : state)
      (u : unit) :
  StsResizer.note_inline_pvc v w s = (Return u, s') ->
  s' = said_all (note_of v) s.
Proof.
  unfold StsResizer.note_inline_pvc, note_of. intros H.
  change [Key "persistentVolumeClaim"; Key "claimName"]
    with ([Key "persistentVolumeClaim"] ++ [Key "claimName"]).
  rewrite lookup_app.
  apply pbind_return in H as (b & s1 & H1 & H).
  apply lift_return in H1 as [Hb ->].
  destruct b.
  - apply pbind_return in H as (pvc & s1 & H1 & H).
    apply lift_return in H1 as [Hp ->].
    apply getitem_lookup in Hp. rewrite Hp.
    apply pbind_return in H as (b & s1 & H1 & H).
    apply lift_return in H1 as [Hc ->].
    destruct b.
    + apply pbind_return in H as (name & s1 & H1 & H).
      apply lift_return in H1 as [Hn ->].
      apply getitem_lookup in Hn. rewrite Hn.
      apply pbind_return in H as (u1 & s1 & H1 & H).
      apply print_state in H1, H. now subst.
    + unfold ret in H. injection H as _ <-.
      now rewrite (contains_false_lookup _ _ [] Hc).
  - unfold ret in H. injection H as _ <-.
    now rewrite (contains_false_lookup _ _ [] Hb).
Qed.

Lemma for_each_do_notes_return (vs : list value) (w : world)
      (s s' : state) (u : unit) :
  StsResizer.for_each_do StsResizer.note_inline_pvc vs w s = (Return u, s') ->
  s' = said_all (flat_map note_of vs) s.
Proof.
  revert s; induction vs as [|v vs IH]; intros s H;
    cbn [StsResizer.for_each_do flat_map] in *.
  - unfold ret in H. now injection H as _ <-.
  - apply pbind_return in H as (u1 & s1 & H1 & H).
    apply note_inline_pvc_return in H1. subst s1.
    rewrite said_all_app. now apply IH.
Qed.

Lemma note_of_string (c : string) : note_of (VStr c) = [].
Proof. reflexivity. Qed.

Lemma notes_of_strings (l : list string) :
  flat_map note_of (map VStr l) = [].
Proof. induction l as [|c l IH]; [reflexivity|exact IH]. Qed.

Lemma iter_notes (volumes : value) (items : list value) :
  Py.iter volumes = Ok items ->
  flat_map note_of items
  = match volumes with VList vs => flat_map note_of vs | _ => [] end.
Proof.
  destruct volumes; cbn [Py.iter]; try discriminate; intros [= <-].
  - apply notes_of_strings.
  - reflexivity.
  - apply notes_of_strings.
Qed.

Lemma note_inline_pvcs_return (m : value) (w : world) (s s' : state)
      (u : unit) :
  StsResizer.note_inline_pvcs m w s = (Return u, s') ->
  s' = said_all (notes_of m) s.
Proof.
  unfold StsResizer.note_inline_pvcs, notes_of, volumes_path. intros H.
  change [Key "spec"; Key "template"; Key "spec"; Key "volumes"]
    with ([Key "spec"] ++ [Key "template"] ++ [Key "spec"] ++ [Key "volumes"]).
  rewrite lookup_app.
  apply pbind_return in H as (b1 & s1 & H1 & H).
  apply lift_return in H1 as [C1 ->].
  apply pbind_return in H as (b2 & s1 & H2 & H).
  destruct b1.
  2:{ unfold ret in H2. injection H2 as <- <-. unfold ret in H.
      injection H as _ <-.
      now rewrite (contains_false_lookup _ _ [] C1). }
  apply pbind_return in H2 as (sp & s2 & H2 & H3).
  apply lift_return in H2 as [Gs ->]. apply lift_return in H3 as [C2 ->].
  apply getitem_lookup in Gs. rewrite Gs, lookup_app.
  destruct b2.
  2:{ unfold ret in H. injection H as _ <-.
      now rewrite (contains_false_lookup _ _ [] C2). }
  apply pbind_return in H as (sp' & s1 & H1 & H).
  apply lift_return in H1 as [Gs' ->].
  apply getitem_lookup in Gs'. rewrite Gs in Gs'. injection Gs' as <-.
  apply pbind_return in H as (tp & s1 & H1 & H).
  apply lift_return in H1 as [Gt ->].
  apply getitem_lookup in Gt. rewrite Gt, lookup_app.
  apply pbind_return in H as (b3 & s1 & H1 & H).
  apply lift_return in H1 as [C3 ->].
  apply pbind_return in H as (b4 & s1 & H4 & H).
  destruct b3.
  2:{ unfold ret in H4. injection H4 as <- <-. unfold ret in H.
      injection H as _ <-.
      now rewrite (contains_false_lookup _ _ [] C3). }
  apply pbind_return in H4 as (ps & s2 & H4 & H5).
  apply lift_return in H4 as [Gp ->]. apply lift_return in H5 as [C4 ->].
  apply getitem_lookup in Gp. rewrite Gp.
  destruct b4.
  2:{ unfold ret in H. injection H as _ <-.
      now rewrite (contains_false_lookup _ _ [] C4). }
  apply pbind_return in H as (ps' & s1 & H1 & H).
  apply lift_return in H1 as [Gp' ->].
  apply getitem_lookup in Gp'. rewrite Gp in Gp'. injection Gp' as <-.
  apply pbind_return in H as (vs & s1 & H1 & H).
  apply lift_return in H1 as [Gv ->].
  apply getitem_lookup in Gv. rewrite Gv.
  apply pbind_return in H as (items & s1 & H1 & H).
  apply lift_return in H1 as [Gi ->].
  apply for_each_do_notes_return in H. subst s'.
  now rewrite (iter_notes _ _ Gi).
Qed.

Lemma resized_manifest_notes (size : string) (m : value) :
  notes_of (resized_manifest size m) = notes_of m.
Proof.
  unfold resized_manifest.
  destruct (lookup m templates_path) as [[| | | |ts|]|] eqn:L;
    try reflexivity.
  now apply (store_templates_volumes m (VList ts)).
Qed.

Lemma update_pv_state (m m' : value) (size : string) (w : world)
      (s s' : state) :
  StsResizer.update_persistent_volume_size m size w s = (Return m', s') ->
  s' = said_all (notes_of m) s.
Proof.
  unfold StsResizer.update_persistent_volume_size. intros H.
  apply pbind_return in H as (x & s1 & H1 & H).
  apply lift_return in H1 as [Hr ->].
  apply pbind_return in H as (u & s2 & H2 & H).
  apply note_inline_pvcs_return in H2. unfold ret in H.
  injection H as _ <-. subst s2.
  apply resize_templates_ok in Hr. fold (resized_manifest size m) in Hr.
  subst x. now rewrite resized_manifest_notes.
Qed.

(* ================================================================== *)
(** * What the clean-ups keep *)

Section Kept.

Lemma job_kept_outside (m : value) :
  Forall (fun p => outside (map site_path (job_removals_of m)) p = true)
         job_kept.
Proof.
  unfold job_removals_of. destruct (has m [Key "metadata"]);
    repeat constructor.
Qed.

Lemma sts_kept_outside :
  Forall (fun p => outside (map site_path sts_removals) p = true) sts_kept.
Proof. repeat constructor. Qed.

Lemma kept_same (T kept : list path) (m m' : value) :
  Forall (fun p => outside T p = true) kept ->
  same_outside T m m' ->
  Forall (fun p => lookup m' p = lookup m p) kept.
Proof.
  intros K F. eapply Forall_impl; [|exact K]. intros p Hp. now apply F.
Qed.

(** The job clean-up pops the last-applied-configuration annotation and
    leaves the [annotations] mapping where it is, empty or not. *)
Lemma job_annotations_kept (m m' : value) (d : dict) :
  RerunJob.clean_up m = Ok m' ->
  lookup m [Key "metadata"; Key "annotations"] = Some (VDict d) ->
  lookup m' [Key "metadata"; Key "annotations"]
  = Some (VDict (Dict.pop last_applied d)).
Proof.
  intros H L. apply clean_up_spec in H as [_ ->].
  assert (Hm : has m [Key "metadata"] = true).
  { unfold has. change [Key "metadata"; Key "annotations"]
      with ([Key "metadata"] ++ [Key "annotations"]) in L.
    rewrite lookup_app in L.
    now destruct (lookup m [Key "metadata"]). }
  unfold job_removals_of. rewrite Hm. unfold job_removals.
  rewrite !prune_all_app.
  rewrite (keep_same_prune_all job_top_level_removals _
             [Key "metadata"; Key "annotations"] eq_refl).
  set (v1 := prune_all (under [Key "metadata"] job_metadata_fields) m).
  assert (L1 : lookup v1 [Key "metadata"; Key "annotations"]
               = Some (VDict d)).
  { unfold v1.
    now rewrite (keep_same_prune_all
                   (under [Key "metadata"] job_metadata_fields) m
                   [Key "metadata"; Key "annotations"] eq_refl). }
  cbn [prune_all fold_left].
  set (v2 := prune _ (prune _ v1)).
  assert (L2 : lookup v2 [Key "metadata"; Key "annotations"]
               = Some (VDict d)).
  { unfold v2.
    rewrite (keep_same_prune ([Key "spec"], "selector") _
               [Key "metadata"; Key "annotations"] eq_refl).
    now rewrite (keep_same_prune
                   ([Key "spec"; Key "template"; Key "metadata"], "labels") _
                   [Key "metadata"; Key "annotations"] eq_refl). }
  unfold prune at 1. cbn [fst snd]. rewrite L2.
  apply (lookup_store_at _ _ _ _ L2).
Qed.

Lemma lookup_below_missing (v : value) (k : string) (q : path) :
  lookup v [Key k] = None -> lookup v (Key k :: q) = None.
Proof.
  intros H. change (Key k :: q) with ([Key k] ++ q).
  now rewrite lookup_app, H.
Qed.

(** A path that is not apart from two top-level keys starts with one of
    them, or is empty. *)
Lemma top_keys_cases (a b : string) (p : path) :
  outside [[Key a]; [Key b]] p = false ->
  p = [] \/ exists q, p = Key a :: q \/ p = Key b :: q.
Proof.
  destruct p as [|[k|i] q]; [now left| |discriminate].
  unfold outside. cbn [forallb apartb step_eqb]. intros H. right. exists q.
  destruct (String.eqb a k) eqn:Ea.
  - apply String.eqb_eq in Ea. subst k. now left.
  - destruct (String.eqb b k) eqn:Eb; [|discriminate].
    apply String.eqb_eq in Eb. subst k. now right.
Qed.

Lemma outside_cons (t : path) (T : list path) (p : path) :
  outside (t :: T) p = apartb t p && outside T p.
Proof. reflexivity. Qed.

Lemma update_job_manifest_frame_listed (m m' : value) (n v : option string) :
  RerunJob.update_job_manifest m n v = Ok m' ->
  same_outside (image_path :: env_target m n v
                ++ map site_path (listed_removals JobKind)
                ++ [[Key "matchLabels"]; [Key "selector"]]) m m'.
Proof.
  intros H.
  apply (same_outside_incl
           ((image_path :: env_target m n v)
            ++ map site_path (job_removals_of m))).
  - change (image_path :: env_target m n v
            ++ map site_path (listed_removals JobKind)
            ++ [[Key "matchLabels"]; [Key "selector"]])
      with ((image_path :: env_target m n v)
            ++ (map site_path (listed_removals JobKind)
                ++ [[Key "matchLabels"]; [Key "selector"]])).
    apply incl_app; [now apply incl_appl, incl_refl|].
    apply incl_appr, job_removals_listed.
  - now apply update_job_manifest_frame.
Qed.

Lemma update_job_manifest_top_gone (m m' : value) (n v : option string) :
  RerunJob.update_job_manifest m n v = Ok m' ->
  lookup m' [Key "matchLabels"] = None /\ lookup m' [Key "selector"] = None.
Proof.
  intros H. apply update_job_manifest_ok in H as (m1 & _ & Hc).
  pose proof (job_gone _ _ Hc) as G. rewrite Forall_forall in G.
  split; apply G; unfold job_removals_of;
    destruct (has m1 [Key "metadata"]); cbv; tauto.
Qed.

(** On a descriptor without the two top-level keys the pops of
    [matchLabels] and [selector] find nothing. *)
Lemma update_job_manifest_frame_schema (m m' : value) (n v : option string) :
  mirrors_schema m = true ->
  RerunJob.update_job_manifest m n v = Ok m' ->
  same_outside (image_path :: env_target m n v
                ++ map site_path (listed_removals JobKind)) m m'.
Proof.
  intros Hs H p Hp.
  destruct (outside [[Key "matchLabels"]; [Key "selector"]] p) eqn:O.
  - apply (update_job_manifest_frame_listed _ _ _ _ H).
    rewrite (outside_cons image_path) in *.
    rewrite !outside_app. rewrite outside_app in Hp.
    apply andb_true_iff in Hp as [-> Hp].
    apply andb_true_iff in Hp as [-> ->]. now rewrite O.
  - unfold mirrors_schema in Hs. apply andb_true_iff in Hs as [S1 S2].
    apply negb_true_iff, has_false in S1, S2.
    destruct (update_job_manifest_top_gone _ _ _ _ H) as [G1 G2].
    apply top_keys_cases in O as [->|(q & [->| ->])].
    + discriminate.
    + now rewrite !lookup_below_missing.
    + now rewrite !lookup_below_missing.
Qed.

Lemma update_job_manifest_containers (m m' : value) (n v : option string) :
  RerunJob.update_job_manifest m n v = Ok m' ->
  exists c c' rest,
    lookup m RerunJob.containers_path = Some (VList (c :: rest))
    /\ lookup m' RerunJob.containers_path = Some (VList (c' :: rest)).
Proof.
  intros H. apply update_job_manifest_ok in H as (m1 & Hm & Hc).
  destruct (mutate_containers _ _ _ _ Hm) as (c & c' & rest & L & L1).
  exists c, c', rest. split; [assumption|].
  rewrite <- L1. apply (job_frame _ _ Hc).
  unfold job_removals_of. destruct (has m1 [Key "metadata"]); reflexivity.
Qed.

End Kept.

(* ================================================================== *)
(** * The properties of the specification *)

(** ** C1: what the sanitize step removes *)

(** C1, as stated, fails: the replica-set kind keeps [metadata.labels] and
    [spec.selector], which section 4.1 lists; the job kind keeps
    [metadata.managedFields], the revision and change-cause annotations,
    and an [annotations] mapping it has emptied. *)
Lemma sanitize_keeps_listed_keys :
  (exists m',
      sanitize ReplicaSetKind Sample.statefulset = Ok m'
      /\ In [Key "metadata"; Key "labels"]
            (map site_path (listed_removals ReplicaSetKind))
      /\ lookup m' [Key "metadata"; Key "labels"]
         = Some (VDict [("app", VStr "data")])
      /\ In [Key "spec"; Key "selector"]
            (map site_path (listed_removals ReplicaSetKind))
      /\ has m' [Key "spec"; Key "selector"] = true)
  /\ (exists m',
         sanitize JobKind Sample.job = Ok m'
         /\ In [Key "metadata"; Key "managedFields"]
               (map site_path (listed_removals JobKind))
         /\ has m' [Key "metadata"; Key "managedFields"] = true
         /\ lookup m' [Key "metadata"; Key "annotations"] = Some (VDict []))
  /\ (exists m',
         sanitize JobKind Sample.job_annotated = Ok m'
         /\ In [Key "metadata"; Key "annotations"; Key revision_annotation]
               (map site_path (listed_removals JobKind))
         /\ lookup m' [Key "metadata"; Key "annotations"]
            = Some (VDict [(revision_annotation, VStr "2");
                           (change_cause_annotation,
                            VStr "kubectl apply")])).
Proof.
  split; [|split]; eexists; (split; [vm_compute; reflexivity|]);
    repeat split; try reflexivity; simpl; tauto.
Qed.

(** C1, amended: when the sanitize step returns, the keys its kind pops
    are absent and whatever lies apart from them is as it was.  Job kind,
    given a top-level [metadata]: in [metadata] creationTimestamp,
    resourceVersion, uid, generation, labels; in [spec.template.metadata]
    labels; in [spec] selector; in [metadata.annotations] the
    last-applied-configuration annotation; at top level status,
    matchLabels, selector (without a top-level [metadata], these three
    only).  It keeps [managedFields], the other keys of
    [spec.template.metadata], the revision and change-cause annotations,
    and the [annotations] mapping of [metadata], which is the old one
    without the last-applied-configuration annotation, empty or not.
    Replica-set kind: at both metadata locations creationTimestamp,
    resourceVersion, uid, generation, managedFields and the three
    annotations, and neither location is left with an empty [annotations]
    mapping; in [spec] the seven status fields; the top-level status.  It
    keeps the labels at both locations and [spec.selector]. *)
Theorem sanitize_removes (k : kind) (m m' : value) :
  sanitize k m = Ok m' ->
  match k with
  | JobKind =>
      Forall (absent m') (map site_path (job_removals_of m))
      /\ same_outside (map site_path (job_removals_of m)) m m'
      /\ Forall (fun p => lookup m' p = lookup m p) job_kept
      /\ forall d : dict,
          lookup m [Key "metadata"; Key "annotations"] = Some (VDict d) ->
          lookup m' [Key "metadata"; Key "annotations"]
          = Some (VDict (Dict.pop last_applied d))
  | ReplicaSetKind =>
      Forall (absent m') (map site_path sts_removals)
      /\ lookup m' [Key "metadata"; Key "annotations"] <> Some (VDict [])
      /\ lookup m' [Key "spec"; Key "template"; Key "metadata";
                    Key "annotations"] <> Some (VDict [])
      /\ same_outside (map site_path sts_removals) m m'
      /\ Forall (fun p => lookup m' p = lookup m p) sts_kept
  end.
Proof.
  destruct k; unfold sanitize; intros H.
  - split; [now apply job_gone|]. split; [now apply job_frame|].
    split.
    + apply (kept_same _ _ _ _ (job_kept_outside m)). now apply job_frame.
    + intros d. now apply job_annotations_kept.
  - apply clean_manifest_spec in H as [_ ->].
    split; [exact (sts_gone m)|].
    destruct (sts_annotations_nonempty m) as [A B].
    split; [exact A|]. split; [exact B|].
    split; [exact (sts_frame m)|].
    exact (kept_same _ _ _ _ sts_kept_outside (sts_frame m)).
Qed.

Lemma sanitize_removes_witness :
  (exists m',
      sanitize JobKind Sample.job_annotated = Ok m'
      /\ Forall (absent m') (map site_path job_removals)
      /\ has m' [Key "metadata"; Key "managedFields"] = true
      /\ lookup m' [Key "metadata"; Key "annotations"]
         = Some (VDict [(revision_annotation, VStr "2");
                        (change_cause_annotation, VStr "kubectl apply")]))
  /\ (exists m',
         sanitize ReplicaSetKind Sample.statefulset = Ok m'
         /\ Forall (absent m') (map site_path sts_removals)
         /\ has m' [Key "metadata"; Key "annotations"] = false
         /\ lookup m' [Key "metadata"; Key "labels"]
            = Some (VDict [("app", VStr "data")])).
Proof.
  split.
  - destruct (sanitize JobKind Sample.job_annotated) as [m'|e] eqn:E;
      [|vm_compute in E; discriminate].
    exists m'. split; [reflexivity|].
    destruct (sanitize_removes JobKind Sample.job_annotated m' E)
      as (G & _ & K & A).
    split; [exact G|]. split.
    + unfold has. now rewrite (Forall_inv K).
    + exact (A _ eq_refl).
  - destruct (sanitize ReplicaSetKind Sample.statefulset) as [m'|e] eqn:E;
      [|vm_compute in E; discriminate].
    exists m'. split; [reflexivity|].
    destruct (sanitize_removes ReplicaSetKind Sample.statefulset m' E)
      as (G & _ & _ & _ & K).
    split; [exact G|]. split.
    + vm_compute in E. injection E as <-. reflexivity.
    + now rewrite (Forall_inv K).
Defined.

(** ** C2: what a dry run calls *)

(** C2, as stated, fails: a dry run of the StatefulSet script lists the
    pods after it has fetched the manifest. *)
Lemma sts_dry_run_lists_pods :
  let a := Sample.sts_args true in
  let r := StsResizer.main a
             (Sample.world_of [Sample.statefulset; Sample.pods] [])
             initial in
  StsResizer.dry_run a = true
  /\ fst r = Return tt
  /\ calls (snd r) = [fetch_sts a; list_pods a].
Proof. vm_compute. repeat split; reflexivity. Qed.

(** C2, amended: a dry run issues no delete and no apply.  The job script
    runs nothing after the fetch; given valid options, a manifest fetched
    and transformed, it prints the transformed manifest, reports the dry
    run and returns.  The StatefulSet script runs, after the fetch, at most
    the read-only listing of the pods.  When it returns, the last it has
    printed is the fetched manifest, cleaned and resized to the size the
    run settled on (the one of the command line, or else the line typed,
    stripped; none if that is empty), and then the report of the dry run.
    And it does return, after the fetch and the listing, once the backup
    is written, the manifest cleaned, the pods listed and the size given
    on the command line, the clean manifest being one the resize runs
    over. *)
Theorem dry_run_changes_nothing :
  (forall a : RerunJob.args,
      RerunJob.dry_run a = true ->
      calls_in (RerunJob.main a) [[]; [fetch_job a]]
      /\ destructive (fetch_job a) = false
      /\ forall (w : world) (m m' : value),
          args_valid a = true ->
          kubectl_reply w 0 = Some m ->
          RerunJob.update_job_manifest m (RerunJob.env_var_name a)
                                       (RerunJob.env_var_value a) = Ok m' ->
          let r := RerunJob.main a w initial in
          fst r = Return tt
          /\ calls (snd r) = [fetch_job a]
          /\ printed (snd r) = [Dump m'; dry_run_line])
  /\ (forall a : StsResizer.args,
         StsResizer.dry_run a = true ->
         calls_in (StsResizer.main a)
                  [[fetch_sts a]; [fetch_sts a; list_pods a]]
         /\ destructive (fetch_sts a) = false
         /\ destructive (list_pods a) = false
         /\ (forall (w : world) (s' : state),
                StsResizer.main a w initial = (Return tt, s') ->
                exists m t pre,
                  kubectl_reply w 0 = Some m
                  /\ sts_transform m (chosen_size a w) = Ok t
                  /\ printed s' = pre ++ [Dump t; dry_run_line])
         /\ (forall (w : world) (m c : value) (names : list string)
                    (size : string),
                sts_ready a w m c names size ->
                let r := StsResizer.main a w initial in
                fst r = Return tt
                /\ calls (snd r) = [fetch_sts a; list_pods a]
                /\ chosen_size a w = Some size
                /\ sts_transform m (Some size) = Ok (resized_manifest size c)
                /\ exists pre,
                    printed (snd r)
                    = pre ++ [Dump (resized_manifest size c); dry_run_line])).
Proof.
  split; intros a Hd.
  - split; [now apply job_dry_run_calls|]. split; [reflexivity|].
    intros w m m' Hv Hm Hu.
    now rewrite (job_dry_run_result a w m m' Hd Hv Hm Hu).
  - split; [now apply sts_dry_run_calls|]. split; [reflexivity|].
    split; [reflexivity|]. split.
    + intros w s' H. exact (sts_dry_run_shows a w s' Hd H).
    + intros w m c names size R. cbv zeta.
      rewrite (sts_main_prepared a w m c names size R), Hd.
      unfold try_or_exit1, print. cbn [fst snd said calls printed].
      rewrite calls_sts_prepared.
      destruct R as (_ & _ & Hc & _ & Hz & Tz & Pt & _).
      split; [reflexivity|]. split; [reflexivity|]. split; [|split].
      * unfold chosen_size. rewrite Hz. cbn [opt_truthy]. now rewrite Tz.
      * unfold sts_transform. rewrite Hc. cbn [bind].
        now rewrite (resize_templates_plain c size Pt).
      * unfold sts_prepared. cbn [said printed].
        eexists. rewrite <- app_assoc. reflexivity.
Qed.

Lemma dry_run_changes_nothing_witness :
  (let a := Sample.job_args true in
   calls_in (RerunJob.main a) [[]; [fetch_job a]])
  /\ (let a := Sample.sts_args true in
      calls_in (StsResizer.main a)
               [[fetch_sts a]; [fetch_sts a; list_pods a]]
      /\ exists s' t pre,
          StsResizer.main a (Sample.sts_world []) initial = (Return tt, s')
          /\ sts_transform Sample.statefulset (Some "100Gi"%string) = Ok t
          /\ printed s' = pre ++ [Dump t; dry_run_line]).
Proof.
  split.
  - exact (proj1 (proj1 dry_run_changes_nothing (Sample.job_args true)
                        eq_refl)).
  - destruct (proj2 dry_run_changes_nothing (Sample.sts_args true) eq_refl)
      as (C & _ & _ & B & _).
    split; [exact C|].
    destruct (StsResizer.main (Sample.sts_args true) (Sample.sts_world [])
                              initial) as [[[]| | |] s'] eqn:E;
      try (vm_compute in E; discriminate).
    destruct (B (Sample.sts_world []) s' E) as (m & t & pre & Hm & Ht & Hp).
    injection Hm as <-.
    exists s', t, pre. split; [reflexivity|]. split; [exact Ht|exact Hp].
Defined.

(** ** C3: a variable the container does not declare *)

(** C3: where [env] is a list none of whose entries has the name,
    [update_env] appends the pair to it, so that it is one longer and the
    older entries and the other keys of the container are as before.  Where
    the container has no [env], the code raises [KeyError] instead of
    creating the list; so does the whole transform, for truthy name and
    value, on a manifest whose first container has an image and no
    [env]. *)
Theorem upsert_absent_name (cd : dict) (n v : string) :
  (forall l : list value,
      Dict.get "env" cd = Some (VList l) ->
      Forall (other_name n) l ->
      exists c',
        RerunJob.update_env (VDict cd) n v = Ok c'
        /\ lookup c' [Key "env"] = Some (VList (l ++ [new_env_var n v]))
        /\ List.length (l ++ [new_env_var n v]) = S (List.length l)
        /\ same_outside [[Key "env"; Idx (List.length l)]] (VDict cd) c')
  /\ (Dict.get "env" cd = None ->
      RerunJob.update_env (VDict cd) n v = Raise (KeyError "env"))
  /\ (forall (m : value) (img : string),
         lookup m first_container = Some (VDict cd) ->
         Dict.get "image" cd = Some (VStr img) ->
         Dict.get "env" cd = None ->
         PyStr.truthy n = true -> PyStr.truthy v = true ->
         RerunJob.update_job_manifest m (Some n) (Some v)
         = Raise (KeyError "env")).
Proof.
  split; [|split].
  - intros l He Hl.
    pose proof (update_env_appends cd l n v He Hl) as E0.
    eexists. split; [exact E0|].
    split; [|split].
    + cbn [lookup]. now rewrite get_set, String.eqb_refl.
    + rewrite length_app. cbn [List.length]. lia.
    + pose proof (update_env_appends cd l n v He Hl) as E.
      apply update_env_frame in E as (cd1 & l1 & [= <-] & G & F).
      rewrite He in G. injection G as <-.
      assert (S : env_slot n l = List.length l).
      { exact (proj1 (find_env_var_none l n 0
                               (find_env_var_absent l n 0 Hl))). }
      now rewrite S in F.
  - apply update_env_no_env.
  - intros m img Hc Hi He Tn Tv. unfold RerunJob.update_job_manifest.
    now rewrite (mutate_no_env m cd img n v Hc Hi He Tn Tv).
Qed.

Lemma upsert_absent_name_witness :
  (exists c',
      RerunJob.update_env
        (VDict [("image", VStr "img:v1"); ("env", VList [])]) "X" "1" = Ok c'
      /\ lookup c' [Key "env"] = Some (VList [new_env_var "X" "1"]))
  /\ RerunJob.update_job_manifest Sample.job_without_env (Some "X"%string)
                                  (Some "1"%string)
     = Raise (KeyError "env").
Proof.
  split.
  - destruct (proj1 (upsert_absent_name
                       [("image", VStr "img:v1"); ("env", VList [])]
                       "X" "1") [] eq_refl (Forall_nil _))
      as (c' & E & L & _).
    exists c'. split; [exact E|exact L].
  - exact (proj2 (proj2 (upsert_absent_name
                           [("name", VStr "main"); ("image", VStr "img:v1")]
                           "X" "1"))
                 Sample.job_without_env "img:v1"%string
                 eq_refl eq_refl eq_refl eq_refl eq_refl).
Defined.

(** ** C4: a variable the container declares *)

(** C4, as stated, fails.  The code asks for a space, not for any
    whitespace: a value with a tab and no space is replaced, where section
    4.3 has the new value appended.  And applying a value twice is not
    always the same as once: a new value with a space in it is never one
    of the items, so it is appended each time. *)
Lemma upsert_tab_and_repeat :
  (let cur := ("a" ++ Sample.tab ++ "b")%string in
   has_whitespace cur = true
   /\ RerunJob.merged_value (VStr cur) "c" = Ok (Some "c"%string)
   /\ listed_merge cur "c" = Some (cur ++ " c")%string)
  /\ RerunJob.merged_value (VStr "a b") "c d" = Ok (Some "a b c d"%string)
  /\ RerunJob.merged_value (VStr "a b c d") "c d"
     = Ok (Some "a b c d c d"%string).
Proof. vm_compute. repeat split; reflexivity. Qed.

(** C4, amended: for the first entry of [env] that has the name, with a
    text as its value: if the value holds a space (U+0020), it is split at
    whitespace, as [str.split] does it (the whitespace of Unicode
    included), and the new value, unless it is one of the items, is
    appended after one space, the container being left as it is when it is
    one of them; if the value holds no space, the new value replaces it.
    Applying the same value again then changes nothing, provided the old
    value holds a space and the new one is not empty and holds no
    whitespace. *)
Theorem upsert_existing_name (cd ed : dict) (pre post : list value)
        (x : value) (n v cur : string) :
  Dict.get "env" cd = Some (VList (pre ++ VDict ed :: post)) ->
  Forall (other_name n) pre ->
  Dict.get "name" ed = Some x -> Py.eq_str x n = true ->
  Dict.get "value" ed = Some (VStr cur) ->
  RerunJob.update_env (VDict cd) n v
  = Ok (with_value cd ed pre post (space_merge cur v))
  /\ RerunJob.merged_value (VStr cur) v = Ok (space_merge cur v)
  /\ (PyStr.has_char " " cur = true -> is_token v = true ->
      forall c', RerunJob.update_env (VDict cd) n v = Ok c' ->
                 RerunJob.update_env c' n v = Ok c').
Proof.
  intros He Hp Hn Hx Hv. split; [|split].
  - now apply (update_env_existing cd ed pre post x n v cur).
  - now rewrite merged_value_str.
  - intros Hs Ht c' H.
    exact (update_env_again cd ed pre post x n v cur c'
                            He Hp Hn Hx Hv Hs Ht H).
Qed.

(** The value ["a b"] of section 8, and a value whose last item follows a
    no-break space. *)
Lemma upsert_existing_name_witness :
  (let ed := [("name", VStr "X"); ("value", VStr "a b")] in
   let cd := [("image", VStr "img:v1"); ("env", VList [VDict ed])] in
   RerunJob.update_env (VDict cd) "X" "c"
   = Ok (with_value cd ed [] [] (Some "a b c"%string))
   /\ RerunJob.update_env (with_value cd ed [] [] (Some "a b c"%string))
                          "X" "c"
      = Ok (with_value cd ed [] [] (Some "a b c"%string)))
  /\ (let cur := ("a b" ++ Sample.nbsp ++ "c")%string in
      let ed := [("name", VStr "X"); ("value", VStr cur)] in
      let cd := [("image", VStr "img:v1"); ("env", VList [VDict ed])] in
      RerunJob.merged_value (VStr cur) "c" = Ok None
      /\ RerunJob.update_env (VDict cd) "X" "c" = Ok (VDict cd)).
Proof.
  split.
  - pose proof (upsert_existing_name
                  [("image", VStr "img:v1");
                   ("env", VList [VDict [("name", VStr "X");
                                         ("value", VStr "a b")]])]
                  [("name", VStr "X"); ("value", VStr "a b")]
                  [] [] (VStr "X") "X" "c" "a b"
                  eq_refl (Forall_nil _) eq_refl eq_refl eq_refl)
      as (E & _ & R).
    split; [exact E|].
    exact (R eq_refl eq_refl _ E).
  - pose proof (upsert_existing_name
                  [("image", VStr "img:v1");
                   ("env",
                    VList [VDict [("name", VStr "X");
                                  ("value",
                                   VStr ("a b" ++ Sample.nbsp ++ "c"))]])]
                  [("name", VStr "X");
                   ("value", VStr ("a b" ++ Sample.nbsp ++ "c"))]
                  [] [] (VStr "X") "X" "c" ("a b" ++ Sample.nbsp ++ "c")
                  eq_refl (Forall_nil _) eq_refl eq_refl eq_refl)
      as (E & M & _).
    split; [exact M|exact E].
Defined.

(** ** C5: the sanitize step is idempotent *)

(** C5: for both kinds, sanitizing the result of a sanitize step returns it
    unchanged; a manifest the step rejects is rejected the same way. *)
Theorem sanitize_idempotent (k : kind) (m : value) :
  bind (sanitize k m) (sanitize k) = sanitize k m.
Proof.
  destruct (sanitize k m) as [m'|e] eqn:E; [|reflexivity].
  unfold bind. destruct k; unfold sanitize in *.
  - exact (job_idem _ _ E).
  - exact (sts_idem _ _ E).
Qed.

(** ** C6: what the pipelines leave alone *)

(** C6.  When [update_job_manifest] returns on a descriptor that mirrors
    the schema of the cluster, one without [matchLabels] or [selector] at
    its top level, the manifest is as before outside the image of the
    first container, the entry of its [env] that was asked for and the
    removals of section 4.1; on any manifest it is so outside these and
    the two top-level keys; the containers are still there, all but the
    first unchanged.  When the clean-up of the StatefulSet followed by the
    resize returns, the manifest is as before outside the removals of
    section 4.1 and the storage requests of the claim templates, and the
    containers are unchanged. *)
Theorem pipelines_frame :
  (forall (m m' : value) (n v : option string),
      RerunJob.update_job_manifest m n v = Ok m' ->
      (mirrors_schema m = true ->
       same_outside (image_path :: env_target m n v
                     ++ map site_path (listed_removals JobKind)) m m')
      /\ same_outside (image_path :: env_target m n v
                       ++ map site_path (listed_removals JobKind)
                       ++ [[Key "matchLabels"]; [Key "selector"]]) m m'
      /\ exists c c' rest,
          lookup m RerunJob.containers_path = Some (VList (c :: rest))
          /\ lookup m' RerunJob.containers_path = Some (VList (c' :: rest)))
  /\ (forall (m m' : value) (size : option string),
         sts_transform m size = Ok m' ->
         same_outside (map site_path (listed_removals ReplicaSetKind)
                       ++ match size with
                          | Some _ => storage_targets m
                          | None => []
                          end) m m'
         /\ lookup m' RerunJob.containers_path
            = lookup m RerunJob.containers_path).
Proof.
  split.
  - intros m m' n v H. split; [|split].
    + intros Hs. now apply update_job_manifest_frame_schema.
    + now apply update_job_manifest_frame_listed.
    + now apply (update_job_manifest_containers m m' n v).
  - intros m m' size H. split.
    + apply (same_outside_incl
               (map site_path sts_removals
                ++ match size with
                   | Some _ => storage_targets m
                   | None => []
                   end)).
      * apply incl_app; [apply incl_appl, sts_removals_listed|].
        apply incl_appr, incl_refl.
      * now apply sts_transform_frame.
    + exact (sts_transform_containers m m' size H).
Qed.

Lemma pipelines_frame_witness :
  mirrors_schema Sample.job = true
  /\ (exists m',
         RerunJob.update_job_manifest Sample.job (Some "X"%string)
                                      (Some "3"%string) = Ok m'
         /\ lookup m' [Key "spec"; Key "backoffLimit"] = Some (VInt 3)
         /\ lookup m' [Key "kind"] = Some (VStr "Job"))
  /\ (exists m',
         sts_transform Sample.statefulset (Some "100Gi"%string) = Ok m'
         /\ lookup m' [Key "spec"; Key "replicas"] = Some (VInt 2)).
Proof.
  split; [reflexivity|]. split.
  - destruct (RerunJob.update_job_manifest Sample.job (Some "X"%string)
                                           (Some "3"%string))
      as [m'|e] eqn:E; [|vm_compute in E; discriminate].
    exists m'. split; [reflexivity|].
    pose proof (proj1 (proj1 pipelines_frame Sample.job m' _ _ E) eq_refl)
      as F.
    split.
    + exact (F [Key "spec"; Key "backoffLimit"] eq_refl).
    + exact (F [Key "kind"] eq_refl).
  - destruct (sts_transform Sample.statefulset (Some "100Gi"%string))
      as [m'|e] eqn:E; [|vm_compute in E; discriminate].
    exists m'. split; [reflexivity|].
    exact (proj1 (proj2 pipelines_frame Sample.statefulset m' _ E)
                 [Key "spec"; Key "replicas"] eq_refl).
Defined.

(** ** C7: the resize of the claim templates *)

(** C7: when [update_persistent_volume_size] returns, it has run no
    [kubectl]; the claim templates, when they are a list, are as many as
    before, each with its storage request, if it has one, set to the new
    size as given, and otherwise unchanged; nothing else of the manifest
    differs, [spec.template] with its inline volumes included; and what
    it has printed is, for each volume that names a claim, in their
    order, the name of the claim and the note that inline claims are to
    be updated separately, and nothing for the other volumes.  On a
    manifest whose claim templates are plain dicts the resize itself
    raises no error; where the volumes are plain too, the call returns the
    resized manifest with these notes printed. *)
Theorem resize_sets_storage_requests (m : value) (size : string) :
  (forall (w : world) (s s' : state) (m' : value),
      StsResizer.update_persistent_volume_size m size w s = (Return m', s') ->
      calls s' = calls s
      /\ (forall ts : list value,
             lookup m templates_path = Some (VList ts) ->
             exists ts',
               lookup m' templates_path = Some (VList ts')
               /\ List.length ts' = List.length ts
               /\ forall (i : nat) (t : value),
                   nth_error ts i = Some t ->
                   exists t',
                     nth_error ts' i = Some t'
                     /\ (has t StsResizer.storage_path = true ->
                         lookup t' StsResizer.storage_path
                         = Some (VStr size))
                     /\ (has t StsResizer.storage_path = false -> t' = t)
                     /\ same_outside [StsResizer.storage_path] t t')
      /\ same_outside (storage_targets m) m m'
      /\ lookup m' [Key "spec"; Key "template"]
         = lookup m [Key "spec"; Key "template"]
      /\ lookup m' volumes_path = lookup m volumes_path
      /\ printed s' = printed s ++ notes_of m)
  /\ (plain_templates m = true ->
      exists m', StsResizer.resize_templates m size = Ok m')
  /\ (plain_templates m = true -> plain_volumes m = true ->
      forall (w : world) (s : state),
        let r := StsResizer.update_persistent_volume_size m size w s in
        fst r = Return (resized_manifest size m)
        /\ printed (snd r) = printed s ++ notes_of m).
Proof.
  split; [|split].
  - intros w s s' m' H.
    pose proof (quiet_update_persistent_volume_size m size w s) as Q.
    rewrite H in Q. cbn [snd] in Q.
    pose proof (update_pv_state m m' size w s s' H) as N.
    apply update_pv_return in H.
    pose proof (resize_templates_frame _ _ _ H) as F.
    split; [exact Q|]. split; [|split; [exact F|split; [|split]]].
    + intros ts L. apply resize_templates_ok in H. rewrite L in H.
      exists (map (resized size) ts). subst m'.
      split; [now rewrite (lookup_store_at _ _ _ _ L)|].
      split; [apply length_map|].
      intros i t Hi. exists (resized size t).
      split; [now rewrite nth_error_map, Hi|].
      split; [apply resized_storage|].
      split; [apply resized_idle|apply resized_frame].
    + apply F. now apply storage_targets_apart.
    + apply F. now apply storage_targets_apart.
    + subst s'. apply printed_said_all.
  - intros P. rewrite (resize_templates_plain m size P). eauto.
  - intros Pt Pv w s. cbv zeta.
    rewrite (update_persistent_volume_size_plain m size w s Pt Pv).
    cbn [fst snd]. split; [reflexivity|apply printed_said_all].
Qed.

Lemma resize_sets_storage_requests_witness :
  (exists m' s',
      StsResizer.update_persistent_volume_size
        Sample.statefulset "100Gi" (Sample.world_of [] []) initial
      = (Return m', s')
      /\ calls s' = []
      /\ lookup m' (templates_path ++ Idx 0 :: StsResizer.storage_path)
         = Some (VStr "100Gi")
      /\ lookup m' (volumes_path
                    ++ [Idx 0; Key "persistentVolumeClaim"; Key "claimName"])
         = Some (VStr "shared-claim")
      /\ printed s'
         = [Say "Found inline PVC reference: shared-claim";
            Say "Note: Inline PVCs need to be updated separately"])
  /\ (exists m', StsResizer.resize_templates Sample.statefulset "100Gi" = Ok m')
  /\ fst (StsResizer.update_persistent_volume_size
            Sample.statefulset "100Gi" (Sample.world_of [] []) initial)
     = Return (resized_manifest "100Gi" Sample.statefulset).
Proof.
  split; [|split].
  - destruct (StsResizer.update_persistent_volume_size
                Sample.statefulset "100Gi" (Sample.world_of [] []) initial)
      as [[m'| | |] s'] eqn:E; try (vm_compute in E; discriminate).
    exists m', s'. split; [reflexivity|].
    destruct (proj1 (resize_sets_storage_requests Sample.statefulset "100Gi")
                    (Sample.world_of [] []) initial s' m' E)
      as (Q & T & _ & _ & V & P).
    split; [exact Q|].
    destruct (T _ eq_refl) as (ts' & L & _ & N).
    destruct (N 0 _ eq_refl) as (t' & Nt & St & _).
    split; [|split].
    + rewrite lookup_app, L. cbn [lookup]. rewrite Nt. now apply St.
    + rewrite lookup_app, V. reflexivity.
    + exact P.
  - exact (proj1 (proj2 (resize_sets_storage_requests
                           Sample.statefulset "100Gi")) eq_refl).
  - exact (proj1 (proj2 (proj2 (resize_sets_storage_requests
                                  Sample.statefulset "100Gi"))
                        eq_refl eq_refl (Sample.world_of [] []) initial)).
Defined.

(** ** C8: the image of the first container *)

(** C8: the image becomes what precedes its first colon, or all of it when
    it has none, followed by [:latest]; the three sample images; applying
    the rewrite to its result changes nothing; and [update_job_manifest]
    does this to the image of the first container. *)
Theorem image_tag_set_to_latest :
  (forall pre post : string,
      PyStr.has_char ":" pre = false ->
      RerunJob.latest_image (VStr (pre ++ ":" ++ post))
      = Ok (pre ++ ":latest")%string)
  /\ (forall s : string,
         PyStr.has_char ":" s = false ->
         RerunJob.latest_image (VStr s) = Ok (s ++ ":latest")%string)
  /\ RerunJob.latest_image (VStr "repo:old") = Ok "repo:latest"%string
  /\ RerunJob.latest_image (VStr "repo") = Ok "repo:latest"%string
  /\ RerunJob.latest_image (VStr "repo:latest") = Ok "repo:latest"%string
  /\ (forall s t : string,
         RerunJob.latest_image (VStr s) = Ok t ->
         RerunJob.latest_image (VStr t) = Ok t)
  /\ (forall (m m' : value) (n v : option string) (s t : string),
         RerunJob.update_job_manifest m n v = Ok m' ->
         lookup m image_path = Some (VStr s) ->
         RerunJob.latest_image (VStr s) = Ok t ->
         lookup m' image_path = Some (VStr t)).
Proof.
  repeat split; try reflexivity.
  - intros pre post H. rewrite latest_image_str.
    change (":" ++ post)%string with (String ":" post).
    now rewrite before_app.
  - intros s H. rewrite latest_image_str. now rewrite before_no_char.
  - intros s t H. rewrite latest_image_str in *. injection H as <-.
    change ":latest"%string with (String ":" "latest").
    rewrite before_app; [reflexivity|apply has_char_before].
  - intros m m' n v s t H Hs Ht.
    apply update_job_manifest_ok in H as (m1 & Hm & Hc).
    pose proof (mutate_image _ _ _ _ _ Hm Hs) as Hi.
    rewrite latest_image_str in Ht. injection Ht as <-.
    rewrite <- Hi. apply (job_frame _ _ Hc).
    unfold job_removals_of. destruct (has m1 [Key "metadata"]); reflexivity.
Qed.

Lemma image_tag_set_to_latest_witness :
  PyStr.has_char ":" "registry" = false
  /\ RerunJob.latest_image (VStr "registry:5000/app:v2")
     = Ok "registry:latest"%string
  /\ exists m',
      RerunJob.update_job_manifest Sample.job None None = Ok m'
      /\ lookup m' image_path = Some (VStr "img:latest").
Proof.
  destruct image_tag_set_to_latest as (H1 & _ & _ & _ & _ & _ & H7).
  split; [reflexivity|]. split.
  - exact (H1 "registry"%string "5000/app:v2"%string eq_refl).
  - destruct (RerunJob.update_job_manifest Sample.job None None)
      as [m'|e] eqn:E; [|vm_compute in E; discriminate].
    exists m'. split; [reflexivity|].
    exact (H7 Sample.job m' None None "img:v1"%string "img:latest"%string
              E eq_refl eq_refl).
Defined.

(** ** C9: a manifest without containers *)

(** C9, as stated, fails for the replica-set kind: [clean_manifest] does
    not look at the containers, and a confirmed run on a StatefulSet
    without containers deletes the StatefulSet and applies the manifest. *)
Lemma sts_without_containers_is_replaced :
  let m := Sample.statefulset_without_containers in
  let a := Sample.sts_args false in
  let r := StsResizer.main a
             (Sample.world_of [m; Sample.pods; VNone; VNone] ["yes"])
             initial in
  lookup m RerunJob.containers_path = Some (VList [])
  /\ (exists c, StsResizer.clean_manifest m = Ok c)
  /\ fst r = Return tt
  /\ map destructive (calls (snd r)) = [false; false; true; true].
Proof.
  vm_compute. repeat split; try reflexivity. eexists. reflexivity.
Qed.

(** C9, amended: on a job manifest whose containers are an empty list, or
    any other value Python takes for false, the transform raises
    [ValueError("No containers found in job manifest")], and a run with
    valid options that fetched it ends with status 1 having run the fetch
    alone.  The clean-up of the StatefulSet script accepts a manifest
    whatever its containers, and leaves them as they are. *)
Theorem job_without_containers_aborts (m cs : value) :
  lookup m RerunJob.containers_path = Some cs ->
  Py.truthy cs = false ->
  (forall n v : option string,
      RerunJob.update_job_manifest m n v
      = Raise (ValueError "No containers found in job manifest"))
  /\ (forall (a : RerunJob.args) (w : world),
         args_valid a = true -> kubectl_reply w 0 = Some m ->
         let r := RerunJob.main a w initial in
         fst r = Exit 1 /\ calls (snd r) = [fetch_job a])
  /\ (sts_ok m = true ->
      exists m',
        StsResizer.clean_manifest m = Ok m'
        /\ lookup m' RerunJob.containers_path = Some cs).
Proof.
  intros L Hc. split; [|split].
  - intros n v. now apply (update_job_manifest_no_containers m cs).
  - intros a w Hv Hm.
    now rewrite (job_main_transform_fails a w m _ Hv Hm
                   (update_job_manifest_no_containers m cs _ _ L Hc)).
  - intros Hok. exists (sts_cleaned m).
    split; [now apply clean_manifest_spec|].
    rewrite <- L. now apply sts_frame.
Qed.

Lemma job_without_containers_aborts_witness :
  (let r := RerunJob.main (Sample.job_args false)
              (Sample.world_of [Sample.job_without_containers; VNone; VNone]
                               [])
              initial in
   fst r = Exit 1 /\ calls (snd r) = [fetch_job (Sample.job_args false)])
  /\ exists m',
      StsResizer.clean_manifest Sample.statefulset_without_containers = Ok m'
      /\ lookup m' RerunJob.containers_path = Some (VList []).
Proof.
  split.
  - exact (proj1 (proj2 (job_without_containers_aborts
                           Sample.job_without_containers (VList [])
                           eq_refl eq_refl))
                 (Sample.job_args false)
                 (Sample.world_of
                    [Sample.job_without_containers; VNone; VNone] [])
                 eq_refl eq_refl).
  - exact (proj2 (proj2 (job_without_containers_aborts
                           Sample.statefulset_without_containers (VList [])
                           eq_refl eq_refl))
                 eq_refl).
Defined.

(** ** C10: the monitor *)

(** C10: [check_job_status] reads the status once per iteration, sleeps 10
    seconds after a read that is not terminal, and ends at the first read
    with a positive [succeeded] ("completed") or, failing that, a positive
    [failed] ("failed"); when the timeout has passed at the start of an
    iteration, it ends with the timeout line, a normal return.  So, after
    [k] reads of a job still running, each begun in time: if the [k]-th
    read comes in time and is terminal, its verdict is returned after
    [k + 1] reads; if the time is up, the monitor returns after [k]
    reads.  The clock is in whole seconds, a read taking what the
    environment says.  The loop always ends. *)
Theorem monitor_verdict (w : world) (job ns : string) (minutes : Z)
        (s : state) (reads : nat -> counts) (k : nat) :
  let T := (minutes * 60)%Z in
  let n0 := List.length (calls s) in
  let call := status_call job ns in
  still_running w T s reads k ->
  ((elapsed w n0 k < T)%Z ->
   kubectl_reply w (n0 + k) = Some (status_read (reads k)) ->
   running (reads k) = false ->
   RerunJob.check_job_status job ns minutes w s
   = (Return (verdict_of (reads k)),
      said (Say (RerunJob.verdict_line minutes (verdict_of (reads k))))
           (after_call w call (after_reads w call k s))))
  /\ ((T <= elapsed w n0 k)%Z ->
      RerunJob.check_job_status job ns minutes w s
      = (Return RerunJob.TimedOut,
         said (Say (RerunJob.verdict_line minutes RerunJob.TimedOut))
              (after_reads w call k s)))
  /\ calls (after_reads w call k s) = calls s ++ repeat call k
  /\ clock (after_reads w call k s) = (clock s + elapsed w n0 k)%Z
  /\ fst (RerunJob.check_job_status job ns minutes w s) <> OutOfFuel.
Proof.
  intros T n0 call H. split; [|split; [|split; [|split]]].
  - intros Hk Rk Nk. rewrite check_job_status_unfold.
    now rewrite (poll_verdict w job ns minutes s reads k H Hk Rk Nk).
  - intros Hk. rewrite check_job_status_unfold.
    now rewrite (poll_gives_up w job ns minutes s reads k H Hk).
  - apply calls_after_reads.
  - apply clock_after_reads.
  - apply check_job_status_total.
Qed.

(** The reads [{0,0,0}], [{1,0,0}] of section 8: the monitor ends after
    the second read, with "completed". *)
Lemma monitor_verdict_witness :
  let r := RerunJob.check_job_status "reindex" "default" 10
             Sample.monitor_world initial in
  fst r = Return RerunJob.Completed
  /\ calls (snd r) = [status_call "reindex" "default";
                      status_call "reindex" "default"].
Proof.
  assert (H : still_running Sample.monitor_world (10 * 60) initial
                            Sample.reads 1).
  { intros j Hj. assert (j = 0) as -> by lia. repeat split. }
  pose proof (proj1 (monitor_verdict Sample.monitor_world "reindex" "default"
                                     10 initial Sample.reads 1 H)
                    eq_refl eq_refl eq_refl) as E.
  cbv zeta. rewrite E. split; reflexivity.
Defined.

(* ================================================================== *)
(** * Further properties of the two scripts *)

(** ** The job script, from the options to the monitor *)

(** X1: when one of [--env-var-name] and [--env-var-value] is given
    without the other, [main] ends with status 1 and has run no
    [kubectl]. *)
Theorem job_options_in_pairs (a : RerunJob.args) (w : world) (s : state) :
  args_valid a = false ->
  let r := RerunJob.main a w s in
  fst r = Exit 1 /\ calls (snd r) = calls s.
Proof.
  intros V. cbv zeta. now rewrite (job_main_invalid a w s V).
Qed.

Lemma job_options_in_pairs_witness :
  let a := {| RerunJob.job_name := "reindex";
              RerunJob.namespace := "default";
              RerunJob.env_var_name := Some "X"%string;
              RerunJob.env_var_value := None;
              RerunJob.monitor := false;
              RerunJob.timeout := 10;
              RerunJob.dry_run := false |} in
  fst (RerunJob.main a Sample.job_world initial) = Exit 1
  /\ calls (snd (RerunJob.main a Sample.job_world initial)) = [].
Proof.
  exact (job_options_in_pairs
           {| RerunJob.job_name := "reindex";
              RerunJob.namespace := "default";
              RerunJob.env_var_name := Some "X"%string;
              RerunJob.env_var_value := None;
              RerunJob.monitor := false;
              RerunJob.timeout := 10;
              RerunJob.dry_run := false |}
           Sample.job_world initial eq_refl).
Defined.

(** X3: a run of the job script that is no dry run, and asks for no
    monitoring, fetches the job, deletes it and applies the transformed
    manifest, in this order, and returns. *)
Theorem job_run_replaces_job (a : RerunJob.args) (w : world)
        (m m' r1 r2 : value) :
  args_valid a = true -> RerunJob.dry_run a = false ->
  RerunJob.monitor a = false ->
  kubectl_reply w 0 = Some m ->
  RerunJob.update_job_manifest m (RerunJob.env_var_name a)
                               (RerunJob.env_var_value a) = Ok m' ->
  kubectl_reply w 1 = Some r1 -> kubectl_reply w 2 = Some r2 ->
  let r := RerunJob.main a w initial in
  fst r = Return tt
  /\ calls (snd r)
     = [fetch_job a; delete_job_call a;
        KubectlApply m' (RerunJob.namespace a)].
Proof.
  intros V Hd Hmon Hm Hu H1 H2. cbv zeta.
  now rewrite (job_run_state a w m m' r1 r2 V Hd Hmon Hm Hu H1 H2).
Qed.

Lemma job_run_replaces_job_witness :
  exists m',
    RerunJob.update_job_manifest Sample.job (Some "X"%string)
                                 (Some "3"%string) = Ok m'
    /\ fst (RerunJob.main (Sample.job_args false) Sample.job_world initial)
       = Return tt
    /\ calls (snd (RerunJob.main (Sample.job_args false) Sample.job_world
                                 initial))
       = [fetch_job (Sample.job_args false);
          delete_job_call (Sample.job_args false);
          KubectlApply m' "default"].
Proof.
  destruct (RerunJob.update_job_manifest Sample.job (Some "X"%string)
                                         (Some "3"%string))
    as [m'|e] eqn:E; [|vm_compute in E; discriminate].
  exists m'. split; [reflexivity|].
  exact (job_run_replaces_job (Sample.job_args false) Sample.job_world
           Sample.job m' VNone VNone eq_refl eq_refl eq_refl eq_refl E
           eq_refl eq_refl).
Defined.

(** X4: when the fetch fails, the job script ends with status 1 after
    it; when the delete fails, it ends with status 1 after the fetch and
    the delete.  Nothing is applied in either case. *)
Theorem job_failed_call_stops_run (a : RerunJob.args) (w : world) :
  args_valid a = true ->
  (kubectl_reply w 0 = None ->
   let r := RerunJob.main a w initial in
   fst r = Exit 1 /\ calls (snd r) = [fetch_job a])
  /\ (forall m m' : value,
         RerunJob.dry_run a = false ->
         kubectl_reply w 0 = Some m ->
         RerunJob.update_job_manifest m (RerunJob.env_var_name a)
                                      (RerunJob.env_var_value a) = Ok m' ->
         kubectl_reply w 1 = None ->
         let r := RerunJob.main a w initial in
         fst r = Exit 1 /\ calls (snd r) = [fetch_job a; delete_job_call a]).
Proof.
  intros V. split.
  - intros H. cbv zeta. now rewrite (job_fetch_fails_state a w V H).
  - intros m m' Hd Hm Hu H1. cbv zeta.
    now rewrite (job_delete_fails_state a w m m' V Hd Hm Hu H1).
Qed.

Lemma job_failed_call_stops_run_witness :
  (let r := RerunJob.main (Sample.job_args false) (Sample.world_of [] [])
                          initial in
   fst r = Exit 1 /\ calls (snd r) = [fetch_job (Sample.job_args false)])
  /\ (let r := RerunJob.main (Sample.job_args false)
                             (Sample.world_of [Sample.job] []) initial in
      fst r = Exit 1
      /\ calls (snd r) = [fetch_job (Sample.job_args false);
                          delete_job_call (Sample.job_args false)]).
Proof.
  split.
  - exact (proj1 (job_failed_call_stops_run (Sample.job_args false)
                    (Sample.world_of [] []) eq_refl) eq_refl).
  - destruct (RerunJob.update_job_manifest Sample.job (Some "X"%string)
                                           (Some "3"%string))
      as [m'|e] eqn:E; [|vm_compute in E; discriminate].
    exact (proj2 (job_failed_call_stops_run (Sample.job_args false)
                    (Sample.world_of [Sample.job] []) eq_refl)
                 Sample.job m' eq_refl eq_refl E eq_refl).
Defined.

(** X5: the job script ends, with an exit status, whatever its options
    and whatever the cluster answers: the monitor included, no part of it
    loops for ever. *)
Theorem job_main_terminates (a : RerunJob.args) (w : world) (s : state) :
  exists code, exit_status (fst (RerunJob.main a w s)) = Some code.
Proof.
  pose proof (job_main_ends a w s) as H.
  destruct (fst (RerunJob.main a w s)) as [u|e|c|]; cbn [exit_status];
    eauto. congruence.
Qed.

(** X6: the monitor reads the status at most six times for every minute
    of its timeout, and not at all when the timeout is not positive. *)
Theorem monitor_reads_at_most (w : world) (job ns : string) (minutes : Z)
        (s : state) :
  (Z.of_nat (List.length
               (calls (snd (RerunJob.check_job_status job ns minutes w s))))
   <= Z.of_nat (List.length (calls s)) + Z.max 0 (6 * minutes))%Z.
Proof. apply check_job_status_reads_bound. Qed.

(** X7: a status read that fails, after [k] reads of a job still running,
    ends the monitor and the process with status 1; no verdict is
    printed. *)
Theorem monitor_read_failure (w : world) (job ns : string) (minutes : Z)
        (s : state) (reads : nat -> counts) (k : nat) :
  still_running w (minutes * 60) s reads k ->
  (elapsed w (List.length (calls s)) k < minutes * 60)%Z ->
  kubectl_reply w (List.length (calls s) + k) = None ->
  let r := RerunJob.check_job_status job ns minutes w s in
  fst r = Exit 1
  /\ calls (snd r) = calls s ++ repeat (status_call job ns) (S k)
  /\ printed (snd r) = printed s.
Proof.
  intros H Hk Rk. cbv zeta.
  rewrite (check_job_status_read_fails w job ns minutes s reads k H Hk Rk).
  cbn [fst snd after_call calls printed].
  rewrite calls_after_reads, printed_after_reads.
  repeat split. rewrite <- app_assoc. f_equal.
  change [status_call job ns] with (repeat (status_call job ns) 1).
  rewrite <- repeat_app. f_equal. lia.
Qed.

Lemma monitor_read_failure_witness :
  let w := Sample.world_of [status_read (0, 0, 0)%Z] [] in
  let r := RerunJob.check_job_status "reindex" "default" 10 w initial in
  fst r = Exit 1
  /\ calls (snd r) = [status_call "reindex" "default";
                      status_call "reindex" "default"].
Proof.
  assert (H : still_running (Sample.world_of [status_read (0, 0, 0)%Z] [])
                            (10 * 60) initial Sample.reads 1).
  { intros j Hj. assert (j = 0) as -> by lia. repeat split. }
  destruct (monitor_read_failure
              (Sample.world_of [status_read (0, 0, 0)%Z] [])
              "reindex" "default" 10 initial Sample.reads 1 H
              eq_refl eq_refl) as (A & B & _).
  split; [exact A|exact B].
Defined.

(** X8: a status document without a [status], as a job just created may
    have, counts as zero succeeded and zero failed pods: the monitor polls
    again. *)
Theorem status_absent_keeps_polling (d : dict) :
  Dict.get "status" d = None -> RerunJob.classify (VDict d) = Ok None.
Proof. apply classify_without_status. Qed.

Lemma status_absent_keeps_polling_witness :
  RerunJob.classify (VDict [("kind", VStr "Job")]) = Ok None.
Proof.
  exact (status_absent_keeps_polling [("kind", VStr "Job")] eq_refl).
Defined.

(** X9: with [--monitor], the job script reads the status after the
    apply, and returns normally whatever the monitor finds: a job that
    failed, or one still running when the time is up, leaves the exit
    status at 0 like one that completed. *)
Theorem monitored_run_returns (a : RerunJob.args) (w : world)
        (m m' r1 r2 : value) (reads : nat -> counts) (k : nat) :
  args_valid a = true -> RerunJob.dry_run a = false ->
  RerunJob.monitor a = true ->
  kubectl_reply w 0 = Some m ->
  RerunJob.update_job_manifest m (RerunJob.env_var_name a)
                               (RerunJob.env_var_value a) = Ok m' ->
  kubectl_reply w 1 = Some r1 -> kubectl_reply w 2 = Some r2 ->
  let T := (RerunJob.timeout a * 60)%Z in
  let status := status_call (RerunJob.job_name a) (RerunJob.namespace a) in
  let replaced := [fetch_job a; delete_job_call a;
                   KubectlApply m' (RerunJob.namespace a)] in
  let r := RerunJob.main a w initial in
  still_running w T
    (after_call w (KubectlApply m' (RerunJob.namespace a))
       (after_call w (delete_job_call a)
          (after_call w (fetch_job a) initial)))
    reads k ->
  ((elapsed w 3 k < T)%Z ->
   kubectl_reply w (3 + k) = Some (status_read (reads k)) ->
   running (reads k) = false ->
   exit_status (fst r) = Some 0%Z
   /\ calls (snd r) = replaced ++ repeat status (S k)
   /\ last (printed (snd r)) dry_run_line
      = Say (RerunJob.verdict_line (RerunJob.timeout a)
                                   (verdict_of (reads k))))
  /\ ((T <= elapsed w 3 k)%Z ->
      exit_status (fst r) = Some 0%Z
      /\ calls (snd r) = replaced ++ repeat status k
      /\ last (printed (snd r)) dry_run_line
         = Say (RerunJob.verdict_line (RerunJob.timeout a)
                                      RerunJob.TimedOut)).
Proof.
  intros V Hd Hmon Hm Hu H1 H2 T status replaced r H.
  subst r. rewrite (job_monitored_state a w m m' r1 r2 V Hd Hmon Hm Hu H1 H2).
  rewrite check_job_status_unfold. fold T.
  set (s3 := after_call w (KubectlApply m' (RerunJob.namespace a))
               (after_call w (delete_job_call a)
                  (after_call w (fetch_job a) initial))) in *.
  assert (C3 : calls s3 = replaced) by reflexivity.
  assert (P3 : printed s3 = []) by reflexivity.
  assert (L3 : List.length (calls s3) = 3) by reflexivity.
  split.
  - intros Hk Rk Nk. rewrite <- L3 in Hk, Rk.
    rewrite (poll_verdict w _ _ (RerunJob.timeout a) s3 reads k H Hk Rk Nk).
    cbn [fst snd exit_status said calls printed after_call].
    rewrite calls_after_reads, printed_after_reads, C3, P3.
    repeat split. rewrite <- app_assoc. f_equal.
    change [status_call (RerunJob.job_name a) (RerunJob.namespace a)]
      with (repeat status 1).
    rewrite <- repeat_app. f_equal. lia.
  - intros Hk. rewrite <- L3 in Hk.
    rewrite (poll_gives_up w _ _ (RerunJob.timeout a) s3 reads k H Hk).
    cbn [fst snd exit_status said calls printed].
    rewrite calls_after_reads, printed_after_reads, C3, P3.
    repeat split.
Qed.

Lemma monitored_run_returns_witness :
  let a := {| RerunJob.job_name := "reindex";
              RerunJob.namespace := "default";
              RerunJob.env_var_name := None;
              RerunJob.env_var_value := None;
              RerunJob.monitor := true;
              RerunJob.timeout := 10;
              RerunJob.dry_run := false |} in
  let w := Sample.world_of
             [Sample.job; VNone; VNone; status_read (0, 1, 0)%Z] [] in
  let r := RerunJob.main a w initial in
  exit_status (fst r) = Some 0%Z
  /\ last (printed (snd r)) dry_run_line = Say "Job failed!".
Proof.
  destruct (RerunJob.update_job_manifest Sample.job None None)
    as [m'|e] eqn:E; [|vm_compute in E; discriminate].
  assert (H : forall s, still_running
                (Sample.world_of
                   [Sample.job; VNone; VNone; status_read (0, 1, 0)%Z] [])
                (10 * 60) s (fun _ => (0, 1, 0)%Z) 0).
  { intros s j Hj. lia. }
  destruct (proj1 (monitored_run_returns
                     {| RerunJob.job_name := "reindex";
                        RerunJob.namespace := "default";
                        RerunJob.env_var_name := None;
                        RerunJob.env_var_value := None;
                        RerunJob.monitor := true;
                        RerunJob.timeout := 10;
                        RerunJob.dry_run := false |}
                     (Sample.world_of
                        [Sample.job; VNone; VNone;
                         status_read (0, 1, 0)%Z] [])
                     Sample.job m' VNone VNone (fun _ => (0, 1, 0)%Z) 0
                     eq_refl eq_refl eq_refl eq_refl E eq_refl eq_refl
                     (H _))
                  eq_refl eq_refl eq_refl) as (A & _ & B).
  split; [exact A|exact B].
Defined.

(** ** The StatefulSet script, from the backup to the apply *)

(** X10: a run of the StatefulSet script that is no dry run and is
    answered yes deletes the StatefulSet with [--cascade=false] and then
    applies the cleaned and resized manifest, after the fetch and the
    listing of the pods and in this order; the backup written is the
    manifest as fetched. *)
Theorem sts_confirmed_run_replaces (a : StsResizer.args) (w : world)
        (m c : value) (names : list string) (size line : string)
        (r2 r3 : value) :
  sts_ready a w m c names size ->
  StsResizer.dry_run a = false ->
  stdin_line w 0 = Some line -> says_yes line = true ->
  kubectl_reply w 2 = Some r2 -> kubectl_reply w 3 = Some r3 ->
  let r := StsResizer.main a w initial in
  fst r = Return tt
  /\ calls (snd r)
     = [fetch_sts a; list_pods a; delete_sts_call a;
        KubectlApply (resized_manifest size c) (StsResizer.namespace a)]
  /\ backups (snd r) = [m].
Proof.
  intros R Hd Hl Hy H2 H3. cbv zeta.
  rewrite (sts_confirmed_state a w m c names size line r2 r3 R Hd Hl Hy H2 H3).
  cbn [fst snd after_call read_line calls backups].
  now rewrite calls_sts_prepared, backups_sts_prepared.
Qed.

Lemma sample_sts_ready (dry : bool) (lines : list string) :
  sts_ready (Sample.sts_args dry) (Sample.sts_world lines)
            Sample.statefulset (sts_cleaned Sample.statefulset)
            Sample.pod_names "100Gi".
Proof.
  repeat split.
  exists Sample.pods. split; [reflexivity|].
  exists [VDict [("metadata", VDict [("name", VStr "data-0")])];
          VDict [("metadata", VDict [("name", VStr "data-1")])]].
  split; [reflexivity|]. repeat constructor.
Defined.

Lemma sts_confirmed_run_replaces_witness :
  let a := Sample.sts_args false in
  let r := StsResizer.main a (Sample.sts_world [" Yes "%string]) initial in
  fst r = Return tt
  /\ calls (snd r)
     = [fetch_sts a; list_pods a; delete_sts_call a;
        KubectlApply
          (resized_manifest "100Gi" (sts_cleaned Sample.statefulset))
          "default"]
  /\ backups (snd r) = [Sample.statefulset].
Proof.
  exact (sts_confirmed_run_replaces
           (Sample.sts_args false) (Sample.sts_world [" Yes "%string])
           Sample.statefulset (sts_cleaned Sample.statefulset)
           Sample.pod_names "100Gi" " Yes " VNone VNone
           (sample_sts_ready false [" Yes "%string])
           eq_refl eq_refl eq_refl eq_refl eq_refl).
Defined.






(** X13: when the backup file cannot be written, the StatefulSet script
    ends with status 1 right after the fetch: the pods are not listed and
    nothing is deleted or applied. *)
Theorem sts_unwritable_backup_aborts (a : StsResizer.args) (w : world)
        (m : value) :
  kubectl_reply w 0 = Some m -> backup_writable w = false ->
  let r := StsResizer.main a w initial in
  fst r = Exit 1 /\ calls (snd r) = [fetch_sts a] /\ backups (snd r) = [].
Proof.
  intros Hm Hb. cbv zeta.
  now rewrite (sts_backup_fails_state a w m Hm Hb).
Qed.

Lemma sts_unwritable_backup_aborts_witness :
  let w := {| kubectl_reply := nth_error [Sample.statefulset; Sample.pods];
              kubectl_seconds := fun _ => 1;
              stdin_line := nth_error ["yes"%string];
              backup_writable := false |} in
  let r := StsResizer.main (Sample.sts_args false) w initial in
  fst r = Exit 1 /\ calls (snd r) = [fetch_sts (Sample.sts_args false)]
  /\ backups (snd r) = [].
Proof.
  exact (sts_unwritable_backup_aborts
           (Sample.sts_args false)
           {| kubectl_reply := nth_error [Sample.statefulset; Sample.pods];
              kubectl_seconds := fun _ => 1;
              stdin_line := nth_error ["yes"%string];
              backup_writable := false |}
           Sample.statefulset eq_refl eq_refl).
Defined.

(** X14: without [--new-pv-size] the size is the line typed at the
    prompt, the whitespace around it removed (that of Unicode, as
    [str.strip] removes it); a blank line keeps the sizes, and the dry run
    then prints the cleaned manifest as it is. *)
Theorem sts_prompted_size (a : StsResizer.args) (w : world) (m c : value)
        (names : list string) (line : string) :
  kubectl_reply w 0 = Some m -> backup_writable w = true ->
  StsResizer.clean_manifest m = Ok c ->
  (exists pods, kubectl_reply w 1 = Some pods /\ lists_pods pods names) ->
  opt_truthy (StsResizer.new_pv_size a) = false ->
  stdin_line w 0 = Some line ->
  plain_templates c = true -> plain_volumes c = true ->
  StsResizer.dry_run a = true ->
  let r := StsResizer.main a w initial in
  let size := PyStr.strip line in
  fst r = Return tt
  /\ calls (snd r) = [fetch_sts a; list_pods a]
  /\ exists pre,
      printed (snd r)
      = pre ++ [Dump (if PyStr.truthy size then resized_manifest size c
                      else c);
                dry_run_line].
Proof.
  intros Hm Hb Hc Hp Hs Hl Pt Pv Hd. cbv zeta.
  rewrite (sts_prompt_dry_run_state a w m c names line
             Hm Hb Hc Hp Hs Hl Pt Pv Hd).
  destruct (PyStr.truthy (PyStr.strip line)); cbn [fst snd].
  - split; [reflexivity|]. split.
    + cbn [said calls]. rewrite calls_said_all. reflexivity.
    + eexists. cbn [said printed]. rewrite <- app_assoc. reflexivity.
  - split; [reflexivity|]. split; [reflexivity|].
    eexists. cbn [said printed]. rewrite <- app_assoc. reflexivity.
Qed.

Lemma sts_prompted_size_witness :
  let a := {| StsResizer.statefulset_name := "data";
              StsResizer.namespace := "default";
              StsResizer.dry_run := true;
              StsResizer.new_pv_size := None |} in
  let r := StsResizer.main a (Sample.sts_world [(" 80Gi" ++ Sample.nbsp)%string]) initial in
  fst r = Return tt
  /\ exists pre,
      printed (snd r)
      = pre ++ [Dump (resized_manifest "80Gi"
                        (sts_cleaned Sample.statefulset));
                dry_run_line].
Proof.
  destruct (sample_sts_ready true [(" 80Gi" ++ Sample.nbsp)%string])
    as (H0 & Hb & Hc & Hp & _ & _ & Pt & Pv).
  destruct (sts_prompted_size
              {| StsResizer.statefulset_name := "data";
                 StsResizer.namespace := "default";
                 StsResizer.dry_run := true;
                 StsResizer.new_pv_size := None |}
              (Sample.sts_world [(" 80Gi" ++ Sample.nbsp)%string])
              Sample.statefulset (sts_cleaned Sample.statefulset)
              Sample.pod_names (" 80Gi" ++ Sample.nbsp)%string
              H0 Hb Hc Hp eq_refl eq_refl Pt Pv eq_refl) as (A & _ & B).
  split; [exact A|exact B].
Defined.



(** X16: [get_current_pods] runs one [kubectl get pods] with the label
    [app=<name>], and returns the names of the pods listed, in the order
    of the listing. *)
Theorem get_current_pods_lists_names (a : StsResizer.args) (w : world)
        (s : state) (pods : value) (names : list string) :
  kubectl_reply w (List.length (calls s)) = Some pods ->
  lists_pods pods names ->
  let r := StsResizer.get_current_pods (StsResizer.statefulset_name a)
                                       (StsResizer.namespace a) w s in
  fst r = Return names
  /\ calls (snd r) = calls s ++ [list_pods a]
  /\ printed (snd r) = printed s ++ [found_line names].
Proof.
  intros Hr Hn. cbv zeta.
  rewrite (get_current_pods_ok _ _ w s pods names Hr Hn).
  repeat split.
Qed.

Lemma get_current_pods_lists_names_witness :
  let r := StsResizer.get_current_pods "data" "default"
             (Sample.world_of [Sample.pods] []) initial in
  fst r = Return ["data-0"; "data-1"]%string
  /\ printed (snd r) = [Say "Found 2 pods: data-0, data-1"].
Proof.
  assert (L : lists_pods Sample.pods Sample.pod_names).
  { exists [VDict [("metadata", VDict [("name", VStr "data-0")])];
            VDict [("metadata", VDict [("name", VStr "data-1")])]].
    split; [reflexivity|]. repeat constructor. }
  destruct (get_current_pods_lists_names
              (Sample.sts_args true) (Sample.world_of [Sample.pods] [])
              initial Sample.pods Sample.pod_names eq_refl L)
    as (A & _ & B).
  split; [exact A|exact B].
Defined.

(** X17: with its dry-run flag set [delete_statefulset_non_cascading]
    runs no [kubectl]; without it, it runs the delete with
    [--cascade=false] and nothing else. *)
Theorem delete_statefulset_runs (name ns : string) (w : world) (s : state) :
  calls (snd (StsResizer.delete_statefulset_non_cascading name ns true w s))
  = calls s
  /\ calls (snd (StsResizer.delete_statefulset_non_cascading
                   name ns false w s))
     = calls s ++ [Kubectl ["delete"; "statefulset"; name; "-n"; ns;
                            "--cascade=false"]%string].
Proof.
  split; [reflexivity|].
  unfold StsResizer.delete_statefulset_non_cascading, run_kubectl_command,
    pbind, kubectl, ret.
  now destruct (kubectl_reply w (List.length (calls s))).
Qed.

(** ** The resize *)

(** X18: on a manifest whose claim templates and volumes are plain,
    [update_persistent_volume_size] returns the manifest with every claim
    template resized and prints, for each volume that names a claim, the
    name of the claim and the note that it is to be updated separately; it
    runs no [kubectl] and reads no line. *)
Theorem resize_returns_and_notes (m : value) (size : string) (w : world)
        (s : state) :
  plain_templates m = true -> plain_volumes m = true ->
  let r := StsResizer.update_persistent_volume_size m size w s in
  fst r = Return (resized_manifest size m)
  /\ printed (snd r) = printed s ++ notes_of m
  /\ calls (snd r) = calls s
  /\ lines_read (snd r) = lines_read s.
Proof.
  intros Pt Pv. cbv zeta.
  rewrite (update_persistent_volume_size_plain m size w s Pt Pv).
  cbn [fst snd].
  now rewrite printed_said_all, calls_said_all, lines_read_said_all.
Qed.

Lemma resize_returns_and_notes_witness :
  let r := StsResizer.update_persistent_volume_size
             Sample.statefulset "100Gi" (Sample.world_of [] []) initial in
  fst r = Return (resized_manifest "100Gi" Sample.statefulset)
  /\ printed (snd r)
     = [Say "Found inline PVC reference: shared-claim";
        Say "Note: Inline PVCs need to be updated separately"].
Proof.
  destruct (resize_returns_and_notes
              Sample.statefulset "100Gi" (Sample.world_of [] []) initial
              eq_refl eq_refl) as (A & B & _).
  split; [exact A|exact B].
Defined.

(** X19: of two sizes applied one after the other, the last one wins:
    the result is the manifest resized to the second size alone.  In
    particular a size applied twice is applied once. *)
Theorem resize_last_size_wins (m m1 m2 : value) (a b : string) :
  StsResizer.resize_templates m a = Ok m1 ->
  StsResizer.resize_templates m1 b = Ok m2 ->
  m2 = resized_manifest b m
  /\ forall m', StsResizer.resize_templates m b = Ok m' -> m' = m2.
Proof.
  intros H1 H2.
  apply resize_templates_ok in H1, H2.
  fold (resized_manifest a m) in H1. fold (resized_manifest b m1) in H2.
  subst m1. rewrite resized_manifest_twice in H2. split; [exact H2|].
  intros m' H. apply resize_templates_ok in H.
  fold (resized_manifest b m) in H. congruence.
Qed.

Lemma resize_last_size_wins_witness :
  exists m1 m2,
    StsResizer.resize_templates Sample.statefulset "80Gi" = Ok m1
    /\ StsResizer.resize_templates m1 "100Gi" = Ok m2
    /\ m2 = resized_manifest "100Gi" Sample.statefulset.
Proof.
  destruct (StsResizer.resize_templates Sample.statefulset "80Gi")
    as [m1|e] eqn:E1; [|vm_compute in E1; discriminate].
  destruct (StsResizer.resize_templates m1 "100Gi")
    as [m2|e] eqn:E2;
    [|vm_compute in E1; injection E1 as <-; vm_compute in E2; discriminate].
  exists m1, m2. split; [reflexivity|]. split; [exact E2|].
  exact (proj1 (resize_last_size_wins Sample.statefulset m1 m2
                  "80Gi" "100Gi" E1 E2)).
Defined.

(** ** The transforms and the manifests they reject *)

(** X20: the clean-up at the end of [update_job_manifest] succeeds exactly
    on a dict that either has no [metadata], or has dicts as [metadata],
    [spec], [spec.template] and [spec.template.metadata] and, if it has
    annotations, a dict as [metadata.annotations]; its result is the
    manifest with the keys of [job_removals_of] popped. *)
Theorem job_clean_up_accepts_exactly (m m' : value) :
  RerunJob.clean_up m = Ok m'
  <-> job_ok m = true /\ m' = prune_all (job_removals_of m) m.
Proof. apply clean_up_spec. Qed.

(** X21: [clean_manifest] succeeds exactly on a dict whose [metadata],
    [spec], [spec.template] and [spec.template.metadata], where present,
    are dicts with, if any, dicts as annotations; a manifest without any
    of them is accepted. *)
Theorem clean_manifest_accepts_exactly (m m' : value) :
  StsResizer.clean_manifest m = Ok m'
  <-> sts_ok m = true /\ m' = sts_cleaned m.
Proof. apply clean_manifest_spec. Qed.

(** X22: [update_job_manifest] raises [KeyError('image')] on a manifest
    whose first container has no image, whatever the options. *)
Theorem transform_needs_image (m : value) (cd : dict) (n v : option string) :
  lookup m first_container = Some (VDict cd) ->
  Dict.get "image" cd = None ->
  RerunJob.update_job_manifest m n v = Raise (KeyError "image").
Proof.
  intros H G. unfold RerunJob.update_job_manifest.
  now rewrite (mutate_no_image m cd n v H G).
Qed.

Lemma transform_needs_image_witness :
  RerunJob.update_job_manifest
    (store Sample.job first_container (VDict [("name", VStr "main")]))
    None None
  = Raise (KeyError "image").
Proof.
  exact (transform_needs_image
           (store Sample.job first_container (VDict [("name", VStr "main")]))
           [("name", VStr "main")] None None eq_refl eq_refl).
Defined.

(** X23: when the name or the value of the variable is not given, or is
    empty, [update_job_manifest] leaves the environment of the containers
    alone: outside the image of the first container and the keys it
    removes, the manifest is as before. *)
Theorem env_not_requested (m m' : value) (n v : option string) :
  requested n v = None ->
  RerunJob.update_job_manifest m n v = Ok m' ->
  same_outside (image_path :: map site_path (job_removals_of m)) m m'
  /\ lookup m' env_path = lookup m env_path.
Proof.
  intros R H.
  pose proof (update_job_manifest_frame m m' n v H) as F.
  unfold env_target in F. rewrite R in F. cbn [app] in F.
  split; [exact F|].
  apply F. unfold outside. cbn [forallb]. apply andb_true_iff. split.
  - reflexivity.
  - unfold job_removals_of. destruct (has m [Key "metadata"]); reflexivity.
Qed.

Lemma env_not_requested_witness :
  exists m',
    RerunJob.update_job_manifest Sample.job (Some ""%string)
                                 (Some "3"%string) = Ok m'
    /\ lookup m' env_path = lookup Sample.job env_path.
Proof.
  destruct (RerunJob.update_job_manifest Sample.job (Some ""%string)
                                         (Some "3"%string))
    as [m'|e] eqn:E; [|vm_compute in E; discriminate].
  exists m'. split; [reflexivity|].
  exact (proj2 (env_not_requested Sample.job m' (Some ""%string)
                  (Some "3"%string) eq_refl E)).
Defined.


(** X24: what either pipeline returns is a manifest its own clean-up
    accepts and leaves as it is: run on its own output, the script removes
    nothing more. *)
Theorem pipeline_output_is_clean :
  (forall (m t : value) (n v : option string),
      RerunJob.update_job_manifest m n v = Ok t ->
      RerunJob.clean_up t = Ok t)
  /\ (forall (m t : value) (size : option string),
         sts_transform m size = Ok t ->
         StsResizer.clean_manifest t = Ok t).
Proof.
  split.
  - intros m t n v H. apply update_job_manifest_ok in H as (m1 & _ & Hc).
    exact (job_idem m1 t Hc).
  - intros m t size H. exact (sts_transform_clean m t size H).
Qed.

Lemma pipeline_output_is_clean_witness :
  (exists t,
      RerunJob.update_job_manifest Sample.job None None = Ok t
      /\ RerunJob.clean_up t = Ok t)
  /\ (exists t,
         sts_transform Sample.statefulset (Some "100Gi"%string) = Ok t
         /\ StsResizer.clean_manifest t = Ok t).
Proof.
  split.
  - destruct (RerunJob.update_job_manifest Sample.job None None)
      as [t|e] eqn:E; [|vm_compute in E; discriminate].
    exists t. split; [reflexivity|].
    exact (proj1 pipeline_output_is_clean Sample.job t None None E).
  - destruct (sts_transform Sample.statefulset (Some "100Gi"%string))
      as [t|e] eqn:E; [|vm_compute in E; discriminate].
    exists t. split; [reflexivity|].
    exact (proj2 pipeline_output_is_clean Sample.statefulset t _ E).
Defined.

(** X25: a status with a positive [succeeded] counts as completed
    whatever its [failed]: the monitor looks at the failures only when
    nothing has succeeded. *)
Theorem completed_before_failed (c : counts) :
  (0 < succeeded c)%Z ->
  RerunJob.classify (status_read c) = Ok (Some RerunJob.Completed).
Proof.
  intros H. rewrite classify_read. apply Z.ltb_lt in H. now rewrite H.
Qed.

Lemma completed_before_failed_witness :
  RerunJob.classify (status_read (1, 2, 0)%Z)
  = Ok (Some RerunJob.Completed).
Proof.
  exact (completed_before_failed (1, 2, 0)%Z eq_refl).
Defined.
